(** * CalendarSync: the reconciliation engine of [src/sync_engine.py]

    A shallow embedding of [CalendarSyncEngine] and of the parts of the
    Python runtime it relies on (str methods, [hashlib.md5], [datetime]),
    followed by the properties of the engine.

    Conventions.
    - A Python [str] is a list of characters; characters are the code
      points below 256 (Rocq's [ascii]), with Python's [isspace] and
      [lower] on that range and UTF-8 for [encode].
    - A [datetime] is the record of its fields, naive when [tzinfo] is
      [None]; durations are counted in microseconds.
    - [pytz] is a table from zone names to zones, taken as a parameter.
    - [print] appends an entry to the output, a backend call appends to the
      list of calls and may raise.
    - [get_events] of the two clients and [format_event_for_sync] of the
      Google client are parameters of [sync]. *)

From stdpp Require Import gmap strings.
From Stdlib Require Import ZArith Ascii String List Lia Bool.
Import ListNotations.
Local Open Scope Z_scope.

(* ================================================================== *)
(** ** Python [str] *)
(* ================================================================== *)

Module PyStr.

Definition str := list ascii.

Definition ord (c : ascii) : Z := Z.of_N (N_of_ascii c).
Definition chr (n : Z) : ascii := ascii_of_N (Z.to_N n).

Definition lit (s : string) : str := list_ascii_of_string s.

(** The character [\], code 92. *)
Definition backslash : ascii := "092"%char.

(** [c.isspace()]: the white space of [str.split()] and [str.strip()]. *)
Definition isspace (c : ascii) : bool :=
  let n := ord c in
  ((9 <=? n) && (n <=? 13)) || ((28 <=? n) && (n <=? 32))
  || (n =? 133) || (n =? 160).

(** [c.lower()]. *)
Definition lower_char (c : ascii) : ascii :=
  let n := ord c in
  if ((65 <=? n) && (n <=? 90))
     || ((192 <=? n) && (n <=? 222) && negb (n =? 215))
  then chr (n + 32) else c.

Definition lower (s : str) : str := map lower_char s.

Fixpoint lstrip (s : str) : str :=
  match s with
  | c :: s' => if isspace c then lstrip s' else s
  | [] => []
  end.

Definition rstrip (s : str) : str := rev (lstrip (rev s)).

(** [s.strip()] *)
Definition strip (s : str) : str := rstrip (lstrip s).

(** [Some rest] when [s = old ++ rest]. *)
Fixpoint strip_prefix (old s : str) : option str :=
  match old, s with
  | [], _ => Some s
  | a :: old', c :: s' =>
      if Ascii.eqb a c then strip_prefix old' s' else None
  | _ :: _, [] => None
  end.

(** [s.replace(old, new)] for a non-empty [old]: scan from the left, the
    occurrences replaced do not overlap.  [n] bounds the number of steps. *)
Fixpoint replace_from (n : nat) (old new s : str) : str :=
  match n with
  | O => s
  | S n' =>
      match strip_prefix old s with
      | Some rest => new ++ replace_from n' old new rest
      | None =>
          match s with
          | [] => []
          | c :: s' => c :: replace_from n' old new s'
          end
      end
  end.

Definition replace (old new s : str) : str :=
  match old with
  | [] => s (* not used by the engine: every pattern is a literal *)
  | _ => replace_from (S (List.length s)) old new s
  end.

(** [s.split()]: the maximal runs of characters that are not white
    space. *)
Fixpoint split (s : str) : list str :=
  match s with
  | [] => []
  | c :: s' =>
      if isspace c then split s'
      else
        match s' with
        | [] => [[c]]
        | d :: _ =>
            if isspace d then [c] :: split s'
            else
              match split s' with
              | w :: ws => (c :: w) :: ws
              | [] => [[c]]
              end
        end
  end.

(** [sep.join(ws)] *)
Fixpoint join (sep : str) (ws : list str) : str :=
  match ws with
  | [] => []
  | [w] => w
  | w :: ws' => w ++ sep ++ join sep ws'
  end.

(** [s.encode()]: UTF-8, one byte below U+0080 and two bytes from there
    to U+00FF. *)
Definition encode_char (c : ascii) : list Z :=
  let n := ord c in
  if n <? 128 then [n]
  else [Z.lor 192 (Z.shiftr n 6); Z.lor 128 (Z.land n 63)].

Definition encode (s : str) : list Z := flat_map encode_char s.

Definition str_eqb (a b : str) : bool :=
  if list_eq_dec Ascii.ascii_dec a b then true else false.

End PyStr.

(* ================================================================== *)
(** ** [hashlib.md5] (RFC 1321) *)
(* ================================================================== *)

Module MD5.

Definition mask32 (x : Z) : Z := Z.land x 0xffffffff.

Definition rotl (x c : Z) : Z :=
  mask32 (Z.lor (Z.shiftl x c) (Z.shiftr x (32 - c))).

Definition not32 (x : Z) : Z := Z.lxor x 0xffffffff.

Definition K : list Z :=
  [0xd76aa478; 0xe8c7b756; 0x242070db; 0xc1bdceee;
   0xf57c0faf; 0x4787c62a; 0xa8304613; 0xfd469501;
   0x698098d8; 0x8b44f7af; 0xffff5bb1; 0x895cd7be;
   0x6b901122; 0xfd987193; 0xa679438e; 0x49b40821;
   0xf61e2562; 0xc040b340; 0x265e5a51; 0xe9b6c7aa;
   0xd62f105d; 0x02441453; 0xd8a1e681; 0xe7d3fbc8;
   0x21e1cde6; 0xc33707d6; 0xf4d50d87; 0x455a14ed;
   0xa9e3e905; 0xfcefa3f8; 0x676f02d9; 0x8d2a4c8a;
   0xfffa3942; 0x8771f681; 0x6d9d6122; 0xfde5380c;
   0xa4beea44; 0x4bdecfa9; 0xf6bb4b60; 0xbebfbc70;
   0x289b7ec6; 0xeaa127fa; 0xd4ef3085; 0x04881d05;
   0xd9d4d039; 0xe6db99e5; 0x1fa27cf8; 0xc4ac5665;
   0xf4292244; 0x432aff97; 0xab9423a7; 0xfc93a039;
   0x655b59c3; 0x8f0ccc92; 0xffeff47d; 0x85845dd1;
   0x6fa87e4f; 0xfe2ce6e0; 0xa3014314; 0x4e0811a1;
   0xf7537e82; 0xbd3af235; 0x2ad7d2bb; 0xeb86d391].

Definition shifts : list Z :=
  [7; 12; 17; 22; 7; 12; 17; 22; 7; 12; 17; 22; 7; 12; 17; 22;
   5; 9; 14; 20; 5; 9; 14; 20; 5; 9; 14; 20; 5; 9; 14; 20;
   4; 11; 16; 23; 4; 11; 16; 23; 4; 11; 16; 23; 4; 11; 16; 23;
   6; 10; 15; 21; 6; 10; 15; 21; 6; 10; 15; 21; 6; 10; 15; 21].

Definition nthZ (l : list Z) (i : Z) : Z := nth (Z.to_nat i) l 0.

(** The little-endian bytes of a [n]-byte number, and back. *)
Fixpoint le_bytes (n : nat) (x : Z) : list Z :=
  match n with
  | O => []
  | S n' => Z.land x 255 :: le_bytes n' (Z.shiftr x 8)
  end.

Fixpoint le_word (bs : list Z) : Z :=
  match bs with
  | [] => 0
  | b :: bs' => Z.lor b (Z.shiftl (le_word bs') 8)
  end.

(** The message followed by the bit 1, zeros up to 56 modulo 64 bytes and
    the length in bits on 8 bytes. *)
Definition pad (msg : list Z) : list Z :=
  let len := Z.of_nat (List.length msg) in
  let zeros := Z.to_nat ((55 - len) mod 64) in
  msg ++ [128] ++ repeat 0 zeros ++ le_bytes 8 (Z.land (8 * len) 0xffffffffffffffff).

Fixpoint words (n : nat) (bs : list Z) : list Z :=
  match n with
  | O => []
  | S n' => le_word (firstn 4 bs) :: words n' (skipn 4 bs)
  end.

Record state := State { sA : Z; sB : Z; sC : Z; sD : Z }.

Definition init : state :=
  State 0x67452301 0xefcdab89 0x98badcfe 0x10325476.

Definition round (M : list Z) (st : state) (i : Z) : state :=
  let '(State a b c d) := st in
  let '(f, g) :=
    if i <? 16 then (Z.lor (Z.land b c) (Z.land (not32 b) d), i)
    else if i <? 32 then
      (Z.lor (Z.land d b) (Z.land (not32 d) c), (5 * i + 1) mod 16)
    else if i <? 48 then (Z.lxor (Z.lxor b c) d, (3 * i + 5) mod 16)
    else (Z.lxor c (Z.lor b (not32 d)), (7 * i) mod 16) in
  let f' := mask32 (f + a + nthZ K i + nthZ M g) in
  State d (mask32 (b + rotl f' (nthZ shifts i))) b c.

Definition block (st : state) (bs : list Z) : state :=
  let M := words 16 bs in
  let '(State a b c d) :=
    fold_left (round M) (map Z.of_nat (seq 0 64)) st in
  State (mask32 (sA st + a)) (mask32 (sB st + b))
        (mask32 (sC st + c)) (mask32 (sD st + d)).

Fixpoint blocks (n : nat) (st : state) (bs : list Z) : state :=
  match n with
  | O => st
  | S n' => blocks n' (block st (firstn 64 bs)) (skipn 64 bs)
  end.

Definition digest (msg : list Z) : list Z :=
  let p := pad msg in
  let '(State a b c d) := blocks (List.length p / 64) init p in
  le_bytes 4 a ++ le_bytes 4 b ++ le_bytes 4 c ++ le_bytes 4 d.

Definition hex_digit (n : Z) : ascii :=
  if n <? 10 then PyStr.chr (48 + n) else PyStr.chr (87 + n).

Definition hex_byte (b : Z) : list ascii :=
  [hex_digit (Z.shiftr b 4); hex_digit (Z.land b 15)].

(** [hashlib.md5(msg).hexdigest()] *)
Definition hexdigest (msg : list Z) : string :=
  string_of_list_ascii (flat_map hex_byte (digest msg)).

End MD5.

Import PyStr.

(* ================================================================== *)
(** ** Exceptions *)
(* ================================================================== *)

Inductive exn :=
| OverflowError          (* date value out of range *)
| UnknownTimeZoneError   (* pytz.timezone on an unknown name *)
| LocalizeError          (* raised by tz.localize *)
| ValueError             (* localize on a value that is not naive *)
| AttributeError         (* attribute of None *)
| BackendError (msg : str)
| SyncFailed (e : exn)   (* Exception(f"Sync failed: {str(e)}") *).

Inductive result (A : Type) :=
| Ok (a : A)
| Raise (e : exn).
Arguments Ok {A} a.
Arguments Raise {A} e.

Definition rbind {A B} (r : result A) (k : A -> result B) : result B :=
  match r with
  | Ok a => k a
  | Raise e => Raise e
  end.

Declare Scope result_scope.
Delimit Scope result_scope with result.
Notation "x <- r ;; k" := (rbind r (fun x => k))
  (at level 100, r at next level, right associativity) : result_scope.

(** [[f(x) for x in l]] where [f] may raise: the first exception ends
    the comprehension. *)
Fixpoint map_result {A B} (f : A -> result B) (l : list A)
    : result (list B) :=
  match l with
  | [] => Ok []
  | x :: l' =>
      (y <- f x ;; ys <- map_result f l' ;; Ok (y :: ys))%result
  end.

(* ================================================================== *)
(** ** [datetime] *)
(* ================================================================== *)

Module PyDatetime.

(** The fields of a [datetime]; [tzinfo] is [None] for a naive value and
    holds [utcoffset()] in microseconds for an aware one. *)
Record datetime := Datetime {
  year : Z; month : Z; day : Z;
  hour : Z; minute : Z; second : Z; microsecond : Z;
  tzinfo : option Z
}.

Definition is_leap (y : Z) : bool :=
  (y mod 4 =? 0) && (negb (y mod 100 =? 0) || (y mod 400 =? 0)).

Definition days_before_year (y : Z) : Z :=
  let y1 := y - 1 in y1 * 365 + y1 / 4 - y1 / 100 + y1 / 400.

Definition DAYS_IN_MONTH : list Z :=
  [-1; 31; 28; 31; 30; 31; 30; 31; 31; 30; 31; 30; 31].

Definition DAYS_BEFORE_MONTH : list Z :=
  [-1; 0; 31; 59; 90; 120; 151; 181; 212; 243; 273; 304; 334].

Definition days_in_month (y m : Z) : Z :=
  if (m =? 2) && is_leap y then 29 else nth (Z.to_nat m) DAYS_IN_MONTH 0.

Definition days_before_month (y m : Z) : Z :=
  nth (Z.to_nat m) DAYS_BEFORE_MONTH 0
  + (if (2 <? m) && is_leap y then 1 else 0).

Definition ymd2ord (y m d : Z) : Z :=
  days_before_year y + days_before_month y m + d.

Definition toordinal (t : datetime) : Z :=
  ymd2ord (year t) (month t) (day t).

Definition US : Z := 1000000.

(** The wall clock of [t] in microseconds since 0001-01-01 00:00:00. *)
Definition wall (t : datetime) : Z :=
  (((toordinal t - 1) * 24 + hour t) * 60 + minute t) * 60 * US
  + second t * US + microsecond t.

(** 9999-12-31 23:59:59.999999 *)
Definition MAX_WALL : Z := 3652059 * 86400 * US - 1.

(** What the [datetime] constructor accepts. *)
Definition valid (t : datetime) : bool :=
  (1 <=? year t) && (year t <=? 9999)
  && (1 <=? month t) && (month t <=? 12)
  && (1 <=? day t) && (day t <=? days_in_month (year t) (month t))
  && (0 <=? hour t) && (hour t <? 24)
  && (0 <=? minute t) && (minute t <? 60)
  && (0 <=? second t) && (second t <? 60)
  && (0 <=? microsecond t) && (microsecond t <? US)
  && match tzinfo t with
     | None => true
     | Some off => (- (86400 * US) <? off) && (off <? 86400 * US)
     end.

(** [t.replace(microsecond=0)] *)
Definition replace_microsecond_0 (t : datetime) : datetime :=
  Datetime (year t) (month t) (day t) (hour t) (minute t) (second t) 0
           (tzinfo t).

(** [t.replace(tzinfo=...)] *)
Definition replace_tzinfo (t : datetime) (tz : option Z) : datetime :=
  Datetime (year t) (month t) (day t) (hour t) (minute t) (second t)
           (microsecond t) tz.

(** A point on the UTC time line, in microseconds since 0001-01-01: the
    value of [t.astimezone(pytz.UTC)]. *)
Definition instant := Z.

(** [t.astimezone(utc)] for an aware [t]: the wall clock minus the offset,
    [OverflowError] outside the years 1 to 9999. *)
Definition astimezone_utc (t : datetime) : result instant :=
  match tzinfo t with
  | Some off =>
      let u := wall t - off in
      if (0 <=? u) && (u <=? MAX_WALL) then Ok u else Raise OverflowError
  | None => Raise ValueError (* the engine converts aware values only *)
  end.

(** [u.replace(microsecond=0)] on a UTC value. *)
Definition instant_replace_microsecond_0 (u : instant) : instant :=
  u - u mod US.

(** [n] decimal digits, as [%0nd] prints a number below [10^n]. *)
Fixpoint digits (n : nat) (x : Z) : str :=
  match n with
  | O => []
  | S n' => digits n' (x / 10) ++ [chr (48 + x mod 10)]
  end.

(** The offset as [isoformat] prints it: [+HH:MM], then [:SS] and
    [.ffffff] when they are not zero. *)
Definition format_offset (off : Z) : str :=
  let sign := if off <? 0 then lit "-" else lit "+" in
  let a := Z.abs off in
  let hh := a / (3600 * US) in
  let r := a mod (3600 * US) in
  let mm := r / (60 * US) in
  let r' := r mod (60 * US) in
  let ss := r' / US in
  let us := r' mod US in
  sign ++ digits 2 hh ++ lit ":" ++ digits 2 mm
  ++ (if r' =? 0 then []
      else lit ":" ++ digits 2 ss
           ++ (if us =? 0 then [] else lit "." ++ digits 6 us)).

(** [str(t)], that is [t.isoformat(sep=' ')]. *)
Definition str_datetime (t : datetime) : str :=
  digits 4 (year t) ++ lit "-" ++ digits 2 (month t) ++ lit "-"
  ++ digits 2 (day t) ++ lit " " ++ digits 2 (hour t) ++ lit ":"
  ++ digits 2 (minute t) ++ lit ":" ++ digits 2 (second t)
  ++ (if microsecond t =? 0 then [] else lit "." ++ digits 6 (microsecond t))
  ++ match tzinfo t with
     | None => []
     | Some off => format_offset off
     end.

(** [str(x)] for a field that holds a datetime or [None]. *)
Definition str_time (x : option datetime) : str :=
  match x with
  | Some t => str_datetime t
  | None => lit "None"
  end.

(** A [pytz] zone: the offset [localize] attaches to a naive wall clock,
    in microseconds; [None] where [localize] raises. *)
Definition zone := datetime -> option Z.

(** [tz.localize(t)] *)
Definition localize (tz : zone) (t : datetime) : result datetime :=
  match tzinfo t with
  | Some _ => Raise ValueError
  | None =>
      match tz t with
      | Some off => Ok (replace_tzinfo t (Some off))
      | None => Raise LocalizeError
      end
  end.

End PyDatetime.

Import PyDatetime.

(* ================================================================== *)
(** ** The engine: data *)
(* ================================================================== *)

Module Engine.

Inductive Source := google | icloud.

(** The event dictionaries built by [format_event_for_sync] and
    [_format_event]; [raw_data] is never read by the engine. *)
Record Event := {
  id_ : option str;
  summary : str;
  description : str;
  location : str;
  start : option datetime;
  end_ : option datetime;
  all_day : bool;
  source : Source
}.

Inductive Direction := google_to_icloud | icloud_to_google.

Record Config := {
  sync_direction : str;
  source_of_truth : str;
  timezone : str
}.

Record Stats := { created : Z; updated : Z; skipped : Z }.

Record SyncResult := {
  events_processed : Z;
  events_created : Z;
  events_updated : Z;
  events_deleted : Z;
  events_skipped : Z
}.

(** The payload of [_convert_to_icloud_format]. *)
Record ICloudData := {
  ic_summary : str;
  ic_description : str;
  ic_location : str;
  ic_start : option datetime;
  ic_end : option datetime;
  ic_all_day : bool
}.

(** A time of the Google payload: [{'date': ...}] or
    [{'dateTime': ..., 'timeZone': ...}], kept as the value formatted. *)
Inductive GoogleTime :=
| GDate (t : datetime)
| GDateTime (t : datetime).

(** The payload of [_convert_to_google_format]. *)
Record GoogleData := {
  g_summary : str;
  g_description : str;
  g_location : str;
  g_start : GoogleTime;
  g_end : GoogleTime
}.

(** The mutations the engine asks of the two clients. *)
Inductive Call :=
| icloud_create_event (d : ICloudData)
| google_create_event (d : GoogleData)
| google_update_event (event_id : str) (d : GoogleData).

(** One entry per [print] block of the engine, with the values it
    interpolates; [dry] is the [[DRY RUN]] prefix. *)
Inductive Line :=
| PrintUpdating (dry : bool) (ev : Event) (d : Direction)
| PrintSkippingUpToDate (dry : bool) (ev : Event)
| PrintSkippingReschedule (dry : bool) (ev : Event)
| PrintRescheduling (dry : bool) (ev old : Event) (d : Direction)
| PrintSkippingSimilar (dry : bool) (ev : Event)
| PrintCreating (dry : bool) (ev : Event) (d : Direction)
| PrintICloudUpdateNotImplemented (ev : Event)
| PrintErrorCreating (ev : Event) (e : exn)
| PrintErrorUpdating (ev : Event) (e : exn)
| PrintBidirectionalMode (source_of_truth : str).

(** What a run has done so far: the backend calls made and the lines
    printed, oldest first. *)
Record World := { calls : list Call; output : list Line }.

(** A computation that reads and extends the world and returns or
    raises. *)
Definition M (A : Type) : Type := World -> result A * World.

Definition ret {A} (a : A) : M A := fun w => (Ok a, w).

Definition bind {A B} (m : M A) (k : A -> M B) : M B :=
  fun w =>
    match m w with
    | (Ok a, w') => k a w'
    | (Raise e, w') => (Raise e, w')
    end.

Declare Scope M_scope.
Delimit Scope M_scope with M.
Notation "x <- m ;; k" := (bind m (fun x => k))
  (at level 100, m at next level, right associativity) : M_scope.
Notation "m ;;; k" := (bind m (fun _ => k))
  (at level 100, right associativity) : M_scope.

Definition lift {A} (r : result A) : M A := fun w => (r, w).

Definition print (l : Line) : M unit :=
  fun w => (Ok tt, {| calls := calls w; output := output w ++ [l] |}).

(** [try: body except Exception as e: handler(e)] *)
Definition try_except {A} (body : M A) (handler : exn -> M A) : M A :=
  fun w =>
    match body w with
    | (Ok a, w') => (Ok a, w')
    | (Raise e, w') => handler e w'
    end.

(** [for x in l: s = body(s, x)] *)
Fixpoint for_each {A S} (body : S -> A -> M S) (l : list A) (s : S) : M S :=
  match l with
  | [] => ret s
  | x :: l' => (s' <- body s x ;; for_each body l' s')%M
  end.

Definition is_empty (s : str) : bool :=
  match s with [] => true | _ => false end.

Definition is_none {A} (x : option A) : bool :=
  match x with None => true | Some _ => false end.

(** The branch of the body of the loop of [_sync_events] a source event
    takes: tier 1 is the hash lookup, tier 2 the reschedule search, tier 3
    the search for a similar event. *)
Inductive Decision :=
| ExactUpdate (target_event : Event)
| ExactSkip
| RescheduleSkip
| RescheduleUpdate (rescheduled_event : Event)
| SimilarSkip
| CreateNew.

(* ================================================================== *)
(** ** The engine: [CalendarSyncEngine] *)
(* ================================================================== *)

Section CalendarSyncEngine.

(** [pytz.timezone]: the zone of a name, [None] for an unknown name. *)
Variable pytz_timezone : str -> option zone.

(** [self.config] *)
Variable config : Config.

(** The two clients: whether a call made after the calls [history] raises,
    and with which message. *)
Variable backend : list Call -> Call -> option str.

Definition call_backend (c : Call) : M unit :=
  fun w =>
    let w' := {| calls := calls w ++ [c]; output := output w |} in
    match backend (calls w) c with
    | None => (Ok tt, w')
    | Some msg => (Raise (BackendError msg), w')
    end.

(** [_normalize_text] *)
Definition normalize_text (text : str) : str :=
  if is_empty text then []
  else
    let normalized := strip text in
    let normalized := replace (lit "\,") (lit ",") normalized in
    let normalized := replace (lit "\;") (lit ";") normalized in
    let normalized := replace (lit "\n") [chr 10] normalized in
    let normalized := replace (lit "\\") [backslash] normalized in
    let normalized := join (lit " ") (split normalized) in
    lower normalized.

(** The string hashed by [_calculate_event_hash]. *)
Definition hash_string (event : Event) : str :=
  normalize_text (summary event) ++ lit "|" ++ str_time (start event)
  ++ lit "|" ++ str_time (end_ event).

(** [_calculate_event_hash] *)
Definition calculate_event_hash (event : Event) : string :=
  MD5.hexdigest (encode (hash_string event)).

(** [pytz.timezone(self.config.timezone)] *)
Definition local_tz : result zone :=
  match pytz_timezone (timezone config) with
  | Some tz => Ok tz
  | None => Raise UnknownTimeZoneError
  end.

(** The [try] block of [_times_match] on two datetimes: [time1] and
    [time2] as the block leaves them, and the difference compared with
    the minute, in microseconds, or the exception.  The mixed branch
    rebinds a naive value to its localized value, which the [except]
    branch then reads. *)
Definition times_match_try (time1 time2 : datetime)
    : datetime * datetime * result Z :=
  match tzinfo time1, tzinfo time2 with
  | Some _, Some _ =>
      (time1, time2,
       (t1_utc <- astimezone_utc time1 ;;
        t2_utc <- astimezone_utc time2 ;;
        Ok (Z.abs (instant_replace_microsecond_0 t1_utc
                   - instant_replace_microsecond_0 t2_utc)))%result)
  | None, None =>
      (time1, time2,
       Ok (Z.abs (wall (replace_microsecond_0 time1)
                  - wall (replace_microsecond_0 time2))))
  | _, _ =>
      match local_tz with
      | Raise e => (time1, time2, Raise e)
      | Ok tz =>
          match (if is_none (tzinfo time1) then localize tz time1
                 else Ok time1) with
          | Raise e => (time1, time2, Raise e)
          | Ok time1' =>
              match (if is_none (tzinfo time2) then localize tz time2
                     else Ok time2) with
              | Raise e => (time1', time2, Raise e)
              | Ok time2' =>
                  (time1', time2',
                   (t1_utc <- astimezone_utc time1' ;;
                    t2_utc <- astimezone_utc time2' ;;
                    Ok (Z.abs (instant_replace_microsecond_0 t1_utc
                               - instant_replace_microsecond_0 t2_utc)))
                   %result)
              end
          end
      end
  end.

(** [_times_match]; a datetime is never falsy and always has [replace],
    [diff <= 60] is on seconds; the [except] branch compares [str] of
    [time1] and [time2] as the [try] block left them. *)
Definition times_match (time1 time2 : option datetime) : bool :=
  match time1, time2 with
  | Some t1, Some t2 =>
      let '(time1, time2, diff) := times_match_try t1 t2 in
      match diff with
      | Ok diff => diff <=? 60 * US
      | Raise _ => str_eqb (str_datetime time1) (str_datetime time2)
      end
  | _, _ => false
  end.

(** [normalize_time] of [_has_significant_time_difference] followed by
    [astimezone(utc)]. *)
Definition normalize_time_utc (dt : datetime) : result instant :=
  (dt_norm <- (if is_none (tzinfo dt)
               then (tz <- local_tz ;; localize tz dt)
               else Ok dt) ;;
   astimezone_utc dt_norm)%result.

(** [_has_significant_time_difference]; the differences are those of
    [total_seconds()], compared with 300 seconds in microseconds. *)
Definition has_significant_time_difference
    (source_start target_start source_end target_end : option datetime)
    : bool :=
  match source_start, target_start, source_end, target_end with
  | Some source_start, Some target_start, Some source_end, Some target_end =>
      match
        (source_start_utc <- normalize_time_utc source_start ;;
         target_start_utc <- normalize_time_utc target_start ;;
         source_end_utc <- normalize_time_utc source_end ;;
         target_end_utc <- normalize_time_utc target_end ;;
         let start_diff := Z.abs (source_start_utc - target_start_utc) in
         let end_diff := Z.abs (source_end_utc - target_end_utc) in
         Ok ((300 * US <? start_diff) || (300 * US <? end_diff)))%result
      with
      | Ok b => b
      | Raise _ => false
      end
  | _, _, _, _ => false
  end.

(** [_needs_update] *)
Definition needs_update (source_event target_event : Event) : bool :=
  let source_title := normalize_text (summary source_event) in
  let target_title := normalize_text (summary target_event) in
  if negb (str_eqb source_title target_title) then true
  else
    let source_desc := normalize_text (description source_event) in
    let target_desc := normalize_text (description target_event) in
    if negb (str_eqb source_desc target_desc) then true
    else if negb (times_match (start source_event) (start target_event))
    then true
    else if negb (times_match (end_ source_event) (end_ target_event))
    then true
    else false.

(** The test of the loop of [_find_rescheduled_event] on one target. *)
Definition is_reschedule_of (source_event target_event : Event) : bool :=
  let source_summary := normalize_text (summary source_event) in
  let source_description := normalize_text (description source_event) in
  let source_start := start source_event in
  let source_end := end_ source_event in
  let target_summary := normalize_text (summary target_event) in
  let target_description := normalize_text (description target_event) in
  let target_start := start target_event in
  let target_end := end_ target_event in
  let summary_match := str_eqb source_summary target_summary in
  let description_match :=
    negb (is_empty source_description)
    && negb (is_empty target_description)
    && str_eqb source_description target_description in
  let start_times_match := times_match source_start target_start in
  let end_times_match := times_match source_end target_end in
  let times_actually_different :=
    negb (start_times_match && end_times_match) in
  if summary_match && times_actually_different then
    if has_significant_time_difference
         source_start target_start source_end target_end
    then
      description_match
      || (is_empty source_description && is_empty target_description)
    else false
  else false.

(** [_find_rescheduled_event] *)
Definition find_rescheduled_event
    (source_event : Event) (target_events : list Event) : option Event :=
  let source_summary := normalize_text (summary source_event) in
  if is_empty source_summary
     || is_none (start source_event) || is_none (end_ source_event)
  then None
  else List.find (is_reschedule_of source_event) target_events.

(** The test of the loop of [_find_similar_event] on one target. *)
Definition is_similar_to (source_event target_event : Event) : bool :=
  str_eqb (normalize_text (summary source_event))
          (normalize_text (summary target_event))
  && times_match (start source_event) (start target_event)
  && times_match (end_ source_event) (end_ target_event).

(** [_find_similar_event] *)
Definition find_similar_event
    (source_event : Event) (target_events : list Event) : option Event :=
  let source_summary := normalize_text (summary source_event) in
  if is_empty source_summary
     || is_none (start source_event) || is_none (end_ source_event)
  then None
  else List.find (is_similar_to source_event) target_events.

(** [_convert_to_icloud_format] *)
Definition convert_to_icloud_format (event : Event) : ICloudData :=
  {| ic_summary := summary event;
     ic_description := description event;
     ic_location := location event;
     ic_start := start event;
     ic_end := end_ event;
     ic_all_day := all_day event |}.

(** An attribute or a method of a field that may hold [None]. *)
Definition attr_of (x : option datetime) : result datetime :=
  match x with
  | Some t => Ok t
  | None => Raise AttributeError
  end.

(** [_convert_to_google_format] *)
Definition convert_to_google_format (event : Event) : result GoogleData :=
  if all_day event then
    (s <- attr_of (start event) ;;
     e <- attr_of (end_ event) ;;
     Ok {| g_summary := summary event;
           g_description := description event;
           g_location := location event;
           g_start := GDate s; g_end := GDate e |})%result
  else
    (start_dt <- attr_of (start event) ;;
     times <-
       (if is_none (tzinfo start_dt) then
          (tz <- local_tz ;;
           start_dt <- localize tz start_dt ;;
           end_dt <- attr_of (end_ event) ;;
           end_dt <- localize tz end_dt ;;
           Ok (start_dt, end_dt))
        else
          (end_dt <- attr_of (end_ event) ;;
           Ok (start_dt, end_dt))) ;;
     Ok {| g_summary := summary event;
           g_description := description event;
           g_location := location event;
           g_start := GDateTime (fst times);
           g_end := GDateTime (snd times) |})%result.

(** [_create_event_in_target] *)
Definition create_event_in_target (event : Event) (direction : Direction)
    : M unit :=
  try_except
    (match direction with
     | google_to_icloud =>
         let event_data := convert_to_icloud_format event in
         call_backend (icloud_create_event event_data)
     | icloud_to_google =>
         (event_data <- lift (convert_to_google_format event) ;;
          call_backend (google_create_event event_data))%M
     end)
    (fun e => print (PrintErrorCreating event e)).

(** [_update_event_in_target] *)
Definition update_event_in_target
    (source_event target_event : Event) (direction : Direction) : M unit :=
  try_except
    (match direction with
     | google_to_icloud =>
         let event_data := convert_to_icloud_format source_event in
         print (PrintICloudUpdateNotImplemented source_event)
     | icloud_to_google =>
         (event_data <- lift (convert_to_google_format source_event) ;;
          match id_ target_event with
          | Some event_id =>
              if is_empty event_id then ret tt
              else call_backend (google_update_event event_id event_data)
          | None => ret tt
          end)%M
     end)
    (fun e => print (PrintErrorUpdating source_event e)).

(** The first loop of [_sync_events]: a later target replaces an earlier
    one with the same hash. *)
Definition build_target_lookup (target_events : list Event)
    : gmap string Event :=
  fold_left (fun target_lookup event =>
               <[calculate_event_hash event := event]> target_lookup)
            target_events ∅.

Definition add_created (s : Stats) : Stats :=
  {| created := created s + 1; updated := updated s; skipped := skipped s |}.
Definition add_updated (s : Stats) : Stats :=
  {| created := created s; updated := updated s + 1; skipped := skipped s |}.
Definition add_skipped (s : Stats) : Stats :=
  {| created := created s; updated := updated s; skipped := skipped s + 1 |}.

(** [if b: m] *)
Definition when_ (b : bool) (m : M unit) : M unit :=
  if b then m else ret tt.

(** The body of the second loop of [_sync_events]. *)
Definition sync_event
    (target_lookup : gmap string Event) (target_events : list Event)
    (direction : Direction) (dry_run avoid_conflicts : bool)
    (stats : Stats) (source_event : Event) : M Stats :=
  let content_hash := calculate_event_hash source_event in
  match target_lookup !! content_hash with
  | Some target_event =>
      if needs_update source_event target_event then
        (when_ (negb dry_run)
           (update_event_in_target source_event target_event direction) ;;;
         print (PrintUpdating dry_run source_event direction) ;;;
         ret (add_updated stats))%M
      else
        (print (PrintSkippingUpToDate dry_run source_event) ;;;
         ret (add_skipped stats))%M
  | None =>
      match find_rescheduled_event source_event target_events with
      | Some rescheduled_event =>
          if avoid_conflicts then
            (print (PrintSkippingReschedule dry_run source_event) ;;;
             ret (add_skipped stats))%M
          else
            (when_ (negb dry_run)
               (update_event_in_target source_event rescheduled_event
                  direction) ;;;
             print (PrintRescheduling dry_run source_event rescheduled_event
                      direction) ;;;
             ret (add_updated stats))%M
      | None =>
          match find_similar_event source_event target_events with
          | Some existing_event =>
              (print (PrintSkippingSimilar dry_run source_event) ;;;
               ret (add_skipped stats))%M
          | None =>
              (when_ (negb dry_run)
                 (create_event_in_target source_event direction) ;;;
               print (PrintCreating dry_run source_event direction) ;;;
               ret (add_created stats))%M
          end
      end
  end.

(** [_sync_events] *)
Definition sync_events
    (source_events target_events : list Event) (direction : Direction)
    (dry_run avoid_conflicts : bool) : M Stats :=
  let stats := {| created := 0; updated := 0; skipped := 0 |} in
  let target_lookup := build_target_lookup target_events in
  for_each
    (sync_event target_lookup target_events direction dry_run
       avoid_conflicts)
    source_events stats.

Definition len (l : list Event) : Z := Z.of_nat (List.length l).

(** [_sync_bidirectional] *)
Definition sync_bidirectional
    (google_events icloud_events : list Event) (dry_run : bool)
    : M SyncResult :=
  let source_of_truth :=
    if str_eqb (source_of_truth config) (lit "auto") then lit "google"
    else source_of_truth config in
  (when_ dry_run (print (PrintBidirectionalMode source_of_truth)) ;;;
   stats <-
     (if str_eqb source_of_truth (lit "google") then
        (stats1 <- sync_events google_events icloud_events
                     google_to_icloud dry_run false ;;
         stats2 <- sync_events icloud_events google_events
                     icloud_to_google dry_run true ;;
         ret (stats1, stats2))
      else
        (stats1 <- sync_events icloud_events google_events
                     icloud_to_google dry_run false ;;
         stats2 <- sync_events google_events icloud_events
                     google_to_icloud dry_run true ;;
         ret (stats1, stats2))) ;;
   let '(stats1, stats2) := stats in
   ret {| events_processed := len google_events + len icloud_events;
          events_created := created stats1 + created stats2;
          events_updated := updated stats1 + updated stats2;
          events_deleted := 0;
          events_skipped := skipped stats1 + skipped stats2 |})%M.

(** The read side of the two clients.  [GoogleItem] is an event as the
    Google API returns it.  [get_events] of a client is whatever the
    client does with the world before it returns a list or raises;
    [format_event_for_sync] of the Google client reads its argument
    only, and may raise.  The list of the iCloud client holds formatted
    events or [None]. *)
Variable GoogleItem : Type.
Variable google_get_events : datetime -> datetime -> M (list GoogleItem).
Variable icloud_get_events :
  datetime -> datetime -> M (list (option Event)).
Variable format_event_for_sync : GoogleItem -> result Event.

(** [sync] *)
Definition sync (start_date end_date : datetime) (dry_run : bool)
    : M SyncResult :=
  let result :=
    {| events_processed := 0; events_created := 0; events_updated := 0;
       events_deleted := 0; events_skipped := 0 |} in
  try_except
    (google_events <- google_get_events start_date end_date ;;
     icloud_events <- icloud_get_events start_date end_date ;;
     google_formatted <-
       lift (map_result format_event_for_sync google_events) ;;
     let icloud_formatted := omap id icloud_events in
     let result :=
       {| events_processed := len google_formatted + len icloud_formatted;
          events_created := events_created result;
          events_updated := events_updated result;
          events_deleted := events_deleted result;
          events_skipped := events_skipped result |} in
     let add (sync_stats : Stats) :=
       {| events_processed := events_processed result;
          events_created := events_created result + created sync_stats;
          events_updated := events_updated result + updated sync_stats;
          events_deleted := events_deleted result;
          events_skipped := events_skipped result + skipped sync_stats |} in
     if str_eqb (sync_direction config) (lit "both") then
       sync_bidirectional google_formatted icloud_formatted dry_run
     else if str_eqb (sync_direction config) (lit "google_to_icloud") then
       (sync_stats <- sync_events google_formatted icloud_formatted
                        google_to_icloud dry_run false ;;
        ret (add sync_stats))
     else if str_eqb (sync_direction config) (lit "icloud_to_google") then
       (sync_stats <- sync_events icloud_formatted google_formatted
                        icloud_to_google dry_run false ;;
        ret (add sync_stats))
     else ret result)%M
    (fun e => lift (Raise (SyncFailed e))).

(** *** The loop body by branch *)

(** The branch [sync_event] takes. *)
Definition classify
    (target_lookup : gmap string Event) (target_events : list Event)
    (avoid_conflicts : bool) (source_event : Event) : Decision :=
  match target_lookup !! calculate_event_hash source_event with
  | Some target_event =>
      if needs_update source_event target_event
      then ExactUpdate target_event else ExactSkip
  | None =>
      match find_rescheduled_event source_event target_events with
      | Some rescheduled_event =>
          if avoid_conflicts then RescheduleSkip
          else RescheduleUpdate rescheduled_event
      | None =>
          match find_similar_event source_event target_events with
          | Some _ => SimilarSkip
          | None => CreateNew
          end
      end
  end.

(** The counter a branch increments. *)
Definition count (d : Decision) (stats : Stats) : Stats :=
  match d with
  | ExactUpdate _ | RescheduleUpdate _ => add_updated stats
  | ExactSkip | RescheduleSkip | SimilarSkip => add_skipped stats
  | CreateNew => add_created stats
  end.

(** The calls and the lines of a branch. *)
Definition perform
    (direction : Direction) (dry_run : bool) (source_event : Event)
    (d : Decision) : M unit :=
  match d with
  | ExactUpdate target_event =>
      (when_ (negb dry_run)
         (update_event_in_target source_event target_event direction) ;;;
       print (PrintUpdating dry_run source_event direction))%M
  | ExactSkip => print (PrintSkippingUpToDate dry_run source_event)
  | RescheduleSkip => print (PrintSkippingReschedule dry_run source_event)
  | RescheduleUpdate rescheduled_event =>
      (when_ (negb dry_run)
         (update_event_in_target source_event rescheduled_event
            direction) ;;;
       print (PrintRescheduling dry_run source_event rescheduled_event
                direction))%M
  | SimilarSkip => print (PrintSkippingSimilar dry_run source_event)
  | CreateNew =>
      (when_ (negb dry_run)
         (create_event_in_target source_event direction) ;;;
       print (PrintCreating dry_run source_event direction))%M
  end.

(** The counters of a pass, from the branches alone. *)
Definition tally
    (source_events target_events : list Event) (avoid_conflicts : bool)
    : Stats :=
  fold_left
    (fun stats source_event =>
       count (classify (build_target_lookup target_events) target_events
                avoid_conflicts source_event) stats)
    source_events {| created := 0; updated := 0; skipped := 0 |}.

(** The world a pass leaves, from the branches alone: the calls and the
    lines of the branch of each source event, in the order of the
    list. *)
Definition pass_world
    (source_events target_events : list Event) (direction : Direction)
    (dry_run avoid_conflicts : bool) (w : World) : World :=
  fold_left
    (fun w source_event =>
       snd (perform direction dry_run source_event
              (classify (build_target_lookup target_events) target_events
                 avoid_conflicts source_event) w))
    source_events w.

(** *** The time predicates in the words of the specification *)

Definition in_range (u : Z) : option Z :=
  if (0 <=? u) && (u <=? MAX_WALL) then Some u else None.

(** The point of the UTC time line a value denotes, a naive value being
    read in the configured zone; [None] when it cannot be converted. *)
Definition instant_of (t : datetime) : option Z :=
  match tzinfo t with
  | Some off => in_range (wall t - off)
  | None =>
      match pytz_timezone (timezone config) with
      | Some tz =>
          match tz t with
          | Some off => in_range (wall t - off)
          | None => None
          end
      | None => None
      end
  end.

(** Two values after normalizing timezone-awareness: both with offsets,
    in a common zone; both naive, directly; mixed, the naive one in the
    configured zone.  In microseconds, [None] on a conversion failure. *)
Definition common_line (x y : datetime) : option (Z * Z) :=
  match tzinfo x, tzinfo y with
  | None, None => Some (wall x, wall y)
  | _, _ =>
      match instant_of x, instant_of y with
      | Some u, Some v => Some (u, v)
      | _, _ => None
      end
  end.

(** The whole seconds between two values on their common line. *)
Definition match_gap (x y : datetime) : option Z :=
  match common_line x y with
  | Some (u, v) => Some (Z.abs (u / US - v / US))
  | None => None
  end.

(** The microseconds between the instants of two values. *)
Definition instant_gap (x y : datetime) : option Z :=
  match instant_of x, instant_of y with
  | Some u, Some v => Some (Z.abs (u - v))
  | _, _ => None
  end.

(** A value as the [except] branch of [_times_match] reads it when
    [other] is the other value: a naive value that faces an aware one is
    read in the configured zone, when the zone exists and localizes
    it. *)
Definition as_compared (t other : datetime) : datetime :=
  match tzinfo t, tzinfo other with
  | None, Some _ =>
      match pytz_timezone (timezone config) with
      | Some tz =>
          match tz t with
          | Some off => replace_tzinfo t (Some off)
          | None => t
          end
      | None => t
      end
  | _, _ => t
  end.

(** The time-match predicate as specified: false on a null input and on
    a conversion failure. *)
Definition spec_times_match (a b : option datetime) : bool :=
  match a, b with
  | Some x, Some y =>
      match match_gap x y with
      | Some g => g <=? 60
      | None => false
      end
  | _, _ => false
  end.

End CalendarSyncEngine.

(** The source event of the line a branch prints. *)
Definition line_event (l : Line) : option Event :=
  match l with
  | PrintUpdating _ ev _ | PrintSkippingUpToDate _ ev
  | PrintSkippingReschedule _ ev | PrintRescheduling _ ev _ _
  | PrintSkippingSimilar _ ev | PrintCreating _ ev _ => Some ev
  | _ => None
  end.

End Engine.

Import Engine.

(** The world after [print(l)]. *)
Definition say (l : Line) (w : World) : World :=
  {| calls := calls w; output := output w ++ [l] |}.

(** The world after a backend call made inside [try]: the call is made,
    and when it raises the handler prints its line. *)
Definition attempt (backend : list Call -> Call -> option str)
    (c : Call) (on_error : exn -> Line) (w : World) : World :=
  {| calls := calls w ++ [c];
     output :=
       output w
       ++ match backend (calls w) c with
          | Some msg => [on_error (BackendError msg)]
          | None => []
          end |}.

(** [w'] extends [w] by lines that are not those of a branch. *)
Definition side_effect (w w' : World) : Prop :=
  exists cs ls,
    calls w' = calls w ++ cs /\ output w' = output w ++ ls
    /\ omap line_event ls = [].

(** What a branch leaves behind: it returns, its last line is the line of
    the source event, and under [dry_run] it makes no call. *)
Definition branch_step (dry_run : bool) (ev : Event) (w w' : World) : Prop :=
  omap line_event (output w') = omap line_event (output w) ++ [ev]
  /\ (exists cs, calls w' = calls w ++ cs)
  /\ (dry_run = true -> calls w' = calls w).

(** What a pass leaves behind. *)
Definition pass_step (dry_run : bool) (evs : list Event) (w w' : World)
    : Prop :=
  omap line_event (output w') = omap line_event (output w) ++ evs
  /\ (exists cs, calls w' = calls w ++ cs)
  /\ (dry_run = true -> calls w' = calls w).

(** The last character of a text. *)
Fixpoint last_char (s : str) : option ascii :=
  match s with
  | [] => None
  | [c] => Some c
  | _ :: s' => last_char s'
  end.

Definition ends_with (z : ascii) (s : str) : Prop := last_char s = Some z.

Definition starts_with (z : ascii) (s : str) : Prop :=
  match s with
  | c :: _ => c = z
  | [] => False
  end.

(** A text that is empty or starts with white space: a word cannot go
    on into it. *)
Definition boundary (s : str) : Prop :=
  match s with
  | [] => True
  | c :: _ => isspace c = true
  end.


(** The four replacements of [_normalize_text], in its order. *)
Definition unescape (s : str) : str :=
  replace (lit "\\") [backslash]
    (replace (lit "\n") [chr 10]
       (replace (lit "\;") (lit ";")
          (replace (lit "\,") (lit ",") s))).

(** A text that does not start with a character that would complete an
    escape sequence after a backslash. *)
Definition plain_start (q : str) : Prop :=
  match q with
  | [] => True
  | c :: _ => ~ In c [","%char; ";"%char; "n"%char; backslash]
  end.

(** Two texts that differ in one escape sequence, written in the first
    and replaced by the character it stands for in the second.  The
    sequence does not follow a backslash, and the backslash that stands
    for [\\] is not followed by a character that completes another
    sequence. *)
Inductive one_escape : str -> str -> Prop :=
| escape_comma (p q : str) :
    ~ ends_with backslash p ->
    one_escape (p ++ lit "\," ++ q) (p ++ lit "," ++ q)
| escape_semicolon (p q : str) :
    ~ ends_with backslash p ->
    one_escape (p ++ lit "\;" ++ q) (p ++ lit ";" ++ q)
| escape_newline (p q : str) :
    ~ ends_with backslash p ->
    one_escape (p ++ lit "\n" ++ q) (p ++ [chr 10] ++ q)
| escape_backslash (p q : str) :
    ~ ends_with backslash p -> plain_start q ->
    one_escape (p ++ lit "\\" ++ q) (p ++ [backslash] ++ q).

(** Two texts that differ only in white space runs and in escape
    sequences. *)
Inductive same_text : str -> str -> Prop :=
| same_words (s s' : str) : split s = split s' -> same_text s s'
| same_escape (s s' : str) : one_escape s s' -> same_text s s'
| same_sym (s s' : str) : same_text s s' -> same_text s' s
| same_trans (s s' s'' : str) :
    same_text s s' -> same_text s' s'' -> same_text s s''.

Definition set_location (e : Event) (loc : str) : Event :=
  {| id_ := id_ e; summary := summary e; description := description e;
     location := loc; start := start e; end_ := end_ e;
     all_day := all_day e; source := source e |}.

Definition set_summary (e : Event) (s : str) : Event :=
  {| id_ := id_ e; summary := s; description := description e;
     location := location e; start := start e; end_ := end_ e;
     all_day := all_day e; source := source e |}.

(** [t] is a copy of [s]: the same fields, the identifier and the
    provenance apart. *)
Definition copy_of (s t : Event) : Prop :=
  summary s = summary t /\ description s = description t
  /\ location s = location t /\ start s = start t /\ end_ s = end_ t
  /\ all_day s = all_day t.

(** Two events the engine compares equal: the same normalized title and
    description, the same start and the same end. *)
Definition same_content (t1 t2 : Event) : Prop :=
  normalize_text (summary t1) = normalize_text (summary t2)
  /\ normalize_text (description t1) = normalize_text (description t2)
  /\ start t1 = start t2 /\ end_ t1 = end_ t2.

(** Two results that return the same value or both raise. *)
Definition agree {A} (r1 r2 : result A) : Prop :=
  match r1, r2 with
  | Ok a, Ok b => a = b
  | Raise _, Raise _ => True
  | _, _ => False
  end.

(* ================================================================== *)
(** ** Sample data *)
(* ================================================================== *)

(** A table with one zone, at a fixed five hours west of UTC. *)
Definition sample_pytz : str -> option zone :=
  fun name =>
    if str_eqb name (lit "America/New_York")
    then Some (fun _ => Some (-18000 * US)) else None.

Definition sample_config : Config :=
  {| sync_direction := lit "both";
     source_of_truth := lit "auto";
     timezone := lit "America/New_York" |}.

(** A backend whose calls all succeed, and one whose calls all raise. *)
Definition reliable_backend : list Call -> Call -> option str :=
  fun _ _ => None.

Definition failing_backend : list Call -> Call -> option str :=
  fun _ _ => Some (lit "HttpError").

(** 2024-01-01 at [h:m:s.us], UTC. *)
Definition utc_time (h m s us : Z) : datetime :=
  Datetime 2024 1 1 h m s us (Some 0).

Definition t_0900 : datetime := utc_time 9 0 0 0.
Definition t_0901 : datetime := utc_time 9 1 0 0.
Definition t_0930 : datetime := utc_time 9 30 0 0.

(** 0001-01-01 00:00:00+01:00 *)
Definition t_min_east : datetime :=
  Datetime 1 1 1 0 0 0 0 (Some (3600 * US)).

(** 9999-12-31 23:00:00, naive and at five hours west of UTC: the last
    hour of the calendar, past its end in UTC. *)
Definition t_last_hour : datetime := Datetime 9999 12 31 23 0 0 0 None.
Definition t_last_hour_west : datetime :=
  Datetime 9999 12 31 23 0 0 0 (Some (-18000 * US)).

Definition empty_world : World := {| calls := []; output := [] |}.

Definition standup (desc : string) (st en : option datetime) : Event :=
  {| id_ := Some (lit "evt-1"); summary := lit "Standup";
     description := lit desc; location := [];
     start := st; end_ := en; all_day := false; source := google |}.

(** An event whose times could not be parsed. *)
Definition standup_no_times : Event := standup "" None None.

(** Two events with the same title and times and different
    descriptions. *)
Definition standup_a : Event := standup "room A" (Some t_0900) (Some t_0930).
Definition standup_b : Event := standup "room B" (Some t_0900) (Some t_0930).

(** An event without a title. *)
Definition untitled (st en : option datetime) : Event :=
  {| id_ := Some (lit "evt-2"); summary := []; description := [];
     location := []; start := st; end_ := en; all_day := false;
     source := google |}.

(** 09:01:00.5, 09:02:00 and 09:05:01: 60.5, 120 and 301 seconds after
    [t_0900]. *)
Definition t_0901_half : datetime := utc_time 9 1 0 500000.
Definition t_0902 : datetime := utc_time 9 2 0 0.

(** 10:00 and 10:30 of the same day, UTC. *)
Definition t_1000 : datetime := utc_time 10 0 0 0.
Definition t_1030 : datetime := utc_time 10 30 0 0.

(** 04:00 and 04:30 at five hours west of UTC: the instants of [t_0900]
    and [t_0930]. *)
Definition t_0400_west : datetime :=
  Datetime 2024 1 1 4 0 0 0 (Some (-18000 * US)).
Definition t_0430_west : datetime :=
  Datetime 2024 1 1 4 30 0 0 (Some (-18000 * US)).

(** The stand-up at 09:00 and the same one hour later. *)
Definition standup_early : Event := standup "" (Some t_0900) (Some t_0930).
Definition standup_later : Event := standup "" (Some t_1000) (Some t_1030).

(** A target that carries no identifier. *)
Definition standup_unsaved : Event :=
  {| id_ := None; summary := lit "Standup"; description := lit "room B";
     location := []; start := Some t_0900; end_ := Some t_0930;
     all_day := false; source := google |}.

(** A client whose [get_events] returns a fixed list and does nothing
    else, and one whose [get_events] raises. *)
Definition fetched {A} (l : list A) : datetime -> datetime -> M (list A) :=
  fun _ _ => ret l.

Definition fetch_fails {A} (msg : str)
    : datetime -> datetime -> M (list A) :=
  fun _ _ => lift (Raise (BackendError msg)).

(** A configuration for one direction, and one with a direction that
    [validate_config] refuses. *)
Definition one_way_config : Config :=
  {| sync_direction := lit "google_to_icloud";
     source_of_truth := lit "auto";
     timezone := lit "America/New_York" |}.

Definition misspelt_config : Config :=
  {| sync_direction := lit "Both";
     source_of_truth := lit "auto";
     timezone := lit "America/New_York" |}.

(* ================================================================== *)
(** ** [Config.validate_config] and the calls of a pass *)
(* ================================================================== *)

(** [not x] for a value of [os.getenv]: unset or empty. *)
Definition unset (x : option str) : bool :=
  match x with
  | Some s => is_empty s
  | None => true
  end.

(** [x in l] on texts. *)
Definition member (x : str) (l : list str) : bool :=
  existsb (str_eqb x) l.

(** [validate_config] of [src/config.py], on the two credentials it
    reads and the configuration of the engine. *)
Definition validate_config
    (icloud_username icloud_password : option str) (config : Config)
    : result unit :=
  if unset icloud_username then Raise ValueError
  else if unset icloud_password then Raise ValueError
  else if negb (member (sync_direction config)
                  [lit "both"; lit "google_to_icloud";
                   lit "icloud_to_google"])
  then Raise ValueError
  else Ok tt.

Definition is_create (d : Decision) : bool :=
  match d with
  | CreateNew => true
  | _ => false
  end.

(** The calls of the Google client. *)
Definition is_google_call (c : Call) : bool :=
  match c with
  | google_create_event _ | google_update_event _ _ => true
  | icloud_create_event _ => false
  end.

(** A field that holds [None] or a datetime that the constructor of
    [datetime] accepts. *)
Definition valid_time (x : option datetime) : bool :=
  match x with
  | Some t => valid t
  | None => true
  end.

(** A word: one character or more, none of them white space. *)
Definition word (w : str) : Prop :=
  w <> [] /\ Forall (fun c => isspace c = false) w.

(* ================================================================== *)
(** ** Properties *)
(* ================================================================== *)

Lemma str_eqb_true (a b : str) : str_eqb a b = true <-> a = b.
Proof.
  unfold str_eqb. destruct (list_eq_dec ascii_dec a b); split; congruence.
Qed.

Lemma str_eqb_refl (a : str) : str_eqb a a = true.
Proof. apply str_eqb_true. reflexivity. Qed.

Lemma str_eqb_sym (a b : str) : str_eqb a b = str_eqb b a.
Proof.
  unfold str_eqb.
  destruct (list_eq_dec ascii_dec a b), (list_eq_dec ascii_dec b a);
    congruence.
Qed.

Lemma str_eqb_false (a b : str) : str_eqb a b = false <-> a <> b.
Proof.
  unfold str_eqb. destruct (list_eq_dec ascii_dec a b); split; congruence.
Qed.

(* ================================================================== *)
(** ** The time predicates *)
(* ================================================================== *)

Section TimeFacts.

Variable pytz_timezone : str -> option zone.
Variable config : Config.

Local Abbreviation times_match := (Engine.times_match pytz_timezone config).
Local Abbreviation times_match_try :=
  (Engine.times_match_try pytz_timezone config).
Local Abbreviation as_compared := (Engine.as_compared pytz_timezone config).
Local Abbreviation instant_of := (Engine.instant_of pytz_timezone config).
Local Abbreviation common_line := (Engine.common_line pytz_timezone config).
Local Abbreviation match_gap := (Engine.match_gap pytz_timezone config).
Local Abbreviation instant_gap := (Engine.instant_gap pytz_timezone config).
Local Abbreviation normalize_time_utc :=
  (Engine.normalize_time_utc pytz_timezone config).

Lemma abs_sub_swap (a b : Z) : Z.abs (a - b) = Z.abs (b - a).
Proof. lia. Qed.

(** Exchanging the arguments of the [try] block exchanges the values it
    leaves, and its outcome is the same difference, or an exception on
    both sides. *)
Lemma times_match_try_sym (x y : datetime) :
  match times_match_try x y, times_match_try y x with
  | (x1, y1, r), (y2, x2, r') => x1 = x2 /\ y1 = y2 /\ agree r r'
  end.
Proof.
  unfold Engine.times_match_try.
  destruct (tzinfo x) eqn:Hx, (tzinfo y) eqn:Hy; cbn [is_none].
  - destruct (astimezone_utc x), (astimezone_utc y); cbn [rbind agree];
      auto using abs_sub_swap.
  - destruct (local_tz pytz_timezone config); cbn [agree]; auto.
    destruct (localize a y); cbn [agree]; auto.
    destruct (astimezone_utc x), (astimezone_utc a0); cbn [rbind agree];
      auto using abs_sub_swap.
  - destruct (local_tz pytz_timezone config); cbn [agree]; auto.
    destruct (localize a x); cbn [agree]; auto.
    destruct (astimezone_utc y), (astimezone_utc a0); cbn [rbind agree];
      auto using abs_sub_swap.
  - cbn [agree]. auto using abs_sub_swap.
Qed.

Lemma times_match_comm (a b : option datetime) :
  times_match a b = times_match b a.
Proof.
  destruct a as [x|], b as [y|]; simpl; auto.
  pose proof (times_match_try_sym x y) as H.
  destruct (times_match_try x y) as [[x1 y1] r].
  destruct (times_match_try y x) as [[y2 x2] r'].
  destruct H as (-> & -> & H). unfold agree in H.
  destruct r, r'; try contradiction.
  - now subst.
  - apply str_eqb_sym.
Qed.

Lemma trunc_instant (u : Z) :
  instant_replace_microsecond_0 u = US * (u / US).
Proof.
  unfold instant_replace_microsecond_0.
  pose proof (Z.div_mod u US) as H. unfold US in *. lia.
Qed.

Lemma leb_scaled (x y : Z) :
  (Z.abs (US * x - US * y) <=? 60 * US) = (Z.abs (x - y) <=? 60).
Proof.
  unfold US.
  destruct (Z.leb_spec (Z.abs (x - y)) 60);
    [apply Z.leb_le | apply Z.leb_gt]; lia.
Qed.

Lemma valid_microsecond (t : datetime) :
  valid t = true -> 0 <= microsecond t < US.
Proof.
  unfold valid. rewrite !andb_true_iff, !Z.leb_le, !Z.ltb_lt. lia.
Qed.

Lemma wall_replace_microsecond_0 (t : datetime) :
  valid t = true -> wall (replace_microsecond_0 t) = US * (wall t / US).
Proof.
  intros Hv. apply valid_microsecond in Hv.
  unfold wall, replace_microsecond_0, toordinal. cbn [year month day hour
    minute second microsecond].
  set (k := ((ymd2ord (year t) (month t) (day t) - 1) * 24 + hour t) * 60
            + minute t).
  replace (k * 60 * US + second t * US + microsecond t)
    with ((k * 60 + second t) * US + microsecond t) by ring.
  rewrite Z.div_add_l by (unfold US; lia).
  rewrite Z.div_small by lia. ring.
Qed.

Lemma astimezone_utc_in_range (t : datetime) (off : Z) :
  tzinfo t = Some off ->
  astimezone_utc t =
    match in_range (wall t - off) with
    | Some u => Ok u
    | None => Raise OverflowError
    end.
Proof.
  intros H. unfold astimezone_utc, in_range. rewrite H.
  now destruct ((0 <=? wall t - off) && (wall t - off <=? MAX_WALL)).
Qed.

Lemma wall_replace_tzinfo (t : datetime) (tz : option Z) :
  wall (replace_tzinfo t tz) = wall t.
Proof. reflexivity. Qed.

(** [normalize_time_utc] computes [instant_of]. *)
Lemma normalize_time_utc_instant (t : datetime) :
  match instant_of t with
  | Some u => normalize_time_utc t = Ok u
  | None => exists e, normalize_time_utc t = Raise e
  end.
Proof.
  unfold Engine.normalize_time_utc, Engine.instant_of, local_tz, localize.
  destruct (tzinfo t) as [off|] eqn:Ht; cbn [is_none rbind].
  - rewrite (astimezone_utc_in_range t off Ht).
    destruct (in_range (wall t - off)); eauto.
  - destruct (pytz_timezone (timezone config)) as [tz|]; cbn [rbind]; eauto.
    try rewrite Ht.
    destruct (tz t) as [off|]; cbn [rbind]; eauto.
    rewrite (astimezone_utc_in_range _ off) by reflexivity.
    rewrite wall_replace_tzinfo.
    destruct (in_range (wall t - off)); eauto.
Qed.

(** The [try] block of [_times_match] computes the whole seconds between
    the two values on their common line; when there is none it raises,
    and leaves the naive value of a mixed pair localized when that
    succeeded. *)
Lemma times_match_try_common (x y : datetime) :
  valid x = true -> valid y = true ->
  match common_line x y with
  | Some (u, v) =>
      snd (times_match_try x y) = Ok (US * Z.abs (u / US - v / US))
  | None =>
      exists e,
        times_match_try x y = (as_compared x y, as_compared y x, Raise e)
  end.
Proof.
  intros Hx Hy.
  assert (Hscale : forall u v,
             Z.abs (instant_replace_microsecond_0 u
                    - instant_replace_microsecond_0 v)
             = US * Z.abs (u / US - v / US)).
  { intros u v. rewrite !trunc_instant. unfold US. lia. }
  unfold Engine.times_match_try, Engine.common_line, Engine.instant_of,
    Engine.as_compared, local_tz, localize.
  destruct (tzinfo x) as [ox|] eqn:Tx, (tzinfo y) as [oy|] eqn:Ty;
    cbn [is_none rbind].
  - rewrite (astimezone_utc_in_range x ox Tx),
      (astimezone_utc_in_range y oy Ty).
    destruct (in_range (wall x - ox)), (in_range (wall y - oy));
      cbn [rbind snd]; eauto.
    now rewrite Hscale.
  - destruct (pytz_timezone (timezone config)) as [tz|].
    2:{ destruct (in_range (wall x - ox)); eauto. }
    try rewrite Ty.
    destruct (tz y) as [oy|].
    2:{ destruct (in_range (wall x - ox)); eauto. }
    rewrite (astimezone_utc_in_range x ox Tx).
    rewrite (astimezone_utc_in_range _ oy) by reflexivity.
    rewrite wall_replace_tzinfo.
    destruct (in_range (wall x - ox)), (in_range (wall y - oy));
      cbn [rbind snd]; eauto.
    now rewrite Hscale.
  - destruct (pytz_timezone (timezone config)) as [tz|]; eauto.
    try rewrite Tx.
    destruct (tz x) as [ox|]; eauto.
    rewrite (astimezone_utc_in_range y oy Ty).
    rewrite (astimezone_utc_in_range _ ox) by reflexivity.
    rewrite wall_replace_tzinfo.
    destruct (in_range (wall x - ox)), (in_range (wall y - oy));
      cbn [rbind snd]; eauto.
    now rewrite Hscale.
  - cbn [snd]. rewrite !wall_replace_microsecond_0 by assumption.
    f_equal. unfold US. lia.
Qed.

(** [_times_match] on two datetimes: at most 60 whole seconds apart on the
    common line; when there is none, the comparison of the two [str], the
    naive value of a mixed pair being the localized one when it could be
    localized. *)
Lemma times_match_char (x y : datetime) :
  valid x = true -> valid y = true ->
  times_match (Some x) (Some y) =
    match match_gap x y with
    | Some g => g <=? 60
    | None =>
        str_eqb (str_datetime (as_compared x y))
          (str_datetime (as_compared y x))
    end.
Proof.
  intros Hx Hy. pose proof (times_match_try_common x y Hx Hy) as H.
  unfold Engine.times_match, Engine.match_gap.
  destruct (common_line x y) as [[u v]|].
  - destruct (times_match_try x y) as [[x1 y1] r]. cbn [snd] in H.
    rewrite H.
    replace (US * Z.abs (u / US - v / US))
      with (Z.abs (US * (u / US) - US * (v / US))) by (unfold US; lia).
    apply leb_scaled.
  - destruct H as [e ->]. reflexivity.
Qed.

(** C9: the time-match predicate is symmetric, for all inputs: null
    inputs, naive and aware values mixed, and values whose normalization
    fails. *)
Theorem times_match_symmetric (a b : option datetime) :
  times_match a b = times_match b a.
Proof. apply times_match_comm. Qed.

(** C1, as the code has it: [_times_match] is false when an input is
    null; on two datetimes it is true exactly when, after normalizing
    timezone-awareness and truncating to whole seconds, they are at most
    60 seconds apart; when the normalization fails it does not raise and
    returns whether the two values print the same, where the naive value
    of a mixed pair is printed with the offset of the configured zone
    when it could be localized. *)
Theorem times_match_amended (a b : option datetime) :
  (a = None \/ b = None -> times_match a b = false)
  /\ (forall x y, a = Some x -> b = Some y ->
       valid x = true -> valid y = true ->
       times_match a b =
         match match_gap x y with
         | Some g => g <=? 60
         | None =>
             str_eqb (str_datetime (as_compared x y))
               (str_datetime (as_compared y x))
         end).
Proof.
  split.
  - intros [-> | ->]; [reflexivity | now destruct a].
  - intros x y -> -> Hx Hy. now apply times_match_char.
Qed.

End TimeFacts.

Lemma times_match_amended_witness :
  times_match sample_pytz sample_config (Some t_0900) (Some t_0901) = true.
Proof.
  rewrite (proj2 (times_match_amended sample_pytz sample_config
                    (Some t_0900) (Some t_0901))
             t_0900 t_0901 eq_refl eq_refl eq_refl eq_refl).
  reflexivity.
Defined.

(** C1 fails on a conversion failure: the same aware value twice, at the
    first instant of the calendar and one hour east of UTC, cannot be
    converted to UTC, the specified predicate is false, and
    [_times_match] answers true. *)
Lemma times_match_conversion_failure :
  astimezone_utc t_min_east = Raise OverflowError
  /\ spec_times_match sample_pytz sample_config
       (Some t_min_east) (Some t_min_east) = false
  /\ times_match sample_pytz sample_config
       (Some t_min_east) (Some t_min_east) = true.
Proof. repeat split; vm_compute; reflexivity. Qed.

(** The same failure on a mixed pair: the last hour of the calendar,
    naive, and the same wall clock at five hours west of UTC.  The naive
    value is localized to the same offset before the conversion to UTC
    overflows, so that the two print the same and [_times_match] answers
    true, in both orders. *)
Example times_match_mixed_overflow :
  match_gap sample_pytz sample_config t_last_hour t_last_hour_west = None
  /\ as_compared sample_pytz sample_config t_last_hour t_last_hour_west
     = t_last_hour_west
  /\ times_match sample_pytz sample_config
       (Some t_last_hour) (Some t_last_hour_west) = true
  /\ times_match sample_pytz sample_config
       (Some t_last_hour_west) (Some t_last_hour) = true.
Proof. repeat split; vm_compute; reflexivity. Qed.

(* ================================================================== *)
(** ** The pass: counters, lines and calls *)
(* ================================================================== *)

Section PassFacts.

Variable pytz_timezone : str -> option zone.
Variable config : Config.
Variable backend : list Call -> Call -> option str.

Local Abbreviation create_event_in_target :=
  (Engine.create_event_in_target pytz_timezone config backend).
Local Abbreviation update_event_in_target :=
  (Engine.update_event_in_target pytz_timezone config backend).
Local Abbreviation perform := (Engine.perform pytz_timezone config backend).
Local Abbreviation classify := (Engine.classify pytz_timezone config).
Local Abbreviation sync_event :=
  (Engine.sync_event pytz_timezone config backend).
Local Abbreviation sync_events :=
  (Engine.sync_events pytz_timezone config backend).
Local Abbreviation tally := (Engine.tally pytz_timezone config).

Lemma create_event_in_target_google_to_icloud (ev : Event) (w : World) :
  create_event_in_target ev google_to_icloud w =
    (Ok tt,
     attempt backend (icloud_create_event (convert_to_icloud_format ev))
       (PrintErrorCreating ev) w).
Proof.
  unfold Engine.create_event_in_target, try_except, call_backend, attempt,
    print.
  destruct (backend (calls w) _); cbn; now rewrite ?app_nil_r.
Qed.

Lemma create_event_in_target_icloud_to_google (ev : Event) (w : World) :
  create_event_in_target ev icloud_to_google w =
    (Ok tt,
     match convert_to_google_format pytz_timezone config ev with
     | Ok data =>
         attempt backend (google_create_event data) (PrintErrorCreating ev) w
     | Raise e => say (PrintErrorCreating ev e) w
     end).
Proof.
  unfold Engine.create_event_in_target, try_except, call_backend, attempt,
    print, bind, lift, say.
  destruct (convert_to_google_format pytz_timezone config ev); cbn; auto.
  destruct (backend (calls w) _); cbn; now rewrite ?app_nil_r.
Qed.

Lemma update_event_in_target_google_to_icloud (ev target : Event) (w : World) :
  update_event_in_target ev target google_to_icloud w =
    (Ok tt, say (PrintICloudUpdateNotImplemented ev) w).
Proof. reflexivity. Qed.

Lemma update_event_in_target_icloud_to_google (ev target : Event) (w : World) :
  update_event_in_target ev target icloud_to_google w =
    (Ok tt,
     match convert_to_google_format pytz_timezone config ev with
     | Ok data =>
         match id_ target with
         | Some event_id =>
             if is_empty event_id then w
             else attempt backend (google_update_event event_id data)
                    (PrintErrorUpdating ev) w
         | None => w
         end
     | Raise e => say (PrintErrorUpdating ev e) w
     end).
Proof.
  unfold Engine.update_event_in_target, try_except, call_backend, attempt,
    print, bind, lift, say, ret.
  destruct (convert_to_google_format pytz_timezone config ev); cbn; auto.
  destruct (id_ target) as [i|]; auto.
  destruct (is_empty i); auto.
  destruct (backend (calls w) _); cbn; now rewrite ?app_nil_r.
Qed.

Lemma side_effect_refl (w : World) : side_effect w w.
Proof. exists [], []. now rewrite !app_nil_r. Qed.

Lemma side_effect_attempt (c : Call) (f : exn -> Line) (w : World) :
  (forall e, line_event (f e) = None) ->
  side_effect w (attempt backend c f w).
Proof.
  intros Hf. unfold attempt.
  eexists _, _. cbn. repeat split.
  destruct (backend (calls w) c); cbn; auto. now rewrite Hf.
Qed.

Lemma side_effect_say (l : Line) (w : World) :
  line_event l = None -> side_effect w (say l w).
Proof.
  intros Hl. exists [], [l]. cbn. rewrite app_nil_r, Hl. auto.
Qed.

Lemma create_event_in_target_ok (ev : Event) (d : Direction) (w : World) :
  exists w', create_event_in_target ev d w = (Ok tt, w') /\ side_effect w w'.
Proof.
  destruct d.
  - rewrite create_event_in_target_google_to_icloud. eexists; split; eauto.
    now apply side_effect_attempt.
  - rewrite create_event_in_target_icloud_to_google. eexists; split; eauto.
    destruct (convert_to_google_format _ _ _).
    + now apply side_effect_attempt.
    + now apply side_effect_say.
Qed.

Lemma update_event_in_target_ok (ev target : Event) (d : Direction) (w : World) :
  exists w',
    update_event_in_target ev target d w = (Ok tt, w') /\ side_effect w w'.
Proof.
  destruct d.
  - rewrite update_event_in_target_google_to_icloud. eexists; split; eauto.
    now apply side_effect_say.
  - rewrite update_event_in_target_icloud_to_google. eexists; split; eauto.
    destruct (convert_to_google_format _ _ _).
    + destruct (id_ target) as [i|]; try apply side_effect_refl.
      destruct (is_empty i); try apply side_effect_refl.
      now apply side_effect_attempt.
    + now apply side_effect_say.
Qed.

Lemma branch_step_mutation (dry_run : bool) (ev : Event) (m : M unit)
    (l : Line) (w : World) :
  (forall w0, exists w1, m w0 = (Ok tt, w1) /\ side_effect w0 w1) ->
  line_event l = Some ev ->
  exists w',
    (when_ (negb dry_run) m ;;; print l)%M w = (Ok tt, w')
    /\ branch_step dry_run ev w w'.
Proof.
  intros Hm Hl. unfold bind, when_, print, ret, branch_step.
  destruct dry_run; cbn.
  - eexists; split; eauto. cbn. rewrite omap_app. cbn. rewrite Hl.
    repeat split; auto. exists []. now rewrite app_nil_r.
  - destruct (Hm w) as (w1 & -> & cs & ls & Hc & Ho & Hq).
    eexists; split; eauto. cbn.
    rewrite Ho, !omap_app, Hq, app_nil_r. cbn. rewrite Hl.
    repeat split; eauto. discriminate.
Qed.

Lemma branch_step_print (dry_run : bool) (ev : Event) (l : Line) (w : World) :
  line_event l = Some ev ->
  exists w', print l w = (Ok tt, w') /\ branch_step dry_run ev w w'.
Proof.
  intros Hl. unfold print, branch_step. eexists; split; eauto. cbn.
  rewrite omap_app. cbn. rewrite Hl. repeat split; auto.
  exists []. now rewrite app_nil_r.
Qed.

Lemma perform_ok (direction : Direction) (dry_run : bool) (ev : Event)
    (d : Decision) (w : World) :
  exists w',
    perform direction dry_run ev d w = (Ok tt, w')
    /\ branch_step dry_run ev w w'.
Proof.
  destruct d; cbn [Engine.perform];
    try (now apply branch_step_print);
    apply branch_step_mutation; auto;
    intros w0;
    (apply update_event_in_target_ok || apply create_event_in_target_ok).
Qed.

(** The body of the loop is the branch chosen by [classify], performed and
    counted. *)
Lemma sync_event_classify
    (target_lookup : gmap string Event) (target_events : list Event)
    (direction : Direction) (dry_run avoid_conflicts : bool)
    (stats : Stats) (ev : Event) (w : World) :
  sync_event target_lookup target_events direction dry_run avoid_conflicts
    stats ev w
  = (let d := classify target_lookup target_events avoid_conflicts ev in
     perform direction dry_run ev d ;;; ret (count d stats))%M w.
Proof.
  unfold Engine.sync_event, Engine.classify. cbn zeta.
  destruct (target_lookup !! _) as [t|].
  - destruct (needs_update _ _ _ _); cbn [Engine.perform count]; unfold bind.
    + now destruct (when_ _ _ w) as [[] ?]; [destruct (print _ _) as [[] ?]|].
    + now destruct (print _ w) as [[] ?].
  - destruct (find_rescheduled_event _ _ _ _) as [r|].
    + destruct avoid_conflicts; cbn [Engine.perform count]; unfold bind.
      * now destruct (print _ w) as [[] ?].
      * now destruct (when_ _ _ w) as [[] ?];
          [destruct (print _ _) as [[] ?]|].
    + destruct (find_similar_event _ _ _ _); cbn [Engine.perform count];
        unfold bind.
      * now destruct (print _ w) as [[] ?].
      * now destruct (when_ _ _ w) as [[] ?];
          [destruct (print _ _) as [[] ?]|].
Qed.

Lemma sync_event_ok
    (target_lookup : gmap string Event) (target_events : list Event)
    (direction : Direction) (dry_run avoid_conflicts : bool)
    (stats : Stats) (ev : Event) (w : World) :
  exists w',
    sync_event target_lookup target_events direction dry_run
      avoid_conflicts stats ev w
    = (Ok (count (classify target_lookup target_events avoid_conflicts ev)
             stats), w')
    /\ branch_step dry_run ev w w'.
Proof.
  rewrite sync_event_classify. cbn zeta. unfold bind.
  destruct (perform_ok direction dry_run ev
              (classify target_lookup target_events avoid_conflicts ev) w)
    as (w' & -> & Hstep).
  now exists w'.
Qed.

Lemma for_each_sync_event
    (target_lookup : gmap string Event) (target_events : list Event)
    (direction : Direction) (dry_run avoid_conflicts : bool)
    (source_events : list Event) :
  forall (stats : Stats) (w : World),
  exists w',
    for_each (sync_event target_lookup target_events direction dry_run
                avoid_conflicts) source_events stats w
    = (Ok (fold_left
             (fun stats ev =>
                count (classify target_lookup target_events avoid_conflicts ev)
                  stats)
             source_events stats), w')
    /\ pass_step dry_run source_events w w'.
Proof.
  induction source_events as [|ev evs IH]; intros stats w; cbn [for_each].
  - exists w. split; [reflexivity|]. unfold pass_step.
    rewrite !app_nil_r. repeat split; auto. exists []. now rewrite app_nil_r.
  - unfold bind.
    destruct (sync_event_ok target_lookup target_events direction dry_run
                avoid_conflicts stats ev w) as (w1 & -> & H1 & [c1 Hc1] & Hd1).
    destruct (IH (count (classify target_lookup target_events avoid_conflicts
                           ev) stats) w1) as (w2 & -> & H2 & [c2 Hc2] & Hd2).
    exists w2. split; [reflexivity|]. unfold pass_step.
    rewrite H2, H1, <- app_assoc. repeat split; auto.
    + exists (c1 ++ c2). now rewrite Hc2, Hc1, app_assoc.
    + intros Hdry. now rewrite Hd2, Hd1.
Qed.

(** A pass returns the counters of its branches, whatever the backend
    does. *)
Lemma sync_events_ok
    (source_events target_events : list Event) (direction : Direction)
    (dry_run avoid_conflicts : bool) (w : World) :
  exists w',
    sync_events source_events target_events direction dry_run
      avoid_conflicts w
    = (Ok (tally source_events target_events avoid_conflicts), w')
    /\ pass_step dry_run source_events w w'.
Proof. apply for_each_sync_event. Qed.

(** A pass is its branches: it returns the counters of the decisions on
    its source events and leaves the world their branches make, one
    after the other. *)
Lemma sync_events_branches
    (source_events target_events : list Event) (direction : Direction)
    (dry_run avoid_conflicts : bool) (w : World) :
  sync_events source_events target_events direction dry_run
    avoid_conflicts w
  = (Ok (tally source_events target_events avoid_conflicts),
     pass_world pytz_timezone config backend source_events target_events
       direction dry_run avoid_conflicts w).
Proof.
  unfold Engine.sync_events, Engine.tally, Engine.pass_world.
  generalize {| created := 0; updated := 0; skipped := 0 |} as stats.
  generalize (build_target_lookup target_events) as target_lookup.
  intros target_lookup stats. revert stats w.
  induction source_events as [|ev evs IH]; intros stats w;
    cbn [for_each fold_left]; [reflexivity|].
  unfold bind at 1. rewrite sync_event_classify. cbn zeta. unfold bind at 1.
  destruct (perform_ok direction dry_run ev
              (classify target_lookup target_events avoid_conflicts ev) w)
    as (w1 & E & _).
  rewrite E. cbn [ret snd]. apply IH.
Qed.

Lemma count_total (d : Decision) (s : Stats) :
  created (count d s) + updated (count d s) + skipped (count d s)
  = created s + updated s + skipped s + 1.
Proof. destruct d; cbn; lia. Qed.

Lemma fold_count_total {A} (f : A -> Decision) (l : list A) :
  forall s,
    let s' := fold_left (fun s x => count (f x) s) l s in
    created s' + updated s' + skipped s'
    = created s + updated s + skipped s + Z.of_nat (List.length l).
Proof.
  induction l as [|x l IH]; intros s; cbn [fold_left List.length].
  - cbn. lia.
  - cbn zeta in *. rewrite IH, count_total. lia.
Qed.

Lemma tally_total (source_events target_events : list Event)
    (avoid_conflicts : bool) :
  let s := tally source_events target_events avoid_conflicts in
  created s + updated s + skipped s = len source_events.
Proof.
  cbn zeta. unfold Engine.tally, len.
  rewrite (fold_count_total
             (classify (build_target_lookup target_events) target_events
                avoid_conflicts)).
  cbn. lia.
Qed.

End PassFacts.

Section PassClaims.

Variable pytz_timezone : str -> option zone.
Variable config : Config.
Variable backend : list Call -> Call -> option str.

Local Abbreviation sync_events :=
  (Engine.sync_events pytz_timezone config backend).
Local Abbreviation sync_event :=
  (Engine.sync_event pytz_timezone config backend).
Local Abbreviation sync_bidirectional :=
  (Engine.sync_bidirectional pytz_timezone config backend).
Local Abbreviation classify := (Engine.classify pytz_timezone config).
Local Abbreviation perform := (Engine.perform pytz_timezone config backend).
Local Abbreviation tally := (Engine.tally pytz_timezone config).
Local Abbreviation pass_world :=
  (Engine.pass_world pytz_timezone config backend).

(** C5: for every pair of source and target lists and every direction, a
    pass with [dry_run] true returns the counters of the pass with
    [dry_run] false, and makes no backend call. *)
Theorem dry_run_same_counters_no_calls
    (source_events target_events : list Event) (direction : Direction)
    (avoid_conflicts : bool) (w : World) :
  fst (sync_events source_events target_events direction true
         avoid_conflicts w)
  = fst (sync_events source_events target_events direction false
           avoid_conflicts w)
  /\ fst (sync_events source_events target_events direction true
            avoid_conflicts w)
     = Ok (tally source_events target_events avoid_conflicts)
  /\ calls (snd (sync_events source_events target_events direction true
                   avoid_conflicts w))
     = calls w.
Proof.
  destruct (sync_events_ok pytz_timezone config backend source_events
              target_events direction true avoid_conflicts w)
    as (w1 & -> & _ & _ & Hcalls).
  destruct (sync_events_ok pytz_timezone config backend source_events
              target_events direction false avoid_conflicts w)
    as (w2 & -> & _).
  cbn. auto.
Qed.


(** C6: in bidirectional mode the direction of the winning side ([auto]
    is [google]) runs first, without [avoid_conflicts], the other
    direction runs next on the world the first pass left, with
    [avoid_conflicts].  Each pass returns the counters of the decisions
    on its source events and leaves the calls and the lines of their
    branches; the statistics are the sums of the counters of the two
    passes.  [avoid_conflicts] is read by the decision only: it turns
    the update of a reschedule into a skip and changes no other branch,
    so that the second pass still creates and still applies the updates
    of exact matches. *)
Theorem bidirectional_order_and_sum
    (google_events icloud_events : list Event) (dry_run : bool) (w : World) :
  let winner :=
    if str_eqb (source_of_truth config) (lit "auto") then lit "google"
    else source_of_truth config in
  let google_wins := str_eqb winner (lit "google") in
  let w0 := if dry_run then say (PrintBidirectionalMode winner) w else w in
  let first :=
    if google_wins
    then sync_events google_events icloud_events google_to_icloud dry_run
           false
    else sync_events icloud_events google_events icloud_to_google dry_run
           false in
  let second :=
    if google_wins
    then sync_events icloud_events google_events icloud_to_google dry_run
           true
    else sync_events google_events icloud_events google_to_icloud dry_run
           true in
  let stats1 :=
    if google_wins then tally google_events icloud_events false
    else tally icloud_events google_events false in
  let stats2 :=
    if google_wins then tally icloud_events google_events true
    else tally google_events icloud_events true in
  let w1 :=
    if google_wins
    then pass_world google_events icloud_events google_to_icloud dry_run
           false w0
    else pass_world icloud_events google_events icloud_to_google dry_run
           false w0 in
  let w2 :=
    if google_wins
    then pass_world icloud_events google_events icloud_to_google dry_run
           true w1
    else pass_world google_events icloud_events google_to_icloud dry_run
           true w1 in
  first w0 = (Ok stats1, w1)
  /\ second w1 = (Ok stats2, w2)
  /\ sync_bidirectional google_events icloud_events dry_run w
     = (Ok {| events_processed := len google_events + len icloud_events;
              events_created := created stats1 + created stats2;
              events_updated := updated stats1 + updated stats2;
              events_deleted := 0;
              events_skipped := skipped stats1 + skipped stats2 |}, w2)
  /\ (forall target_lookup target_events direction stats ev w avoid_conflicts,
         sync_event target_lookup target_events direction dry_run
           avoid_conflicts stats ev w
         = (let d := classify target_lookup target_events avoid_conflicts ev in
            perform direction dry_run ev d ;;; ret (count d stats))%M w)
  /\ (forall target_lookup target_events ev,
         classify target_lookup target_events true ev
         = match classify target_lookup target_events false ev with
           | RescheduleUpdate _ => RescheduleSkip
           | d => d
           end).
Proof.
  cbn zeta.
  set (winner := if str_eqb (source_of_truth config) (lit "auto")
                 then lit "google" else source_of_truth config).
  set (w0 := if dry_run then say (PrintBidirectionalMode winner) w else w).
  assert (Hmode : when_ dry_run (print (PrintBidirectionalMode winner)) w
                  = (Ok tt, w0))
    by (subst w0; now destruct dry_run).
  split; [|split; [|split; [|split]]].
  - destruct (str_eqb winner (lit "google"));
      apply sync_events_branches.
  - destruct (str_eqb winner (lit "google"));
      apply sync_events_branches.
  - unfold Engine.sync_bidirectional. cbv zeta. fold winner.
    unfold bind at 1. rewrite Hmode.
    destruct (str_eqb winner (lit "google"));
      unfold bind, ret; now rewrite !sync_events_branches.
  - intros. apply sync_event_classify.
  - intros. unfold Engine.classify.
    destruct (target_lookup !! _).
    + now destruct (needs_update _ _ _ _).
    + destruct (find_rescheduled_event _ _ _ _); auto.
      now destruct (find_similar_event _ _ _ _).
Qed.

End PassClaims.

(* ================================================================== *)
(** ** The hash lookup *)
(* ================================================================== *)

Lemma fold_lookup_Some (targets : list Event) :
  forall (m : gmap string Event) (h : string) (t : Event),
    fold_left (fun m ev => <[calculate_event_hash ev := ev]> m) targets m
      !! h = Some t ->
    (In t targets /\ calculate_event_hash t = h) \/ m !! h = Some t.
Proof.
  induction targets as [|ev evs IH]; intros m h t H; cbn in *; auto.
  apply IH in H as [[Hin Hh] | H]; auto.
  destruct (decide (calculate_event_hash ev = h)) as [<- | Hne].
  - rewrite lookup_insert_eq in H. injection H as <-. auto.
  - rewrite lookup_insert_ne in H by assumption. auto.
Qed.

Lemma fold_lookup_keep (targets : list Event) :
  forall (m : gmap string Event) (h : string),
    is_Some (m !! h) ->
    is_Some (fold_left (fun m ev => <[calculate_event_hash ev := ev]> m)
               targets m !! h).
Proof.
  induction targets as [|ev evs IH]; intros m h H; cbn; auto.
  apply IH. destruct (decide (calculate_event_hash ev = h)) as [<- | Hne].
  - rewrite lookup_insert_eq. eauto.
  - now rewrite lookup_insert_ne.
Qed.

Lemma fold_lookup_In (targets : list Event) :
  forall (m : gmap string Event) (t : Event),
    In t targets ->
    is_Some (fold_left (fun m ev => <[calculate_event_hash ev := ev]> m)
               targets m !! calculate_event_hash t).
Proof.
  induction targets as [|ev evs IH]; intros m t Hin; cbn; [easy|].
  destruct Hin as [-> | Hin]; auto.
  apply fold_lookup_keep. rewrite lookup_insert_eq. eauto.
Qed.

(** The lookup holds targets, under their own hash. *)
Lemma build_target_lookup_Some (targets : list Event) (h : string) (t : Event) :
  build_target_lookup targets !! h = Some t ->
  In t targets /\ calculate_event_hash t = h.
Proof.
  intros H. apply fold_lookup_Some in H as [H | H]; auto.
  now rewrite lookup_empty in H.
Qed.

(** Every hash of a target is a key of the lookup. *)
Lemma build_target_lookup_In (targets : list Event) (t : Event) :
  In t targets ->
  is_Some (build_target_lookup targets !! calculate_event_hash t).
Proof. apply fold_lookup_In. Qed.

Lemma build_target_lookup_single (t : Event) (h : string) :
  build_target_lookup [t] !! h
  = if decide (calculate_event_hash t = h) then Some t else None.
Proof.
  unfold build_target_lookup. cbn.
  destruct (decide (calculate_event_hash t = h)) as [<- | Hne].
  - apply lookup_insert_eq.
  - rewrite lookup_insert_ne by assumption. apply lookup_empty.
Qed.

Lemma calculate_event_hash_content (s t : Event) :
  normalize_text (summary s) = normalize_text (summary t) ->
  start s = start t -> end_ s = end_ t ->
  calculate_event_hash s = calculate_event_hash t.
Proof.
  intros H1 H2 H3. unfold calculate_event_hash, hash_string.
  now rewrite H1, H2, H3.
Qed.

Section ExactTier.

Variable pytz_timezone : str -> option zone.
Variable config : Config.

Local Abbreviation times_match := (Engine.times_match pytz_timezone config).
Local Abbreviation needs_update := (Engine.needs_update pytz_timezone config).
Local Abbreviation classify := (Engine.classify pytz_timezone config).
Local Abbreviation tally := (Engine.tally pytz_timezone config).

(** A datetime matches itself, also when it cannot be converted. *)
Lemma times_match_refl (t : datetime) : times_match (Some t) (Some t) = true.
Proof.
  unfold Engine.times_match, Engine.times_match_try.
  destruct (tzinfo t) eqn:Ht; cbn [rbind].
  - destruct (astimezone_utc t); cbn [rbind].
    + rewrite Z.sub_diag. reflexivity.
    + apply str_eqb_refl.
  - rewrite Z.sub_diag. reflexivity.
Qed.

Lemma needs_update_same_content (s t : Event) :
  same_content s t -> start s <> None -> end_ s <> None ->
  needs_update s t = false.
Proof.
  intros (Hs & Hd & Hst & Hen) Hs1 Hs2. unfold Engine.needs_update.
  rewrite Hs, Hd, !str_eqb_refl, <- Hst, <- Hen. cbn.
  destruct (start s) as [a|]; [|congruence].
  destruct (end_ s) as [c|]; [|congruence].
  now rewrite !times_match_refl.
Qed.

Lemma same_content_trans (a b c : Event) :
  same_content a b -> same_content b c -> same_content a c.
Proof. unfold same_content. intuition congruence. Qed.

Lemma copy_of_same_content (s t : Event) : copy_of s t -> same_content s t.
Proof. unfold copy_of, same_content. intuition congruence. Qed.

Lemma same_content_hash (s t : Event) :
  same_content s t -> calculate_event_hash s = calculate_event_hash t.
Proof. intros (H1 & _ & H2 & H3). now apply calculate_event_hash_content. Qed.

(** A source event with its times, copied in a target list whose events
    of equal hash have equal content, is an exact match up to date. *)
Lemma classify_copy (targets : list Event) (avoid_conflicts : bool)
    (s t0 : Event) :
  (forall t1 t2, In t1 targets -> In t2 targets ->
                 calculate_event_hash t1 = calculate_event_hash t2 ->
                 same_content t1 t2) ->
  In t0 targets -> copy_of s t0 -> start s <> None -> end_ s <> None ->
  classify (build_target_lookup targets) targets avoid_conflicts s = ExactSkip.
Proof.
  intros Huniq Hin Hcopy Hs He. apply copy_of_same_content in Hcopy.
  pose proof (same_content_hash s t0 Hcopy) as Hh.
  destruct (build_target_lookup_In targets t0 Hin) as [t Ht].
  unfold Engine.classify. rewrite Hh, Ht.
  apply build_target_lookup_Some in Ht as [Hint Hht].
  rewrite (needs_update_same_content s t); auto.
  apply same_content_trans with t0; [assumption|].
  apply Huniq; congruence.
Qed.

Lemma fold_skipped (f : Event -> Decision) (l : list Event) :
  Forall (fun s => f s = ExactSkip) l ->
  forall stats,
    fold_left (fun stats s => count (f s) stats) l stats
    = {| created := created stats; updated := updated stats;
         skipped := skipped stats + len l |}.
Proof.
  unfold len.
  induction 1 as [|s l Hs Hl IH]; intros stats; cbn [fold_left List.length].
  - destruct stats; cbn. f_equal. lia.
  - rewrite IH, Hs. cbn. f_equal. lia.
Qed.

(** C3, as the code has it: a pass whose source events all have their
    start and end and a copy in the target list, a list where events of
    equal fingerprint have equal content, creates and updates nothing:
    every source event is an exact match up to date. *)
Theorem second_run_skips_everything
    (backend : list Call -> Call -> option str)
    (source_events target_events : list Event) (direction : Direction)
    (dry_run avoid_conflicts : bool) (w : World) :
  (forall s, In s source_events ->
             start s <> None /\ end_ s <> None
             /\ exists t, In t target_events /\ copy_of s t) ->
  (forall t1 t2, In t1 target_events -> In t2 target_events ->
                 calculate_event_hash t1 = calculate_event_hash t2 ->
                 same_content t1 t2) ->
  Forall (fun s =>
            classify (build_target_lookup target_events) target_events
              avoid_conflicts s = ExactSkip) source_events
  /\ fst (Engine.sync_events pytz_timezone config backend source_events
            target_events direction dry_run avoid_conflicts w)
     = Ok {| created := 0; updated := 0; skipped := len source_events |}.
Proof.
  intros Hsrc Huniq.
  assert (Hall : Forall (fun s =>
                           classify (build_target_lookup target_events)
                             target_events avoid_conflicts s = ExactSkip)
                   source_events).
  { apply Forall_forall. intros s Hs.
    destruct (Hsrc s Hs) as (H1 & H2 & t0 & Hin & Hcopy).
    now apply classify_copy with t0. }
  split; [exact Hall|].
  destruct (sync_events_ok pytz_timezone config backend source_events
              target_events direction dry_run avoid_conflicts w)
    as (w' & -> & _).
  cbn [fst]. f_equal. unfold Engine.tally.
  now rewrite (fold_skipped _ _ Hall).
Qed.

End ExactTier.

Lemma second_run_skips_everything_witness :
  fst (sync_events sample_pytz sample_config reliable_backend
         [standup_a] [standup_a] google_to_icloud false false empty_world)
  = Ok {| created := 0; updated := 0; skipped := 1 |}.
Proof.
  apply (second_run_skips_everything sample_pytz sample_config
           reliable_backend [standup_a] [standup_a]).
  - intros s [<- | []]. repeat split; try discriminate.
    exists standup_a. repeat split. now left.
  - intros t1 t2 [<- | []] [<- | []] _. repeat split.
Defined.

(** C3 fails on two events with the same title and times and two
    descriptions: each has its copy in the target list, the lookup keeps
    the last event of a hash, and the first is updated with the
    description of the second. *)
Lemma second_run_updates_duplicate :
  (forall s, In s [standup_a; standup_b] ->
             In s [standup_a; standup_b]
             /\ exists t, In t [standup_a; standup_b]
                          /\ calculate_event_hash t = calculate_event_hash s
                          /\ copy_of s t)
  /\ fst (sync_events sample_pytz sample_config reliable_backend
            [standup_a; standup_b] [standup_a; standup_b]
            google_to_icloud false false empty_world)
     = Ok {| created := 0; updated := 1; skipped := 1 |}.
Proof.
  split.
  - intros s Hs. split; [exact Hs|]. exists s. repeat split; auto.
  - vm_compute. reflexivity.
Qed.

(** C2: a source event without times and its copy in the target list.
    The reschedule search and the search for a similar event find
    nothing, the hash lookup finds the copy, [_needs_update] is true since
    absent times never match, and the event is counted as an update. *)
Lemma absent_times_exact_match :
  find_rescheduled_event sample_pytz sample_config standup_no_times
    [standup_no_times] = None
  /\ find_similar_event sample_pytz sample_config standup_no_times
       [standup_no_times] = None
  /\ classify sample_pytz sample_config
       (build_target_lookup [standup_no_times]) [standup_no_times] false
       standup_no_times
     = ExactUpdate standup_no_times
  /\ fst (sync_events sample_pytz sample_config reliable_backend
            [standup_no_times] [standup_no_times] icloud_to_google false
            false empty_world)
     = Ok {| created := 0; updated := 1; skipped := 0 |}.
Proof. repeat split; vm_compute; reflexivity. Qed.

(* ================================================================== *)
(** ** [str.replace] *)
(* ================================================================== *)

Lemma strip_prefix_length (old s rest : str) :
  strip_prefix old s = Some rest ->
  List.length s = (List.length old + List.length rest)%nat.
Proof.
  revert s. induction old as [|a old IH]; intros s H; cbn in *.
  - now injection H as ->.
  - destruct s as [|c s]; [discriminate|].
    destruct (Ascii.eqb a c); [|discriminate].
    cbn. f_equal. now apply IH.
Qed.

(** The bound of [replace_from] does not matter once it exceeds the
    length of the text. *)
Lemma replace_from_enough (a : ascii) (old new : str) (n : nat) :
  forall (m : nat) (s : str),
    (List.length s < n)%nat -> (List.length s < m)%nat ->
    replace_from n (a :: old) new s = replace_from m (a :: old) new s.
Proof.
  induction n as [|n IH]; intros m s Hn Hm; [lia|].
  destruct m as [|m]; [lia|]. cbn [replace_from].
  destruct (strip_prefix (a :: old) s) as [rest|] eqn:Hp.
  - apply strip_prefix_length in Hp. cbn in Hp.
    f_equal. apply IH; lia.
  - destruct s as [|c s]; [reflexivity|]. cbn in Hn, Hm.
    f_equal. apply IH; lia.
Qed.

(** One step of the scan. *)
Lemma replace_step (a : ascii) (old new s : str) :
  replace (a :: old) new s =
    match strip_prefix (a :: old) s with
    | Some rest => new ++ replace (a :: old) new rest
    | None =>
        match s with
        | [] => []
        | c :: s' => c :: replace (a :: old) new s'
        end
    end.
Proof.
  assert (E : forall n s,
             replace_from (S n) (a :: old) new s =
               match strip_prefix (a :: old) s with
               | Some rest => new ++ replace_from n (a :: old) new rest
               | None =>
                   match s with
                   | [] => []
                   | c :: s' => c :: replace_from n (a :: old) new s'
                   end
               end) by reflexivity.
  unfold replace. rewrite E.
  destruct (strip_prefix (a :: old) s) as [rest|] eqn:Hp.
  - apply strip_prefix_length in Hp. cbn in Hp.
    f_equal. apply replace_from_enough; lia.
  - destruct s as [|c s]; reflexivity.
Qed.

Lemma list_ind2 {A} (P : list A -> Prop) :
  P [] -> (forall c, P [c]) ->
  (forall c d l, P l -> P (d :: l) -> P (c :: d :: l)) ->
  forall l, P l.
Proof.
  intros H0 H1 H2.
  assert (H : forall l, P l /\ forall c, P (c :: l)).
  { induction l as [|d l [IHl IHc]]; split; auto. }
  intros l. apply H.
Qed.

Lemma last_char_cons2 (c d : ascii) (s : str) :
  last_char (c :: d :: s) = last_char (d :: s).
Proof. reflexivity. Qed.

Lemma last_char_cons (c z : ascii) (s : str) :
  last_char (c :: s) = Some z -> (s = [] /\ c = z) \/ last_char s = Some z.
Proof. destruct s; cbn; [intros [= ->]|]; auto. Qed.

Lemma last_char_app (s : str) (c : ascii) : last_char (s ++ [c]) = Some c.
Proof.
  induction s as [|d s IH]; [reflexivity|].
  destruct s; [reflexivity|]. cbn [app] in *. now rewrite last_char_cons2.
Qed.

Lemma last_char_app_r (x y : str) :
  y <> [] -> last_char (x ++ y) = last_char y.
Proof.
  intros Hy. induction x as [|c x IH]; [reflexivity|].
  cbn [app]. destruct (x ++ y) as [|d r] eqn:E.
  - apply app_eq_nil in E as [_ E]. congruence.
  - now rewrite last_char_cons2.
Qed.

Section ReplacePair.

(** A pattern of two characters, as all those of [_normalize_text]. *)
Variables (a b : ascii) (new : str).

Local Abbreviation rep := (replace [a; b] new).

Lemma rep_nil : rep [] = [].
Proof. reflexivity. Qed.

Lemma rep_single (c : ascii) : rep [c] = [c].
Proof.
  rewrite replace_step. cbn.
  now destruct (Ascii.eqb a c).
Qed.

Lemma rep_match (s : str) : rep (a :: b :: s) = new ++ rep s.
Proof.
  rewrite replace_step. cbn. now rewrite !Ascii.eqb_refl.
Qed.

Lemma rep_cons_fst (c : ascii) (s : str) :
  c <> a -> rep (c :: s) = c :: rep s.
Proof.
  intros Hc. rewrite replace_step. cbn.
  destruct (Ascii.eqb_spec a c); [congruence|reflexivity].
Qed.

Lemma rep_cons_snd (c : ascii) (s : str) :
  ~ starts_with b s -> rep (c :: s) = c :: rep s.
Proof.
  intros Hs. rewrite replace_step. cbn.
  destruct (Ascii.eqb a c); [|reflexivity].
  destruct s as [|d s]; [reflexivity|].
  destruct (Ascii.eqb_spec b d); [|reflexivity].
  cbn in Hs. congruence.
Qed.

(** Whether the scan replaces at the head of [c :: d :: s]. *)
Lemma rep_cons2 (c d : ascii) (s : str) :
  (c = a /\ d = b /\ rep (c :: d :: s) = new ++ rep s)
  \/ ((c <> a \/ d <> b) /\ rep (c :: d :: s) = c :: rep (d :: s)).
Proof.
  destruct (ascii_dec c a) as [-> | Hc].
  - destruct (ascii_dec d b) as [-> | Hd].
    + left. auto using rep_match.
    + right. split; auto. apply rep_cons_snd. cbn. congruence.
  - right. split; auto. now apply rep_cons_fst.
Qed.

(** The scan of [p ++ x] is the scan of [p] followed by that of [x] when
    no occurrence can lie across the two. *)
Lemma rep_app (p x : str) :
  ~ ends_with a p \/ ~ starts_with b x ->
  rep (p ++ x) = rep p ++ rep x.
Proof.
  revert p. apply (list_ind2 (fun p =>
    ~ ends_with a p \/ ~ starts_with b x -> rep (p ++ x) = rep p ++ rep x)).
  - reflexivity.
  - intros c H. rewrite rep_single. cbn [app].
    destruct H as [H | H].
    + apply rep_cons_fst. intros ->. now apply H.
    + now apply rep_cons_snd.
  - intros c d l IHl IHdl H.
    assert (Hdl : ~ ends_with a (d :: l) \/ ~ starts_with b x) by exact H.
    cbn [app].
    destruct (rep_cons2 c d (l ++ x)) as [(-> & -> & ->) | (Hne & ->)].
    + rewrite rep_match, <- app_assoc. f_equal.
      destruct l as [|e l]; [reflexivity|]. apply IHl.
      destruct H as [H | H]; auto.
    + destruct (rep_cons2 c d l) as [(-> & -> & _) | (_ & ->)].
      * destruct Hne; congruence.
      * cbn [app]. f_equal. now apply IHdl.
Qed.

Lemma rep_nil_inv (s : str) : new <> [] -> rep s = [] -> s = [].
Proof.
  intros Hnew. destruct s as [|c [|d s]]; auto.
  - now rewrite rep_single.
  - destruct (rep_cons2 c d s) as [(_ & _ & ->) | (_ & ->)].
    + intros H. apply app_eq_nil in H as [H _]. congruence.
    + discriminate.
Qed.

(** A text that does not end with [z] does not end with [z] once scanned,
    when the replacement does not end with [z]. *)
Lemma rep_ends_with (z : ascii) (p : str) :
  new <> [] -> ~ ends_with z new ->
  ~ ends_with z p -> ~ ends_with z (rep p).
Proof.
  intros Hnew Hz. revert p.
  apply (list_ind2 (fun p => ~ ends_with z p -> ~ ends_with z (rep p))).
  - auto.
  - intros c. now rewrite rep_single.
  - intros c d l IHl IHdl H.
    destruct (rep_cons2 c d l) as [(_ & _ & ->) | (_ & ->)].
    + destruct l as [|e l].
      * rewrite rep_nil, app_nil_r. exact Hz.
      * assert (Hl : ~ ends_with z (rep (e :: l))) by (apply IHl; exact H).
        assert (Hne : rep (e :: l) <> [])
          by (intros E; now apply rep_nil_inv in E).
        unfold ends_with in *. now rewrite last_char_app_r.
    + intros E. apply last_char_cons in E as [[E _] | E].
      * now apply rep_nil_inv in E.
      * now apply IHdl in E.
Qed.

End ReplacePair.

(* ================================================================== *)
(** ** [str.split] and [str.strip] *)
(* ================================================================== *)

Lemma split_space (c : ascii) (s : str) :
  isspace c = true -> split (c :: s) = split s.
Proof. intros H. cbn. now rewrite H. Qed.

Lemma split_word_boundary (c : ascii) (s : str) :
  isspace c = false -> boundary s -> split (c :: s) = [c] :: split s.
Proof.
  intros Hc Hs. cbn [split]. rewrite Hc.
  destruct s as [|d s]; [reflexivity|]. cbn in Hs. now rewrite Hs.
Qed.

Lemma split_word_cons (c d : ascii) (s : str) :
  isspace c = false -> isspace d = false ->
  exists w ws, split (d :: s) = w :: ws /\ split (c :: d :: s) = (c :: w) :: ws.
Proof.
  intros Hc Hd.
  assert (Hne : exists w ws, split (d :: s) = w :: ws).
  { cbn [split]. rewrite Hd. destruct s as [|e s]; eauto.
    destruct (isspace e); eauto. destruct (split (e :: s)); eauto. }
  destruct Hne as (w & ws & E). exists w, ws. split; [exact E|].
  change (split (c :: d :: s))
    with (if isspace c then split (d :: s)
          else if isspace d then [c] :: split (d :: s)
               else match split (d :: s) with
                    | w :: ws => (c :: w) :: ws
                    | [] => [[c]]
                    end).
  now rewrite Hc, Hd, E.
Qed.

(** Splitting [x ++ y] where [y] is empty or starts with white space. *)
Lemma split_app (x y : str) :
  boundary y -> split (x ++ y) = split x ++ split y.
Proof.
  intros Hy. induction x as [|c x IH]; [reflexivity|].
  destruct (isspace c) eqn:Hc.
  - cbn [app]. now rewrite !split_space.
  - destruct x as [|d x].
    + cbn [app]. rewrite split_word_boundary by assumption.
      now rewrite (split_word_boundary c []).
    + destruct (isspace d) eqn:Hd.
      * cbn [app] in *.
        rewrite !(split_word_boundary c) by (cbn; assumption).
        now rewrite IH.
      * cbn [app] in *.
        destruct (split_word_cons c d (x ++ y) Hc Hd) as (w & ws & E1 & ->).
        destruct (split_word_cons c d x Hc Hd) as (w' & ws' & E2 & ->).
        rewrite E1, E2 in IH. cbn [app] in IH. injection IH as -> ->.
        reflexivity.
Qed.

Lemma split_spaces (s : str) :
  Forall (fun c => isspace c = true) s -> split s = [].
Proof.
  induction 1 as [|c s Hc _ IH]; [reflexivity|]. now rewrite split_space.
Qed.

Lemma split_word (c : ascii) (w : str) :
  isspace c = false -> Forall (fun c => isspace c = false) w ->
  split (c :: w) = [c :: w].
Proof.
  intros Hc Hw. revert c Hc.
  induction Hw as [|d w Hd _ IH]; intros c Hc; [now cbn; rewrite Hc|].
  destruct (split_word_cons c d w Hc Hd) as (w' & ws & E & ->).
  rewrite (IH d Hd) in E. now injection E as <- <-.
Qed.

(** A text that starts with a word is that word followed by a
    boundary. *)
Lemma word_decompose (s : str) :
  forall c, isspace c = false ->
  exists w rest,
    c :: s = (c :: w) ++ rest
    /\ Forall (fun c => isspace c = false) w /\ boundary rest.
Proof.
  induction s as [|d s IH]; intros c Hc.
  - exists [], []. cbn. auto.
  - destruct (isspace d) eqn:Hd.
    + exists [], (d :: s). cbn. auto.
    + destruct (IH d Hd) as (w & rest & E & Hw & Hr).
      exists (d :: w), rest. rewrite E. cbn. auto.
Qed.

Lemma lstrip_decompose (s : str) :
  exists sp, Forall (fun c => isspace c = true) sp /\ s = sp ++ lstrip s.
Proof.
  induction s as [|c s (sp & Hsp & E)]; [now exists []|].
  cbn [lstrip]. destruct (isspace c) eqn:Hc.
  - exists (c :: sp). split; [now constructor|]. cbn. now f_equal.
  - now exists [].
Qed.

Lemma split_lstrip (s : str) : split (lstrip s) = split s.
Proof.
  destruct (lstrip_decompose s) as (sp & Hsp & E).
  rewrite E at 2. clear E.
  induction Hsp as [|c sp Hc _ IH]; [reflexivity|].
  cbn [app]. now rewrite split_space.
Qed.

Lemma boundary_spaces (sp : str) :
  Forall (fun c => isspace c = true) sp -> boundary sp.
Proof. now destruct 1. Qed.

Lemma split_rstrip (s : str) : split (rstrip s) = split s.
Proof.
  unfold rstrip.
  destruct (lstrip_decompose (rev s)) as (sp & Hsp & E).
  assert (Es : s = rev (lstrip (rev s)) ++ rev sp).
  { rewrite <- rev_app_distr, <- E. symmetry. apply rev_involutive. }
  assert (Hrev : Forall (fun c => isspace c = true) (rev sp)).
  { apply Forall_forall. intros c Hc. apply in_rev in Hc.
    revert c Hc. now apply Forall_forall. }
  rewrite Es at 2.
  rewrite split_app by now apply boundary_spaces.
  rewrite (split_spaces (rev sp)) by assumption.
  now rewrite app_nil_r.
Qed.

Lemma split_strip (s : str) : split (strip s) = split s.
Proof. unfold strip. now rewrite split_rstrip, split_lstrip. Qed.

Section ReplaceSplit.

(** A pattern of two characters that are not white space. *)
Variables (a b : ascii) (new : str).
Hypothesis a_word : isspace a = false.
Hypothesis b_word : isspace b = false.

Local Abbreviation rep := (replace [a; b] new).

Lemma rep_space (c : ascii) (s : str) :
  isspace c = true -> rep (c :: s) = c :: rep s.
Proof. intros Hc. apply rep_cons_fst. congruence. Qed.

Lemma rep_boundary (s : str) : boundary s -> boundary (rep s).
Proof.
  destruct s as [|c s]; [auto|]. intros Hc. now rewrite (rep_space c s Hc).
Qed.

Lemma boundary_not_starts (s : str) : boundary s -> ~ starts_with b s.
Proof. destruct s as [|c s]; cbn; [auto|]. congruence. Qed.

(** The scan works word by word. *)
Lemma split_rep_words (n : nat) :
  forall s, (List.length s <= n)%nat ->
  split (rep s) = flat_map (fun w => split (rep w)) (split s).
Proof.
  induction n as [|n IH]; intros s Hn.
  - destruct s; [reflexivity|cbn in Hn; lia].
  - destruct s as [|c s]; [reflexivity|]. cbn in Hn.
    destruct (isspace c) eqn:Hc.
    + rewrite rep_space, !split_space by assumption. apply IH. lia.
    + destruct (word_decompose s c Hc) as (w & rest & E & Hw & Hr).
      rewrite E.
      rewrite (rep_app a b new) by (right; now apply boundary_not_starts).
      rewrite !split_app by auto using rep_boundary.
      rewrite split_word by assumption. cbn [flat_map app].
      f_equal. apply IH.
      apply (f_equal (@List.length ascii)) in E.
      rewrite length_app in E. cbn in E. lia.
Qed.

Lemma split_rep_congr (s s' : str) :
  split s = split s' -> split (rep s) = split (rep s').
Proof.
  intros E.
  rewrite (split_rep_words _ s (le_n _)), (split_rep_words _ s' (le_n _)).
  now rewrite E.
Qed.

End ReplaceSplit.

Lemma split_unescape_congr (s s' : str) :
  split s = split s' -> split (unescape s) = split (unescape s').
Proof.
  intros E. unfold unescape.
  repeat (apply split_rep_congr; [reflexivity | reflexivity |]).
  exact E.
Qed.

(** [_normalize_text] without its [strip]: the words of the unescaped
    text, joined by one space, in lower case. *)
Lemma normalize_text_unescape (s : str) :
  normalize_text s = lower (join (lit " ") (split (unescape s))).
Proof.
  unfold normalize_text. destruct s as [|c s]; [reflexivity|].
  cbn [is_empty]. fold (unescape (strip (c :: s))).
  f_equal. f_equal. apply split_unescape_congr, split_strip.
Qed.

Lemma normalize_text_words (s s' : str) :
  split s = split s' -> normalize_text s = normalize_text s'.
Proof.
  intros E. rewrite !normalize_text_unescape.
  now rewrite (split_unescape_congr s s' E).
Qed.

(* ================================================================== *)
(** ** Escape sequences *)
(* ================================================================== *)

Section EscapePair.

(** A pattern [\b] and its replacement. *)
Variables (b : ascii) (new : str).

Local Abbreviation rep := (replace [backslash; b] new).

Lemma rep_mid_match (p q : str) :
  ~ ends_with backslash p ->
  rep (p ++ backslash :: b :: q) = rep p ++ new ++ rep q.
Proof.
  intros Hp. rewrite (rep_app backslash b new) by auto.
  now rewrite rep_match.
Qed.

Lemma rep_mid_plain (p q : str) (c : ascii) :
  ~ ends_with backslash p -> c <> backslash ->
  rep (p ++ c :: q) = rep p ++ c :: rep q.
Proof.
  intros Hp Hc. rewrite (rep_app backslash b new) by auto.
  now rewrite rep_cons_fst.
Qed.

Lemma rep_mid_lone (p q : str) :
  ~ ends_with backslash p -> ~ starts_with b q ->
  rep (p ++ backslash :: q) = rep p ++ backslash :: rep q.
Proof.
  intros Hp Hq. rewrite (rep_app backslash b new) by auto.
  now rewrite rep_cons_snd.
Qed.

Lemma rep_plain_start (q : str) : plain_start q -> plain_start (rep q).
Proof.
  destruct q as [|c q]; [auto|]. intros Hc.
  rewrite rep_cons_fst; [exact Hc|].
  intros ->. apply Hc. cbn. auto.
Qed.

End EscapePair.

Lemma plain_start_not (q : str) (c : ascii) :
  In c [","%char; ";"%char; "n"%char; backslash] ->
  plain_start q -> ~ starts_with c q.
Proof. destruct q as [|d q]; cbn [plain_start starts_with]; [auto|]. intros Hc Hd ->. auto. Qed.

Lemma end_kept (b n : ascii) (p : str) :
  n <> backslash -> ~ ends_with backslash p ->
  ~ ends_with backslash (replace [backslash; b] [n] p).
Proof.
  intros Hn. apply rep_ends_with; [discriminate|].
  unfold ends_with. cbn. congruence.
Qed.

(** The four replacements of [_normalize_text]. *)
Lemma unescape_steps (s : str) :
  unescape s =
    replace [backslash; backslash] [backslash]
      (replace [backslash; "n"%char] [chr 10]
         (replace [backslash; ";"%char] [";"%char]
            (replace [backslash; ","%char] [","%char] s))).
Proof. reflexivity. Qed.

(** An escape sequence and the character it stands for unescape to the
    same text. *)
Lemma unescape_one_escape (s s' : str) :
  one_escape s s' -> unescape s = unescape s'.
Proof.
  assert (Hc : ","%char <> backslash) by (vm_compute; congruence).
  assert (Hs : ";"%char <> backslash) by (vm_compute; congruence).
  assert (Hn : chr 10 <> backslash) by (vm_compute; congruence).
  assert (Hin : forall c, In c [","%char; ";"%char; "n"%char; backslash] ->
                          forall q, plain_start q -> ~ starts_with c q)
    by (intros; now apply plain_start_not).
  intros [p q Hp | p q Hp | p q Hp | p q Hp Hq]; rewrite !unescape_steps;
    cbn [lit list_ascii_of_string app];
    pose proof (end_kept ","%char ","%char p Hc Hp) as Hp1;
    pose proof (end_kept ";"%char ";"%char _ Hs Hp1) as Hp2;
    pose proof (end_kept "n"%char (chr 10) _ Hn Hp2) as Hp3.
  - rewrite (rep_mid_match ","%char), (rep_mid_plain ","%char)
      by assumption.
    reflexivity.
  - rewrite (rep_mid_lone ","%char), (rep_mid_plain ","%char),
      (rep_cons_fst backslash ","%char)
      by (assumption || (vm_compute; congruence)).
    rewrite (rep_mid_match ";"%char), (rep_mid_plain ";"%char)
      by assumption.
    reflexivity.
  - rewrite (rep_mid_lone ","%char), (rep_mid_plain ","%char),
      (rep_cons_fst backslash ","%char)
      by (assumption || (vm_compute; congruence)).
    rewrite (rep_mid_lone ";"%char), (rep_mid_plain ";"%char),
      (rep_cons_fst backslash ";"%char)
      by (assumption || (vm_compute; congruence)).
    rewrite (rep_mid_match "n"%char), (rep_mid_plain "n"%char)
      by assumption.
    reflexivity.
  - pose proof (rep_plain_start ","%char [","%char] q Hq) as Hq1.
    pose proof (rep_plain_start ";"%char [";"%char] _ Hq1) as Hq2.
    pose proof (rep_plain_start "n"%char [chr 10] _ Hq2) as Hq3.
    assert (I1 : In ","%char [","%char; ";"%char; "n"%char; backslash])
      by (cbn; auto).
    assert (I2 : In ";"%char [","%char; ";"%char; "n"%char; backslash])
      by (cbn; auto).
    assert (I3 : In "n"%char [","%char; ";"%char; "n"%char; backslash])
      by (cbn; auto).
    assert (I4 : In backslash [","%char; ";"%char; "n"%char; backslash])
      by (cbn; auto).
    rewrite !(rep_mid_lone ","%char) by (auto; vm_compute; congruence).
    rewrite (rep_cons_snd backslash ","%char) by auto.
    rewrite !(rep_mid_lone ";"%char) by (auto; vm_compute; congruence).
    rewrite (rep_cons_snd backslash ";"%char) by auto.
    rewrite !(rep_mid_lone "n"%char) by (auto; vm_compute; congruence).
    rewrite (rep_cons_snd backslash "n"%char) by auto.
    rewrite (rep_mid_match backslash), (rep_mid_lone backslash) by auto.
    reflexivity.
Qed.

Lemma normalize_text_same_text (s s' : str) :
  same_text s s' -> normalize_text s = normalize_text s'.
Proof.
  induction 1 as [s s' E | s s' E | s s' _ IH | s s' s'' _ IH1 _ IH2].
  - now apply normalize_text_words.
  - rewrite !normalize_text_unescape. now rewrite (unescape_one_escape s s').
  - now symmetry.
  - now transitivity (normalize_text s').
Qed.

(** C8, as the code has it: the fingerprint is a function of the event;
    it does not read the location; two summaries that differ only in
    white space runs, or in an escape sequence [\,], [\;] or [\n] that
    does not follow a backslash, or in a [\\] that does not follow a
    backslash and is not followed by [,], [;], [n] or a backslash, give
    the same fingerprint. *)
Theorem fingerprint_invariant (e : Event) :
  calculate_event_hash e = calculate_event_hash e
  /\ (forall loc, calculate_event_hash (set_location e loc)
                  = calculate_event_hash e)
  /\ (forall s, same_text (summary e) s ->
                calculate_event_hash (set_summary e s)
                = calculate_event_hash e).
Proof.
  split; [reflexivity|]. split; [reflexivity|].
  intros s Hs. apply calculate_event_hash_content; cbn; auto.
  symmetry. now apply normalize_text_same_text.
Qed.

Lemma fingerprint_invariant_witness :
  calculate_event_hash
    (set_summary (standup "" (Some t_0900) (Some t_0930))
       (lit " standup\,  weekly "))
  = calculate_event_hash
      (set_summary (standup "" (Some t_0900) (Some t_0930))
         (lit "Standup, Weekly")).
Proof.
  pose proof (proj2 (proj2 (fingerprint_invariant
    (set_summary (standup "" (Some t_0900) (Some t_0930))
       (lit " standup\,  weekly "))))) as H.
  rewrite <- (H (lit " standup,  weekly ")).
  - vm_compute. reflexivity.
  - apply same_escape. apply (escape_comma (lit " standup") (lit "  weekly ")).
    unfold ends_with. cbn. discriminate.
Defined.

(** C8 fails on a backslash: [C:\\new] and [C:\new] differ in one escape
    sequence, the first normalizes to [c:\ ew], the second to [c: ew],
    and the fingerprints differ. *)
Lemma fingerprint_differs_on_escaped_backslash :
  normalize_text (lit "C:\\new") = lit "c:\ ew"
  /\ normalize_text (lit "C:\new") = lit "c: ew"
  /\ calculate_event_hash
       (set_summary (standup "" (Some t_0900) (Some t_0930)) (lit "C:\\new"))
     <> calculate_event_hash
          (set_summary (standup "" (Some t_0900) (Some t_0930))
             (lit "C:\new")).
Proof. repeat split; vm_compute; congruence. Qed.

(* ================================================================== *)
(** ** [str] of a datetime determines it *)
(* ================================================================== *)

Lemma app_eq_len {A} (u u' v v' : list A) :
  List.length u = List.length u' -> u ++ v = u' ++ v' -> u = u' /\ v = v'.
Proof.
  revert u'. induction u as [|x u IH]; intros [|x' u'] Hl H;
    try discriminate; auto.
  cbn in *. injection H as -> H. injection Hl as Hl.
  destruct (IH u' Hl H) as [-> ->]. auto.
Qed.

Lemma ord_chr (n : Z) : 0 <= n < 256 -> ord (chr n) = n.
Proof.
  intros H. unfold ord, chr.
  rewrite N_ascii_embedding by lia. lia.
Qed.

Lemma chr_inj (n m : Z) : 0 <= n < 256 -> 0 <= m < 256 -> chr n = chr m -> n = m.
Proof.
  intros Hn Hm E. apply (f_equal ord) in E. now rewrite !ord_chr in E.
Qed.

Lemma length_digits (n : nat) (x : Z) : List.length (digits n x) = n.
Proof.
  revert x. induction n as [|n IH]; intros x; [reflexivity|].
  cbn [digits]. rewrite length_app, IH. cbn. lia.
Qed.

Lemma digits_inj (n : nat) :
  forall x y, 0 <= x < 10 ^ Z.of_nat n -> 0 <= y < 10 ^ Z.of_nat n ->
              digits n x = digits n y -> x = y.
Proof.
  induction n as [|n IH]; intros x y Hx Hy E.
  - cbn in Hx, Hy. lia.
  - cbn [digits] in E.
    rewrite Nat2Z.inj_succ, Z.pow_succ_r in Hx, Hy by lia.
    apply app_inj_tail in E as [E Ec].
    pose proof (Z.mod_pos_bound x 10 ltac:(lia)).
    pose proof (Z.mod_pos_bound y 10 ltac:(lia)).
    apply chr_inj in Ec; [|lia|lia].
    assert (Hq : x / 10 = y / 10).
    { apply IH; auto; split;
        try (apply Z.div_pos; lia);
        apply Z.div_lt_upper_bound; lia. }
    rewrite (Z.div_mod x 10), (Z.div_mod y 10) by lia. lia.
Qed.

Lemma digits2_inj (x y : Z) :
  0 <= x < 100 -> 0 <= y < 100 -> digits 2 x = digits 2 y -> x = y.
Proof. apply (digits_inj 2). Qed.

Lemma digits4_inj (x y : Z) :
  0 <= x < 10000 -> 0 <= y < 10000 -> digits 4 x = digits 4 y -> x = y.
Proof. apply (digits_inj 4). Qed.

Lemma digits6_inj (x y : Z) :
  0 <= x < 1000000 -> 0 <= y < 1000000 -> digits 6 x = digits 6 y -> x = y.
Proof. apply (digits_inj 6). Qed.

Opaque digits.

(** Cut a run of digits of known length off both sides of an equation
    between texts. *)
Ltac cut_digits H E :=
  apply app_eq_len in H as [E H]; [|now rewrite !length_digits].

Lemma cons_eq_inv {A} (x y : A) (u v : list A) :
  x :: u = y :: v -> x = y /\ u = v.
Proof. intros H. now injection H. Qed.

Ltac cut_char H :=
  cbn [lit list_ascii_of_string app] in H;
  apply cons_eq_inv in H as [_ H].

(** The optional [.ffffff], in a text that goes on with another
    character than the point. *)
Lemma fraction_inj (u1 u2 : Z) (X Y : str) :
  0 <= u1 < US -> 0 <= u2 < US ->
  ~ starts_with "."%char X -> ~ starts_with "."%char Y ->
  (if u1 =? 0 then [] else lit "." ++ digits 6 u1) ++ X
  = (if u2 =? 0 then [] else lit "." ++ digits 6 u2) ++ Y ->
  u1 = u2 /\ X = Y.
Proof.
  unfold US. intros H1 H2 HX HY H.
  destruct (Z.eqb_spec u1 0) as [-> | N1], (Z.eqb_spec u2 0) as [-> | N2];
    cbn [lit list_ascii_of_string app] in H.
  - auto.
  - subst X. exfalso. now apply HX.
  - subst Y. exfalso. now apply HY.
  - cut_char H. cut_digits H E.
    apply digits6_inj in E; [|lia|lia]. auto.
Qed.

Lemma bar_not_point (X : str) : ~ starts_with "."%char ("|"%char :: X).
Proof. cbn. discriminate. Qed.

(** The optional [:SS[.ffffff]] of an offset. *)
Lemma offset_seconds_inj (r1 r2 : Z) (X Y : str) :
  0 <= r1 < 60 * US -> 0 <= r2 < 60 * US ->
  (if r1 =? 0 then []
   else lit ":" ++ digits 2 (r1 / US)
        ++ (if r1 mod US =? 0 then [] else lit "." ++ digits 6 (r1 mod US)))
  ++ "|"%char :: X
  = (if r2 =? 0 then []
     else lit ":" ++ digits 2 (r2 / US)
          ++ (if r2 mod US =? 0 then []
              else lit "." ++ digits 6 (r2 mod US)))
    ++ "|"%char :: Y ->
  r1 = r2 /\ X = Y.
Proof.
  unfold US. intros H1 H2 H.
  pose proof (Z.div_mod r1 1000000 ltac:(lia)) as D1.
  pose proof (Z.div_mod r2 1000000 ltac:(lia)) as D2.
  pose proof (Z.mod_pos_bound r1 1000000 ltac:(lia)) as M1.
  pose proof (Z.mod_pos_bound r2 1000000 ltac:(lia)) as M2.
  destruct (Z.eqb_spec r1 0) as [-> | N1], (Z.eqb_spec r2 0) as [-> | N2];
    cbn [lit list_ascii_of_string app] in H; try discriminate.
  - apply cons_eq_inv in H as [_ ->]. auto.
  - cut_char H. rewrite <- !app_assoc in H. cut_digits H E.
    apply digits2_inj in E; [|lia|lia].
    apply (fraction_inj (r1 mod 1000000) (r2 mod 1000000)) in H
      as [Hu H]; [|exact M1|exact M2|apply bar_not_point..].
    apply cons_eq_inv in H as [_ ->].
    split; [lia|reflexivity].
Qed.

Lemma format_offset_inj (o1 o2 : Z) (X Y : str) :
  - (86400 * US) < o1 < 86400 * US -> - (86400 * US) < o2 < 86400 * US ->
  format_offset o1 ++ "|"%char :: X = format_offset o2 ++ "|"%char :: Y ->
  o1 = o2 /\ X = Y.
Proof.
  unfold format_offset. cbv zeta. unfold US. intros H1 H2 H.
  set (a1 := Z.abs o1) in *. set (a2 := Z.abs o2) in *.
  assert (A1 : 0 <= a1 < 86400000000) by (subst a1; lia).
  assert (A2 : 0 <= a2 < 86400000000) by (subst a2; lia).
  change (3600 * 1000000) with 3600000000 in H.
  change (60 * 1000000) with 60000000 in H.
  pose proof (Z.div_mod a1 3600000000 ltac:(lia)) as D1.
  pose proof (Z.div_mod a2 3600000000 ltac:(lia)) as D2.
  pose proof (Z.mod_pos_bound a1 3600000000 ltac:(lia)) as M1.
  pose proof (Z.mod_pos_bound a2 3600000000 ltac:(lia)) as M2.
  set (r1 := a1 mod 3600000000) in *. set (r2 := a2 mod 3600000000) in *.
  pose proof (Z.div_mod r1 60000000 ltac:(lia)) as D1'.
  pose proof (Z.div_mod r2 60000000 ltac:(lia)) as D2'.
  pose proof (Z.mod_pos_bound r1 60000000 ltac:(lia)) as M1'.
  pose proof (Z.mod_pos_bound r2 60000000 ltac:(lia)) as M2'.
  rewrite <- !app_assoc in H.
  assert (Hsign : (o1 <? 0) = (o2 <? 0)
                  /\ digits 2 (a1 / 3600000000)
                     ++ lit ":" ++ digits 2 (r1 / 60000000)
                     ++ (if r1 mod 60000000 =? 0 then []
                         else lit ":" ++ digits 2 (r1 mod 60000000 / 1000000)
                              ++ (if r1 mod 60000000 mod 1000000 =? 0
                                  then []
                                  else lit "."
                                       ++ digits 6
                                            (r1 mod 60000000 mod 1000000)))
                     ++ "|"%char :: X
                     = digits 2 (a2 / 3600000000)
                       ++ lit ":" ++ digits 2 (r2 / 60000000)
                       ++ (if r2 mod 60000000 =? 0 then []
                           else lit ":"
                                ++ digits 2 (r2 mod 60000000 / 1000000)
                                ++ (if r2 mod 60000000 mod 1000000 =? 0
                                    then []
                                    else lit "."
                                         ++ digits 6
                                              (r2 mod 60000000 mod 1000000)))
                       ++ "|"%char :: Y).
  { destruct (o1 <? 0), (o2 <? 0);
      cbn [lit list_ascii_of_string app] in H;
      apply cons_eq_inv in H as [Hc H]; try discriminate Hc; auto. }
  clear H. destruct Hsign as [Hs H].
  cut_digits H Eh. apply digits2_inj in Eh; [|lia|lia].
  cut_char H. cut_digits H Em. apply digits2_inj in Em; [|lia|lia].
  apply (offset_seconds_inj (r1 mod 60000000) (r2 mod 60000000)) in H
    as [Er ->]; [|exact M1'|exact M2'].
  split; [|reflexivity].
  assert (Ea : a1 = a2) by lia.
  subst a1 a2.
  destruct (Z.ltb_spec o1 0), (Z.ltb_spec o2 0); try discriminate; lia.
Qed.

Lemma format_offset_head (off : Z) :
  exists c r, format_offset off = c :: r /\ (c = "+"%char \/ c = "-"%char).
Proof.
  unfold format_offset. cbv zeta.
  destruct (off <? 0); cbn [lit list_ascii_of_string app]; eauto.
Qed.

Lemma days_in_month_le (y m : Z) : 1 <= m <= 12 -> days_in_month y m <= 31.
Proof.
  intros Hm. unfold days_in_month.
  destruct ((m =? 2) && is_leap y); [lia|].
  assert (E : m = 1 \/ m = 2 \/ m = 3 \/ m = 4 \/ m = 5 \/ m = 6 \/ m = 7
              \/ m = 8 \/ m = 9 \/ m = 10 \/ m = 11 \/ m = 12) by lia.
  repeat (destruct E as [-> | E]; [vm_compute; congruence|]).
  subst. vm_compute. congruence.
Qed.

Lemma valid_fields (t : datetime) :
  valid t = true ->
  0 <= year t < 10000 /\ 0 <= month t < 100 /\ 0 <= day t < 100
  /\ 0 <= hour t < 100 /\ 0 <= minute t < 100 /\ 0 <= second t < 100
  /\ 0 <= microsecond t < 1000000
  /\ match tzinfo t with
     | Some off => - (86400 * US) < off < 86400 * US
     | None => True
     end.
Proof.
  unfold valid. rewrite !andb_true_iff, !Z.leb_le, !Z.ltb_lt. unfold US.
  intros H.
  assert (Hd : days_in_month (year t) (month t) <= 31)
    by (apply days_in_month_le; lia).
  repeat split; try lia.
  destruct (tzinfo t); [|exact I].
  destruct H as [_ H]. rewrite andb_true_iff, !Z.ltb_lt in H. lia.
Qed.

(** [str] of a valid datetime, in a text that goes on with [|],
    determines the datetime. *)
Lemma str_datetime_inj (a b : datetime) (X Y : str) :
  valid a = true -> valid b = true ->
  str_datetime a ++ "|"%char :: X = str_datetime b ++ "|"%char :: Y ->
  a = b /\ X = Y.
Proof.
  intros Va Vb H.
  apply valid_fields in Va as (Ya & Ma & Da & ha & ma & sa & ua & oa).
  apply valid_fields in Vb as (Yb & Mb & Db & hb & mb & sb & ub & ob).
  destruct a as [y1 m1 d1 h1 n1 s1 u1 z1], b as [y2 m2 d2 h2 n2 s2 u2 z2].
  unfold str_datetime in H.
  cbn [year month day hour minute second microsecond tzinfo] in *.
  rewrite <- !app_assoc in H.
  cut_digits H Ey. apply digits4_inj in Ey; [|lia|lia]. cut_char H.
  cut_digits H Em. apply digits2_inj in Em; [|lia|lia]. cut_char H.
  cut_digits H Ed. apply digits2_inj in Ed; [|lia|lia]. cut_char H.
  cut_digits H Eh. apply digits2_inj in Eh; [|lia|lia]. cut_char H.
  cut_digits H En. apply digits2_inj in En; [|lia|lia]. cut_char H.
  cut_digits H Es. apply digits2_inj in Es; [|lia|lia].
  assert (Hhead : forall (z : option Z) (T : str),
             ~ starts_with "."%char
                 (match z with
                  | Some off => format_offset off
                  | None => []
                  end ++ "|"%char :: T)).
  { intros [off|] T; [|apply bar_not_point].
    destruct (format_offset_head off) as (c & r & -> & [-> | ->]);
      cbn; discriminate. }
  apply fraction_inj in H as [Eu H]; [|exact ua|exact ub|apply Hhead..].
  subst. destruct z1 as [o1|], z2 as [o2|].
  - apply format_offset_inj in H as [-> ->]; auto.
  - destruct (format_offset_head o1) as (c & r & E & [-> | ->]);
      rewrite E in H; discriminate.
  - destruct (format_offset_head o2) as (c & r & E & [-> | ->]);
      rewrite E in H; discriminate.
  - apply cons_eq_inv in H as [_ ->]. auto.
Qed.

Transparent digits.

(* ================================================================== *)
(** ** The three tiers on one target *)
(* ================================================================== *)

Section Tiers.

Variable pytz_timezone : str -> option zone.
Variable config : Config.

Local Abbreviation times_match := (Engine.times_match pytz_timezone config).
Local Abbreviation has_significant_time_difference :=
  (Engine.has_significant_time_difference pytz_timezone config).
Local Abbreviation instant_of := (Engine.instant_of pytz_timezone config).
Local Abbreviation common_line := (Engine.common_line pytz_timezone config).
Local Abbreviation match_gap := (Engine.match_gap pytz_timezone config).
Local Abbreviation instant_gap := (Engine.instant_gap pytz_timezone config).
Local Abbreviation normalize_time_utc :=
  (Engine.normalize_time_utc pytz_timezone config).
Local Abbreviation needs_update := (Engine.needs_update pytz_timezone config).
Local Abbreviation is_reschedule_of :=
  (Engine.is_reschedule_of pytz_timezone config).
Local Abbreviation is_similar_to :=
  (Engine.is_similar_to pytz_timezone config).
Local Abbreviation find_rescheduled_event :=
  (Engine.find_rescheduled_event pytz_timezone config).
Local Abbreviation find_similar_event :=
  (Engine.find_similar_event pytz_timezone config).
Local Abbreviation classify := (Engine.classify pytz_timezone config).

(** [_has_significant_time_difference] on four datetimes: the instants
    of the starts or those of the ends are more than 300 seconds apart;
    false when one cannot be converted. *)
Lemma has_significant_char (a b c d : datetime) :
  has_significant_time_difference (Some a) (Some b) (Some c) (Some d) =
    match instant_gap a b, instant_gap c d with
    | Some k, Some k' => (300 * US <? k) || (300 * US <? k')
    | _, _ => false
    end.
Proof.
  unfold Engine.has_significant_time_difference, Engine.instant_gap.
  pose proof (normalize_time_utc_instant pytz_timezone config a) as Ha.
  pose proof (normalize_time_utc_instant pytz_timezone config b) as Hb.
  pose proof (normalize_time_utc_instant pytz_timezone config c) as Hc.
  pose proof (normalize_time_utc_instant pytz_timezone config d) as Hd.
  destruct (instant_of a); [rewrite Ha | destruct Ha as [e ->]];
    cbn [rbind]; [|reflexivity].
  destruct (instant_of b); [rewrite Hb | destruct Hb as [e ->]];
    cbn [rbind]; [|reflexivity].
  destruct (instant_of c); [rewrite Hc | destruct Hc as [e ->]];
    cbn [rbind]; [|reflexivity].
  destruct (instant_of d); [rewrite Hd | destruct Hd as [e ->]];
    cbn [rbind]; reflexivity.
Qed.

(** Without a collision of MD5 on the two events, two events with the
    same normalized title and the same hash have the same start. *)
Lemma same_hash_same_start (s t : Event) (a b : datetime) :
  (calculate_event_hash s = calculate_event_hash t ->
   hash_string s = hash_string t) ->
  normalize_text (summary s) = normalize_text (summary t) ->
  start s = Some a -> start t = Some b ->
  valid a = true -> valid b = true ->
  calculate_event_hash s = calculate_event_hash t -> a = b.
Proof.
  intros Hnc Hsum Sa Sb Va Vb Hh. apply Hnc in Hh.
  unfold hash_string in Hh. rewrite Hsum, Sa, Sb in Hh.
  apply app_inv_head in Hh. cbn [lit list_ascii_of_string app str_time] in Hh.
  apply cons_eq_inv in Hh as [_ Hh].
  now apply str_datetime_inj in Hh as [-> _].
Qed.

Lemma match_gap_same (a : datetime) (g : Z) :
  match_gap a a = Some g -> g = 0.
Proof.
  unfold Engine.match_gap, Engine.common_line.
  destruct (tzinfo a); [destruct (instant_of a)|]; intros [= <-]; lia.
Qed.

Lemma instant_gap_same (a : datetime) (k : Z) :
  instant_gap a a = Some k -> k = 0.
Proof.
  unfold Engine.instant_gap. destruct (instant_of a); intros [= <-]; lia.
Qed.



Lemma find_single {A} (f : A -> bool) (x : A) :
  List.find f [x] = if f x then Some x else None.
Proof. reflexivity. Qed.

Section OneTarget.

(** A source event and a target event with the same normalized title,
    both with their times. *)
Variables (s t : Event) (a b c d : datetime).
Hypothesis same_title :
  normalize_text (summary s) = normalize_text (summary t).
Hypothesis start_s : start s = Some a.
Hypothesis start_t : start t = Some b.
Hypothesis end_s : end_ s = Some c.
Hypothesis end_t : end_ t = Some d.
Hypothesis valid_a : valid a = true.
Hypothesis valid_b : valid b = true.

Lemma start_match_gap (g : Z) :
  match_gap a b = Some g ->
  times_match (start s) (start t) = (g <=? 60).
Proof.
  intros Hg. rewrite start_s, start_t.
  rewrite (times_match_char pytz_timezone config a b valid_a valid_b).
  now rewrite Hg.
Qed.

(** Starts that do not match and times without a significant difference:
    no tier matches. *)
Lemma no_tier (g k k' : Z) (avoid_conflicts : bool) :
  (calculate_event_hash s = calculate_event_hash t ->
   hash_string s = hash_string t) ->
  match_gap a b = Some g -> 60 < g ->
  instant_gap a b = Some k -> k <= 300 * US ->
  instant_gap c d = Some k' -> k' <= 300 * US ->
  calculate_event_hash s <> calculate_event_hash t
  /\ find_rescheduled_event s [t] = None
  /\ find_similar_event s [t] = None
  /\ classify (build_target_lookup [t]) [t] avoid_conflicts s = CreateNew.
Proof.
  intros Hnc Hg Hg60 Hk Hk300 Hk' Hk'300.
  assert (Hstart : times_match (start s) (start t) = false).
  { rewrite (start_match_gap g Hg). apply Z.leb_gt. lia. }
  assert (Hhash : calculate_event_hash s <> calculate_event_hash t).
  { intros Hh.
    pose proof (same_hash_same_start s t a b Hnc same_title start_s start_t
                  valid_a valid_b Hh) as E.
    rewrite <- E in Hg. apply match_gap_same in Hg. lia. }
  assert (Hres : find_rescheduled_event s [t] = None).
  { unfold Engine.find_rescheduled_event.
    destruct (_ || _ || _); [reflexivity|]. rewrite find_single.
    unfold Engine.is_reschedule_of.
    rewrite start_s, start_t, end_s, end_t, has_significant_char, Hk, Hk'.
    replace (300 * US <? k) with false by (symmetry; apply Z.ltb_ge; lia).
    replace (300 * US <? k') with false by (symmetry; apply Z.ltb_ge; lia).
    cbn [orb]. now destruct (_ && _). }
  assert (Hsim : find_similar_event s [t] = None).
  { unfold Engine.find_similar_event.
    destruct (_ || _ || _); [reflexivity|]. rewrite find_single.
    unfold Engine.is_similar_to. rewrite Hstart.
    now rewrite andb_false_r. }
  repeat split; auto.
  unfold Engine.classify. rewrite build_target_lookup_single.
  destruct (decide (calculate_event_hash t = calculate_event_hash s));
    [congruence|].
  now rewrite Hres, Hsim.
Qed.

Hypothesis titled : normalize_text (summary s) <> [].
Hypothesis same_description :
  normalize_text (description s) = normalize_text (description t).
Hypothesis valid_c : valid c = true.
Hypothesis valid_d : valid d = true.




End OneTarget.

End Tiers.

(** C10, as the code has it: a source event and a target event with the
    same normalized title, whose starts are more than 60 whole seconds
    apart on their common line and at most 300 seconds apart as instants,
    and whose ends are at most 300 seconds apart as instants.  Unless MD5
    collides on them, no tier matches: the fingerprints differ, the
    reschedule search and the search for a similar event find nothing,
    and the source event is created. *)
Theorem near_duplicate_is_created
    (pytz_timezone : str -> option zone) (config : Config)
    (backend : list Call -> Call -> option str)
    (s t : Event) (a b c d : datetime) (g k k' : Z)
    (direction : Direction) (dry_run avoid_conflicts : bool) (w : World) :
  normalize_text (summary s) = normalize_text (summary t) ->
  start s = Some a -> start t = Some b ->
  end_ s = Some c -> end_ t = Some d ->
  valid a = true -> valid b = true ->
  (calculate_event_hash s = calculate_event_hash t ->
   hash_string s = hash_string t) ->
  match_gap pytz_timezone config a b = Some g -> 60 < g ->
  instant_gap pytz_timezone config a b = Some k -> k <= 300 * US ->
  instant_gap pytz_timezone config c d = Some k' -> k' <= 300 * US ->
  calculate_event_hash s <> calculate_event_hash t
  /\ find_rescheduled_event pytz_timezone config s [t] = None
  /\ find_similar_event pytz_timezone config s [t] = None
  /\ classify pytz_timezone config (build_target_lookup [t]) [t]
       avoid_conflicts s = CreateNew
  /\ fst (sync_events pytz_timezone config backend [s] [t] direction dry_run
            avoid_conflicts w)
     = Ok {| created := 1; updated := 0; skipped := 0 |}.
Proof.
  intros Hsum Sa Sb Sc Sd Va Vb Hnc Hg Hg60 Hk Hk300 Hk' Hk'300.
  destruct (no_tier pytz_timezone config s t a b c d Hsum Sa Sb Sc Sd Va Vb
              g k k' avoid_conflicts Hnc Hg Hg60 Hk Hk300 Hk' Hk'300)
    as (H1 & H2 & H3 & H4).
  repeat split; auto.
  destruct (sync_events_ok pytz_timezone config backend [s] [t] direction
              dry_run avoid_conflicts w) as (w' & -> & _).
  cbn [fst]. unfold tally. cbn [fold_left]. now rewrite H4.
Qed.

Lemma near_duplicate_is_created_witness :
  classify sample_pytz sample_config
    (build_target_lookup [standup "" (Some t_0900) (Some t_0930)])
    [standup "" (Some t_0900) (Some t_0930)] false
    (standup "" (Some t_0902) (Some t_0930))
  = CreateNew.
Proof.
  apply (near_duplicate_is_created sample_pytz sample_config
           reliable_backend
           (standup "" (Some t_0902) (Some t_0930))
           (standup "" (Some t_0900) (Some t_0930))
           t_0902 t_0900 t_0930 t_0930 120 (120 * US) 0
           google_to_icloud false false empty_world);
    try reflexivity; try (vm_compute; congruence).
Defined.

(** C10 fails below the second: starts 60.5 seconds apart are more than
    60 and at most 300 seconds apart, the ends are equal, but
    [_times_match] truncates to whole seconds and finds 60: the search
    for a similar event matches and the source event is skipped, not
    created. *)
Lemma near_duplicate_below_the_second :
  instant_gap sample_pytz sample_config t_0901_half t_0900
  = Some (60500000)
  /\ classify sample_pytz sample_config
       (build_target_lookup [standup "" (Some t_0900) (Some t_0930)])
       [standup "" (Some t_0900) (Some t_0930)] false
       (standup "" (Some t_0901_half) (Some t_0930))
     = SimilarSkip
  /\ fst (sync_events sample_pytz sample_config reliable_backend
            [standup "" (Some t_0901_half) (Some t_0930)]
            [standup "" (Some t_0900) (Some t_0930)]
            google_to_icloud false false empty_world)
     = Ok {| created := 0; updated := 0; skipped := 1 |}.
Proof. repeat split; vm_compute; reflexivity. Qed.




(* ================================================================== *)
(** ** The scenarios of the specification *)
(* ================================================================== *)

(** A create whose backend call raises is printed as an error and still
    counted; the line of the event follows. *)
Example failed_create_is_counted :
  sync_events sample_pytz sample_config failing_backend
    [standup_a] [] google_to_icloud false false empty_world
  = (Ok {| created := 1; updated := 0; skipped := 0 |},
     {| calls := [icloud_create_event (convert_to_icloud_format standup_a)];
        output :=
          [PrintErrorCreating standup_a (BackendError (lit "HttpError"));
           PrintCreating false standup_a google_to_icloud] |}).
Proof. vm_compute. reflexivity. Qed.

(** The same pass under [dry_run]: the same counters, no call. *)
Example dry_run_create :
  sync_events sample_pytz sample_config failing_backend
    [standup_a] [] google_to_icloud true false empty_world
  = (Ok {| created := 1; updated := 0; skipped := 0 |},
     {| calls := [];
        output := [PrintCreating true standup_a google_to_icloud] |}).
Proof. vm_compute. reflexivity. Qed.

(** Source and target identical: one skip. *)
Example identical_is_skipped :
  fst (sync_events sample_pytz sample_config reliable_backend
         [standup_a] [standup_a] google_to_icloud false false empty_world)
  = Ok {| created := 0; updated := 0; skipped := 1 |}.
Proof. vm_compute. reflexivity. Qed.

(** The same title one hour later: a reschedule, one update; in
    bidirectional mode the pass of the losing side skips it. *)
Example one_hour_later_is_rescheduled :
  fst (sync_events sample_pytz sample_config reliable_backend
         [standup "" (Some (utc_time 10 0 0 0)) (Some (utc_time 10 30 0 0))]
         [standup "" (Some t_0900) (Some t_0930)]
         google_to_icloud false false empty_world)
  = Ok {| created := 0; updated := 1; skipped := 0 |}
  /\ fst (sync_bidirectional sample_pytz sample_config reliable_backend
            [standup "" (Some (utc_time 10 0 0 0))
               (Some (utc_time 10 30 0 0))]
            [standup "" (Some t_0900) (Some t_0930)]
            false empty_world)
     = Ok {| events_processed := 2; events_created := 0;
             events_updated := 1; events_deleted := 0;
             events_skipped := 1 |}.
Proof. split; vm_compute; reflexivity. Qed.

(** [hashlib.md5(b"abc").hexdigest()] *)
Example md5_abc :
  MD5.hexdigest (encode (lit "abc")) = "900150983cd24fb0d6963f7d28e17f72"%string.
Proof. vm_compute. reflexivity. Qed.

(* ================================================================== *)
(** ** Further properties of the matcher *)
(* ================================================================== *)

Lemma find_first {A} (f : A -> bool) (l : list A) (x : A) :
  List.find f l = Some x ->
  exists before after,
    l = before ++ x :: after
    /\ Forall (fun y => f y = false) before /\ f x = true.
Proof.
  induction l as [|y l IH]; [discriminate|]. cbn [List.find].
  destruct (f y) eqn:Hy.
  - intros [= ->]. exists [], l. auto.
  - intros H. destruct (IH H) as (before & after & -> & Hb & Hx).
    exists (y :: before), after. auto.
Qed.

Section MatcherFacts.

Variable pytz_timezone : str -> option zone.
Variable config : Config.

Local Abbreviation times_match := (Engine.times_match pytz_timezone config).
Local Abbreviation has_significant_time_difference :=
  (Engine.has_significant_time_difference pytz_timezone config).
Local Abbreviation instant_of := (Engine.instant_of pytz_timezone config).
Local Abbreviation match_gap := (Engine.match_gap pytz_timezone config).
Local Abbreviation instant_gap := (Engine.instant_gap pytz_timezone config).
Local Abbreviation needs_update := (Engine.needs_update pytz_timezone config).
Local Abbreviation is_reschedule_of :=
  (Engine.is_reschedule_of pytz_timezone config).
Local Abbreviation is_similar_to :=
  (Engine.is_similar_to pytz_timezone config).
Local Abbreviation find_rescheduled_event :=
  (Engine.find_rescheduled_event pytz_timezone config).
Local Abbreviation find_similar_event :=
  (Engine.find_similar_event pytz_timezone config).

(** [_times_match]: every datetime matches itself, whether or not it can
    be converted to UTC. *)
Theorem times_match_reflexive (t : datetime) :
  times_match (Some t) (Some t) = true.
Proof. apply times_match_refl. Qed.

(** [_needs_update] does not depend on which event is the source and
    which the target. *)
Theorem needs_update_symmetric (s t : Event) :
  needs_update s t = needs_update t s.
Proof.
  unfold Engine.needs_update.
  rewrite (str_eqb_sym (normalize_text (summary t))).
  rewrite (str_eqb_sym (normalize_text (description t))).
  rewrite (times_match_comm pytz_timezone config (start t)).
  rewrite (times_match_comm pytz_timezone config (end_ t)).
  reflexivity.
Qed.

(** [_needs_update] of an event against itself: it is up to date exactly
    when it has its start and its end. *)
Theorem needs_update_self (s : Event) :
  needs_update s s = false <-> start s <> None /\ end_ s <> None.
Proof.
  unfold Engine.needs_update. rewrite !str_eqb_refl. cbn [negb].
  destruct (start s) as [a|], (end_ s) as [c|].
  - rewrite !(times_match_refl pytz_timezone config). cbn [negb].
    split; [intros _; split; discriminate | reflexivity].
  - rewrite (times_match_refl pytz_timezone config a). cbn.
    split; [discriminate | intros [_ H]; congruence].
  - cbn. split; [discriminate | intros [H _]; congruence].
  - cbn. split; [discriminate | intros [H _]; congruence].
Qed.

Lemma instant_gap_sym (a b : datetime) : instant_gap a b = instant_gap b a.
Proof.
  unfold Engine.instant_gap.
  destruct (instant_of a), (instant_of b); auto. f_equal. lia.
Qed.

Lemma has_significant_sym
    (source_start target_start source_end target_end : option datetime) :
  has_significant_time_difference source_start target_start
    source_end target_end
  = has_significant_time_difference target_start source_start
      target_end source_end.
Proof.
  destruct source_start as [a|], target_start as [b|],
    source_end as [c|], target_end as [d|]; try reflexivity.
  rewrite !has_significant_char.
  now rewrite (instant_gap_sym a b), (instant_gap_sym c d).
Qed.

(** [_has_significant_time_difference] gives the same answer when the
    source times and the target times are exchanged. *)
Theorem has_significant_time_difference_swap
    (source_start target_start source_end target_end : option datetime) :
  has_significant_time_difference source_start target_start
    source_end target_end
  = has_significant_time_difference target_start source_start
      target_end source_end.
Proof. apply has_significant_sym. Qed.

Lemma is_reschedule_of_sym (s t : Event) :
  is_reschedule_of s t = is_reschedule_of t s.
Proof.
  unfold Engine.is_reschedule_of.
  rewrite (str_eqb_sym (normalize_text (summary t))).
  rewrite (str_eqb_sym (normalize_text (description t))).
  rewrite (times_match_comm pytz_timezone config (start t)).
  rewrite (times_match_comm pytz_timezone config (end_ t)).
  rewrite (has_significant_sym (start t)).
  destruct (is_empty (normalize_text (description s))),
    (is_empty (normalize_text (description t))); reflexivity.
Qed.

(** The test of [_find_rescheduled_event] is symmetric: [t] is a
    reschedule of [s] exactly when [s] is one of [t]. *)
Theorem is_reschedule_of_symmetric (s t : Event) :
  is_reschedule_of s t = is_reschedule_of t s.
Proof. apply is_reschedule_of_sym. Qed.

(** No target is both a reschedule of a source event and similar to
    it. *)
Theorem reschedule_is_not_similar (s t : Event) :
  is_reschedule_of s t = true -> is_similar_to s t = false.
Proof.
  unfold Engine.is_reschedule_of, Engine.is_similar_to.
  destruct (times_match (start s) (start t)),
    (times_match (end_ s) (end_ t)); cbn [andb negb];
    rewrite ?andb_false_r; auto.
  discriminate.
Qed.

Lemma is_reschedule_of_true (s t : Event) :
  is_reschedule_of s t = true ->
  normalize_text (summary s) = normalize_text (summary t)
  /\ normalize_text (description s) = normalize_text (description t)
  /\ has_significant_time_difference (start s) (start t) (end_ s) (end_ t)
     = true
  /\ (times_match (start s) (start t) = false
      \/ times_match (end_ s) (end_ t) = false).
Proof.
  unfold Engine.is_reschedule_of.
  destruct (str_eqb _ _) eqn:Hs at 1; [|discriminate].
  apply str_eqb_true in Hs. cbn [andb].
  destruct (times_match (start s) (start t)) eqn:H1,
    (times_match (end_ s) (end_ t)) eqn:H2; cbn [andb negb];
    try discriminate;
    (destruct (has_significant_time_difference _ _ _ _); [|discriminate];
     intros H; repeat split; auto;
     apply orb_true_iff in H as [H | H];
     [ apply andb_true_iff in H as [_ H]; now apply str_eqb_true in H
     | apply andb_true_iff in H as [Ha Hb];
       destruct (normalize_text (description s)); [|discriminate];
       destruct (normalize_text (description t)); [reflexivity|discriminate]
     ]).
Qed.

(** What [_find_rescheduled_event] returns is the first target, in the
    order of the list, with the normalized title of the source event and
    its normalized description, whose times differ significantly and do
    not both match; the title is not empty. *)
Theorem find_rescheduled_event_sound
    (s t : Event) (target_events : list Event) :
  find_rescheduled_event s target_events = Some t ->
  (exists before after,
      target_events = before ++ t :: after
      /\ Forall (fun x => is_reschedule_of s x = false) before)
  /\ normalize_text (summary s) <> []
  /\ normalize_text (summary s) = normalize_text (summary t)
  /\ normalize_text (description s) = normalize_text (description t)
  /\ has_significant_time_difference (start s) (start t) (end_ s) (end_ t)
     = true
  /\ (times_match (start s) (start t) = false
      \/ times_match (end_ s) (end_ t) = false).
Proof.
  unfold Engine.find_rescheduled_event.
  destruct (normalize_text (summary s)) as [|c n] eqn:Hn; [discriminate|].
  cbn [is_empty orb].
  destruct (_ || _); [discriminate|]. intros H.
  apply find_first in H as (before & after & E & Hb & Ht).
  apply is_reschedule_of_true in Ht as (H1 & H2 & H3 & H4).
  rewrite Hn in H1.
  split; [eauto|]. repeat split; auto; discriminate.
Qed.

(** What [_find_similar_event] returns is the first target with the
    normalized title of the source event whose start and end both match;
    the title is not empty. *)
Theorem find_similar_event_sound
    (s t : Event) (target_events : list Event) :
  find_similar_event s target_events = Some t ->
  (exists before after,
      target_events = before ++ t :: after
      /\ Forall (fun x => is_similar_to s x = false) before)
  /\ normalize_text (summary s) <> []
  /\ normalize_text (summary s) = normalize_text (summary t)
  /\ times_match (start s) (start t) = true
  /\ times_match (end_ s) (end_ t) = true.
Proof.
  unfold Engine.find_similar_event.
  destruct (normalize_text (summary s)) as [|c n] eqn:Hn; [discriminate|].
  cbn [is_empty orb].
  destruct (_ || _); [discriminate|]. intros H.
  apply find_first in H as (before & after & E & Hb & Ht).
  unfold Engine.is_similar_to in Ht.
  apply andb_true_iff in Ht as [Ht H3].
  apply andb_true_iff in Ht as [H1 H2].
  apply str_eqb_true in H1. rewrite Hn in H1.
  split; [eauto|]. repeat split; auto; discriminate.
Qed.

(** A source event whose title normalizes to the empty text, or without
    start, or without end, is no reschedule and has no similar event, in
    any target list. *)
Theorem searches_need_title_and_times
    (s : Event) (target_events : list Event) :
  normalize_text (summary s) = [] \/ start s = None \/ end_ s = None ->
  find_rescheduled_event s target_events = None
  /\ find_similar_event s target_events = None.
Proof.
  unfold Engine.find_rescheduled_event, Engine.find_similar_event.
  intros [-> | [-> | ->]]; cbn [is_empty is_none orb];
    rewrite ?orb_true_r; auto.
Qed.

(** More than 300 seconds between two instants is more than 60 whole
    seconds. *)
Lemma whole_seconds_above (u v : Z) :
  300 * US < Z.abs (u - v) -> 60 < Z.abs (u / US - v / US).
Proof.
  unfold US. intros H.
  pose proof (Z.div_mod u 1000000 ltac:(lia)).
  pose proof (Z.div_mod v 1000000 ltac:(lia)).
  pose proof (Z.mod_pos_bound u 1000000 ltac:(lia)).
  pose proof (Z.mod_pos_bound v 1000000 ltac:(lia)).
  lia.
Qed.

Lemma significant_gap_no_match (a b : datetime) (k : Z) :
  valid a = true -> valid b = true ->
  tzinfo a <> None \/ tzinfo b <> None ->
  instant_gap a b = Some k -> 300 * US < k ->
  times_match (Some a) (Some b) = false.
Proof.
  intros Va Vb Haware Hk Hk300.
  rewrite (times_match_char pytz_timezone config a b Va Vb).
  unfold Engine.match_gap, Engine.common_line.
  unfold Engine.instant_gap in Hk.
  destruct (instant_of a) as [u|]; [|discriminate].
  destruct (instant_of b) as [v|]; [|discriminate].
  injection Hk as <-. apply whole_seconds_above in Hk300.
  destruct (tzinfo a), (tzinfo b); try (apply Z.leb_gt; lia).
  destruct Haware; congruence.
Qed.

(** When no pair of times is naive on both sides, a significant
    difference implies that the times do not both match: the second test
    of [_find_rescheduled_event] then follows from its third. *)
Theorem significant_difference_implies_no_match (a b c d : datetime) :
  valid a = true -> valid b = true -> valid c = true -> valid d = true ->
  tzinfo a <> None \/ tzinfo b <> None ->
  tzinfo c <> None \/ tzinfo d <> None ->
  has_significant_time_difference (Some a) (Some b) (Some c) (Some d)
  = true ->
  times_match (Some a) (Some b) && times_match (Some c) (Some d) = false.
Proof.
  intros Va Vb Vc Vd Hab Hcd. rewrite has_significant_char.
  destruct (instant_gap a b) as [k|] eqn:Hk; [|discriminate].
  destruct (instant_gap c d) as [k'|] eqn:Hk'; [|discriminate].
  intros H. apply orb_true_iff in H as [H | H]; apply Z.ltb_lt in H.
  - now rewrite (significant_gap_no_match a b k).
  - rewrite (significant_gap_no_match c d k') by assumption.
    apply andb_false_r.
Qed.

End MatcherFacts.

(* ================================================================== *)
(** ** Further properties of the pass *)
(* ================================================================== *)

(** The lookup built by [_sync_events] holds, for a hash, the last target
    of the list with that hash. *)
Theorem build_target_lookup_last (target_events : list Event) (h : string) :
  build_target_lookup target_events !! h
  = List.find (fun t => bool_decide (calculate_event_hash t = h))
      (rev target_events).
Proof.
  unfold build_target_lookup.
  induction target_events as [|t ts IH] using rev_ind.
  - cbn. apply lookup_empty.
  - rewrite fold_left_app, rev_app_distr. cbn [fold_left rev app List.find].
    destruct (decide (calculate_event_hash t = h)) as [E | N].
    + rewrite bool_decide_eq_true_2 by assumption. rewrite E.
      apply lookup_insert_eq.
    + rewrite bool_decide_eq_false_2 by assumption.
      now rewrite lookup_insert_ne.
Qed.

Section PassCalls.

Variable pytz_timezone : str -> option zone.
Variable config : Config.
Variable backend : list Call -> Call -> option str.

Local Abbreviation perform := (Engine.perform pytz_timezone config backend).
Local Abbreviation classify := (Engine.classify pytz_timezone config).
Local Abbreviation sync_event :=
  (Engine.sync_event pytz_timezone config backend).
Local Abbreviation sync_events :=
  (Engine.sync_events pytz_timezone config backend).
Local Abbreviation sync_bidirectional :=
  (Engine.sync_bidirectional pytz_timezone config backend).
Local Abbreviation tally := (Engine.tally pytz_timezone config).

(** The calls of one branch towards iCloud: one create for a new event,
    nothing else. *)
Lemma perform_calls_to_icloud (ev : Event) (d : Decision) (w : World) :
  exists w',
    perform google_to_icloud false ev d w = (Ok tt, w')
    /\ calls w'
       = calls w
         ++ (if is_create d
             then [icloud_create_event (convert_to_icloud_format ev)]
             else []).
Proof.
  destruct d; cbn [Engine.perform is_create negb when_]; unfold bind, print.
  - rewrite update_event_in_target_google_to_icloud. cbn.
    eexists; split; eauto. cbn. now rewrite app_nil_r.
  - eexists; split; eauto. cbn. now rewrite app_nil_r.
  - eexists; split; eauto. cbn. now rewrite app_nil_r.
  - rewrite update_event_in_target_google_to_icloud. cbn.
    eexists; split; eauto. cbn. now rewrite app_nil_r.
  - eexists; split; eauto. cbn. now rewrite app_nil_r.
  - rewrite create_event_in_target_google_to_icloud. cbn.
    eexists; split; eauto.
Qed.

Lemma for_each_calls_to_icloud
    (target_lookup : gmap string Event) (target_events : list Event)
    (avoid_conflicts : bool) (source_events : list Event) :
  forall (stats : Stats) (w : World),
  exists stats' w',
    for_each (sync_event target_lookup target_events google_to_icloud false
                avoid_conflicts) source_events stats w
    = (Ok stats', w')
    /\ calls w'
       = calls w
         ++ map (fun ev => icloud_create_event (convert_to_icloud_format ev))
              (filter (fun ev =>
                         is_create (classify target_lookup target_events
                                      avoid_conflicts ev))
                 source_events).
Proof.
  induction source_events as [|ev evs IH]; intros stats w; cbn [for_each].
  - exists stats, w. cbn. now rewrite app_nil_r.
  - unfold bind. rewrite sync_event_classify. cbn zeta. unfold bind.
    destruct (perform_calls_to_icloud ev
                (classify target_lookup target_events avoid_conflicts ev) w)
      as (w1 & -> & H1).
    cbn [ret].
    destruct (IH (count (classify target_lookup target_events
                           avoid_conflicts ev) stats) w1)
      as (stats' & w' & -> & H2).
    exists stats', w'. split; [reflexivity|].
    rewrite H2, H1. cbn [filter].
    destruct (is_create _); cbn [map app]; now rewrite <- app_assoc.
Qed.

Lemma created_counts_creates {A} (f : A -> Decision) (l : list A) :
  forall stats,
    created (fold_left (fun stats x => count (f x) stats) l stats)
    = created stats
      + Z.of_nat (List.length (filter (fun x => is_create (f x)) l)).
Proof.
  induction l as [|x l IH]; intros stats; cbn [fold_left filter].
  - cbn. lia.
  - rewrite IH. destruct (f x); cbn; lia.
Qed.

(** A pass towards iCloud that is not a dry run calls the backend once
    for each source event it classifies as new, in the order of the
    source list, with the payload of that event, and makes no other call:
    the updates it counts reach no backend.  The number of calls is the
    counter [created]. *)
Theorem pass_to_icloud_only_creates
    (source_events target_events : list Event) (avoid_conflicts : bool)
    (w : World) :
  let new_events :=
    filter (fun ev =>
              is_create (classify (build_target_lookup target_events)
                           target_events avoid_conflicts ev))
      source_events in
  calls (snd (sync_events source_events target_events google_to_icloud
                false avoid_conflicts w))
  = calls w
    ++ map (fun ev => icloud_create_event (convert_to_icloud_format ev))
         new_events
  /\ created (tally source_events target_events avoid_conflicts)
     = Z.of_nat (List.length new_events).
Proof.
  cbn zeta. split.
  - unfold Engine.sync_events.
    destruct (for_each_calls_to_icloud (build_target_lookup target_events)
                target_events avoid_conflicts source_events
                {| created := 0; updated := 0; skipped := 0 |} w)
      as (stats' & w' & -> & H).
    exact H.
  - unfold Engine.tally. now rewrite created_counts_creates.
Qed.

Ltac no_call :=
  eexists _, []; split; [reflexivity|]; cbn; rewrite app_nil_r;
  repeat split; auto; fail.

Lemma perform_calls_to_google (dry_run : bool) (ev : Event) (d : Decision)
    (w : World) :
  exists w' cs,
    perform icloud_to_google dry_run ev d w = (Ok tt, w')
    /\ calls w' = calls w ++ cs
    /\ Forall (fun c => is_google_call c = true) cs
    /\ (List.length cs <= 1)%nat.
Proof.
  assert (Hnil : forall w0 : World, calls w0 = calls w0 ++ [])
    by (intros; now rewrite app_nil_r).
  destruct d; cbn [Engine.perform]; unfold bind, print, when_, ret;
    destruct dry_run; cbn [negb];
    try no_call.
  - rewrite update_event_in_target_icloud_to_google.
    destruct (convert_to_google_format _ _ _);
      [destruct (id_ target_event) as [i|]; [destruct (is_empty i)|]|];
      try no_call.
    eexists _, [_]; split; [reflexivity|]; cbn; repeat split; auto.
  - rewrite update_event_in_target_icloud_to_google.
    destruct (convert_to_google_format _ _ _);
      [destruct (id_ rescheduled_event) as [i|]; [destruct (is_empty i)|]|];
      try no_call.
    eexists _, [_]; split; [reflexivity|]; cbn; repeat split; auto.
  - rewrite create_event_in_target_icloud_to_google.
    destruct (convert_to_google_format _ _ _);
      try no_call.
    eexists _, [_]; split; [reflexivity|]; cbn; repeat split; auto.
Qed.

(** A pass towards Google calls the Google client only, at most once for
    each source event. *)
Theorem pass_to_google_calls_google_only
    (source_events target_events : list Event)
    (dry_run avoid_conflicts : bool) (w : World) :
  exists cs,
    calls (snd (sync_events source_events target_events icloud_to_google
                  dry_run avoid_conflicts w))
    = calls w ++ cs
    /\ Forall (fun c => is_google_call c = true) cs
    /\ (List.length cs <= List.length source_events)%nat.
Proof.
  unfold Engine.sync_events.
  generalize {| created := 0; updated := 0; skipped := 0 |}.
  generalize (build_target_lookup target_events) as target_lookup.
  intros target_lookup stats. revert stats w.
  induction source_events as [|ev evs IH]; intros stats w; cbn [for_each].
  - exists []. cbn. rewrite app_nil_r. auto.
  - unfold bind. rewrite sync_event_classify. cbn zeta. unfold bind.
    destruct (perform_calls_to_google dry_run ev
                (classify target_lookup target_events avoid_conflicts ev) w)
      as (w1 & c1 & -> & H1 & F1 & L1).
    cbn [ret].
    destruct (IH (count (classify target_lookup target_events
                           avoid_conflicts ev) stats) w1)
      as (c2 & H2 & F2 & L2).
    destruct (for_each _ evs _ w1) as [r w2]. cbn [snd] in *.
    exists (c1 ++ c2). rewrite length_app. cbn [List.length].
    repeat split.
    + destruct r; cbn [snd]; now rewrite H2, H1, app_assoc.
    + now apply Forall_app.
    + lia.
Qed.

Lemma classify_avoid_conflicts
    (target_lookup : gmap string Event) (target_events : list Event)
    (ev : Event) :
  classify target_lookup target_events true ev
  = match classify target_lookup target_events false ev with
    | RescheduleUpdate _ => RescheduleSkip
    | d => d
    end.
Proof.
  unfold Engine.classify. destruct (target_lookup !! _).
  - now destruct (needs_update _ _ _ _).
  - destruct (find_rescheduled_event _ _ _ _); auto.
    now destruct (find_similar_event _ _ _ _).
Qed.

(** [avoid_conflicts] never changes the number of creates of a pass: it
    moves events from [updated] to [skipped]. *)
Theorem avoid_conflicts_moves_updates_to_skips
    (source_events target_events : list Event) :
  let free := tally source_events target_events false in
  let deferring := tally source_events target_events true in
  created deferring = created free
  /\ updated deferring <= updated free
  /\ skipped free <= skipped deferring
  /\ updated deferring + skipped deferring = updated free + skipped free.
Proof.
  cbn zeta. unfold Engine.tally.
  generalize (build_target_lookup target_events) as target_lookup.
  intros target_lookup.
  assert (H : forall s0 s1,
             created s1 = created s0 /\ updated s1 <= updated s0
             /\ skipped s0 <= skipped s1
             /\ updated s1 + skipped s1 = updated s0 + skipped s0 ->
             let f avoid := fun stats ev =>
               count (classify target_lookup target_events avoid ev) stats in
             created (fold_left (f true) source_events s1)
             = created (fold_left (f false) source_events s0)
             /\ updated (fold_left (f true) source_events s1)
                <= updated (fold_left (f false) source_events s0)
             /\ skipped (fold_left (f false) source_events s0)
                <= skipped (fold_left (f true) source_events s1)
             /\ updated (fold_left (f true) source_events s1)
                + skipped (fold_left (f true) source_events s1)
                = updated (fold_left (f false) source_events s0)
                  + skipped (fold_left (f false) source_events s0)).
  { induction source_events as [|ev evs IH]; intros s0 s1 Hs; cbn zeta;
      cbn [fold_left]; [exact Hs|].
    apply IH. rewrite classify_avoid_conflicts.
    destruct (classify target_lookup target_events false ev); cbn; lia. }
  apply H. cbn. lia.
Qed.

End PassCalls.

(* ================================================================== *)
(** ** Further properties of [sync] and of the bidirectional mode *)
(* ================================================================== *)

Section SessionFacts.

Variable pytz_timezone : str -> option zone.
Variable config : Config.
Variable backend : list Call -> Call -> option str.

Local Abbreviation classify := (Engine.classify pytz_timezone config).
Local Abbreviation sync_events :=
  (Engine.sync_events pytz_timezone config backend).
Local Abbreviation sync_bidirectional :=
  (Engine.sync_bidirectional pytz_timezone config backend).
Local Abbreviation tally := (Engine.tally pytz_timezone config).
Local Abbreviation find_rescheduled_event :=
  (Engine.find_rescheduled_event pytz_timezone config).

(** The bidirectional mode returns the sums of the counters of its two
    passes; the pass of the side that loses defers. *)
Lemma sync_bidirectional_ok
    (google_events icloud_events : list Event) (dry_run : bool) (w : World) :
  let winner :=
    if str_eqb (source_of_truth config) (lit "auto") then lit "google"
    else source_of_truth config in
  let google_wins := str_eqb winner (lit "google") in
  let to_icloud := tally google_events icloud_events (negb google_wins) in
  let to_google := tally icloud_events google_events google_wins in
  exists w',
    sync_bidirectional google_events icloud_events dry_run w
    = (Ok {| events_processed := len google_events + len icloud_events;
             events_created := created to_icloud + created to_google;
             events_updated := updated to_icloud + updated to_google;
             events_deleted := 0;
             events_skipped := skipped to_icloud + skipped to_google |}, w')
    /\ (dry_run = true -> calls w' = calls w).
Proof.
  cbn zeta.
  set (winner := if str_eqb (source_of_truth config) (lit "auto")
                 then lit "google" else source_of_truth config).
  set (w0 := if dry_run then say (PrintBidirectionalMode winner) w else w).
  assert (Hmode : when_ dry_run (print (PrintBidirectionalMode winner)) w
                  = (Ok tt, w0))
    by (subst w0; now destruct dry_run).
  assert (Hw0 : calls w0 = calls w) by (subst w0; now destruct dry_run).
  unfold Engine.sync_bidirectional. cbv zeta. fold winner.
  unfold bind at 1. rewrite Hmode.
  destruct (str_eqb winner (lit "google")); cbn [negb].
  - destruct (sync_events_ok pytz_timezone config backend google_events
                icloud_events google_to_icloud dry_run false w0)
      as (w1 & H1 & _ & _ & D1).
    destruct (sync_events_ok pytz_timezone config backend icloud_events
                google_events icloud_to_google dry_run true w1)
      as (w2 & H2 & _ & _ & D2).
    exists w2. split.
    + unfold bind, ret. now rewrite H1, H2.
    + intros Hd. now rewrite D2, D1.
  - destruct (sync_events_ok pytz_timezone config backend icloud_events
                google_events icloud_to_google dry_run false w0)
      as (w1 & H1 & _ & _ & D1).
    destruct (sync_events_ok pytz_timezone config backend google_events
                icloud_events google_to_icloud dry_run true w1)
      as (w2 & H2 & _ & _ & D2).
    exists w2. split.
    + unfold bind, ret. rewrite H1, H2. do 2 f_equal.
      f_equal; lia.
    + intros Hd. now rewrite D2, D1.
Qed.

Lemma reschedule_single (s t : Event) (avoid_conflicts : bool) :
  find_rescheduled_event s [t] = Some t ->
  calculate_event_hash s <> calculate_event_hash t ->
  classify (build_target_lookup [t]) [t] avoid_conflicts s
  = if avoid_conflicts then RescheduleSkip else RescheduleUpdate t.
Proof.
  intros Hres Hh. unfold Engine.classify.
  rewrite build_target_lookup_single.
  destruct (decide _); [congruence|]. now rewrite Hres.
Qed.

(** The reschedule search is symmetric on one target: when [t] is found
    as the reschedule of [s], [s] is found as the reschedule of [t]. *)
Lemma find_rescheduled_event_swap (s t : Event) :
  find_rescheduled_event s [t] = Some t ->
  find_rescheduled_event t [s] = Some s.
Proof.
  intros H. unfold Engine.find_rescheduled_event in H.
  destruct (is_empty (normalize_text (summary s)) || is_none (start s)
            || is_none (end_ s)) eqn:G; [discriminate|].
  rewrite find_single in H.
  destruct (is_reschedule_of pytz_timezone config s t) eqn:Hr;
    [|discriminate].
  destruct (is_reschedule_of_true pytz_timezone config s t Hr)
    as (Hsum & _ & Hsig & _).
  apply orb_false_iff in G as [G _]. apply orb_false_iff in G as [G _].
  unfold Engine.find_rescheduled_event. rewrite <- Hsum, G. cbn [orb].
  unfold Engine.has_significant_time_difference in Hsig.
  destruct (start s), (start t), (end_ s), (end_ t); try discriminate.
  cbn [is_none orb]. rewrite find_single.
  now rewrite is_reschedule_of_sym, Hr.
Qed.

(** Conflict deferral: a Google event and an iCloud event that are
    reschedules of each other.  Whichever side is the source of truth,
    the bidirectional mode counts one update, in the pass of the winner,
    and one skip, in the pass of the other side. *)
Theorem conflict_deferral
    (s t : Event) (dry_run : bool) (w : World) :
  find_rescheduled_event s [t] = Some t ->
  calculate_event_hash s <> calculate_event_hash t ->
  fst (sync_bidirectional [s] [t] dry_run w)
  = Ok {| events_processed := 2; events_created := 0; events_updated := 1;
          events_deleted := 0; events_skipped := 1 |}.
Proof.
  intros Hres Hh.
  pose proof (find_rescheduled_event_swap s t Hres) as Hres'.
  assert (Hh' : calculate_event_hash t <> calculate_event_hash s)
    by congruence.
  destruct (sync_bidirectional_ok [s] [t] dry_run w) as (w' & -> & _).
  cbn [fst]. unfold Engine.tally. cbn [fold_left].
  rewrite (reschedule_single s t _ Hres Hh).
  rewrite (reschedule_single t s _ Hres' Hh').
  destruct (str_eqb _ (lit "google")); reflexivity.
Qed.

End SessionFacts.

(* ================================================================== *)
(** ** The text that is hashed *)
(* ================================================================== *)

Lemma digits_no_bar (n : nat) (x : Z) : ~ In "|"%char (digits n x).
Proof.
  revert x. induction n as [|n IH]; intros x; [intros []|].
  cbn [digits]. rewrite in_app_iff. intros [H | [H | []]].
  - exact (IH _ H).
  - apply (f_equal ord) in H.
    pose proof (Z.mod_pos_bound x 10 ltac:(lia)).
    rewrite ord_chr in H by lia. vm_compute ord in H. lia.
Qed.

Lemma not_in_app {A} (x : A) (l l' : list A) :
  ~ In x l -> ~ In x l' -> ~ In x (l ++ l').
Proof. rewrite in_app_iff. tauto. Qed.

Ltac bar_free :=
  repeat first
    [ apply digits_no_bar
    | apply not_in_app
    | match goal with
      | |- ~ In _ (if ?c then _ else _) => destruct c
      | |- ~ In _ (match ?x with Some _ => _ | None => _ end) => destruct x
      | |- ~ In _ [] => intros []
      | |- ~ In _ (lit _) => vm_compute; intuition congruence
      end ].

(** [str] of a datetime or of [None] holds no [|]. *)
Lemma str_time_no_bar (x : option datetime) : ~ In "|"%char (str_time x).
Proof.
  destruct x as [t|]; [|vm_compute; intuition congruence].
  unfold str_time, str_datetime, format_offset. cbv zeta. bar_free.
Qed.

(** A text is cut in one way at its last [|]. *)
Lemma app_bar_inj (A B X Y : str) :
  ~ In "|"%char X -> ~ In "|"%char Y ->
  A ++ "|"%char :: X = B ++ "|"%char :: Y -> A = B /\ X = Y.
Proof.
  intros HX HY. revert B.
  induction A as [|a A IH]; intros [|b B] E; cbn [app] in E.
  - now injection E.
  - injection E as <- ->. exfalso. apply HX, in_or_app. right. now left.
  - injection E as -> <-. exfalso. apply HY, in_or_app. right. now left.
  - injection E as -> E. now destruct (IH B E) as [-> ->].
Qed.

Lemma hash_string_parts (e : Event) :
  hash_string e
  = (normalize_text (summary e) ++ "|"%char :: str_time (start e))
    ++ "|"%char :: str_time (end_ e).
Proof. unfold hash_string. now rewrite <- app_assoc. Qed.

Lemma str_datetime_length (t : datetime) :
  (19 <= List.length (str_datetime t))%nat.
Proof.
  unfold str_datetime. rewrite !length_app, !length_digits. cbn. lia.
Qed.

Lemma str_time_inj (x y : option datetime) :
  valid_time x = true -> valid_time y = true ->
  str_time x = str_time y -> x = y.
Proof.
  destruct x as [a|], y as [b|]; cbn [valid_time str_time];
    intros Va Vb E; auto.
  - apply (f_equal (fun l => l ++ ["|"%char])) in E.
    now destruct (str_datetime_inj a b [] [] Va Vb E) as [-> _].
  - pose proof (str_datetime_length a) as L. rewrite E in L.
    vm_compute in L. lia.
  - pose proof (str_datetime_length b) as L. rewrite <- E in L.
    vm_compute in L. lia.
Qed.

(** The text that [_calculate_event_hash] hashes determines the
    normalized title, the start and the end of the event: a [|] in a
    title cannot be taken for a separator.  Two events whose times are
    valid or [None] and which differ in one of the three have different
    texts, so that their fingerprints are equal only by a collision of
    MD5. *)
Theorem hash_string_injective (s t : Event) :
  valid_time (start s) = true -> valid_time (end_ s) = true ->
  valid_time (start t) = true -> valid_time (end_ t) = true ->
  hash_string s = hash_string t ->
  normalize_text (summary s) = normalize_text (summary t)
  /\ start s = start t /\ end_ s = end_ t.
Proof.
  intros V1 V2 V3 V4 E. rewrite !hash_string_parts in E.
  apply app_bar_inj in E as [E E3]; try apply str_time_no_bar.
  apply app_bar_inj in E as [E1 E2]; try apply str_time_no_bar.
  auto using str_time_inj.
Qed.

Lemma hash_string_injective_witness :
  normalize_text (summary standup_a) = normalize_text (summary standup_b)
  /\ start standup_a = start standup_b /\ end_ standup_a = end_ standup_b.
Proof.
  apply hash_string_injective; reflexivity.
Defined.

(* ================================================================== *)
(** ** The form of a normalized text *)
(* ================================================================== *)

Lemma isspace_lower_char (c : ascii) : isspace (lower_char c) = isspace c.
Proof.
  destruct c as [[] [] [] [] [] [] [] []]; vm_compute; reflexivity.
Qed.

Lemma lower_char_idem (c : ascii) : lower_char (lower_char c) = lower_char c.
Proof.
  destruct c as [[] [] [] [] [] [] [] []]; vm_compute; reflexivity.
Qed.

Lemma lower_char_backslash (c : ascii) :
  lower_char c = backslash -> c = backslash.
Proof.
  destruct c as [[] [] [] [] [] [] [] []]; vm_compute; congruence.
Qed.

Lemma lower_idem (s : str) : lower (lower s) = lower s.
Proof.
  unfold lower. rewrite map_map. apply map_ext, lower_char_idem.
Qed.

Lemma word_lower (w : str) : word w -> word (lower w).
Proof.
  intros [Hne Hw]. split.
  - destruct w; [congruence|discriminate].
  - unfold lower. apply Forall_forall. intros c Hc.
    apply in_map_iff in Hc as (d & <- & Hd).
    rewrite isspace_lower_char. revert d Hd. now apply Forall_forall.
Qed.

Lemma split_is_words (s : str) : Forall word (split s).
Proof.
  induction s as [|c s IH]; [constructor|].
  destruct (isspace c) eqn:Hc; [now rewrite split_space|].
  assert (Wc : word [c]) by (split; [discriminate | now repeat constructor]).
  destruct s as [|d s]; [cbn; rewrite Hc; now repeat constructor|].
  destruct (isspace d) eqn:Hd.
  - rewrite split_word_boundary by assumption. now constructor.
  - destruct (split_word_cons c d s Hc Hd) as (w & ws & E & ->).
    rewrite E in IH. inversion IH as [|? ? [_ Hw] Hws]; subst.
    constructor; [|assumption].
    split; [discriminate | now constructor].
Qed.

Lemma split_one_word (w : str) : word w -> split w = [w].
Proof.
  intros [Hne Hw]. destruct w as [|c w]; [congruence|].
  inversion Hw; subst. now apply split_word.
Qed.

Lemma join_cons2 (sep w w' : str) (ws : list str) :
  join sep (w :: w' :: ws) = w ++ sep ++ join sep (w' :: ws).
Proof. reflexivity. Qed.

(** Splitting what [' '.join] made of words gives the words back. *)
Lemma split_join (ws : list str) :
  Forall word ws -> split (join (lit " ") ws) = ws.
Proof.
  induction 1 as [|w ws Hw Hws IH]; [reflexivity|].
  destruct ws as [|w' ws]; [now apply split_one_word|].
  rewrite join_cons2. rewrite split_app by reflexivity.
  rewrite (split_one_word w Hw).
  change (lit " " ++ ?x) with (" "%char :: x).
  rewrite split_space by reflexivity. now rewrite IH.
Qed.

Lemma join_lower (ws : list str) :
  join (lit " ") (map lower ws) = lower (join (lit " ") ws).
Proof.
  induction ws as [|w ws IH]; [reflexivity|].
  destruct ws as [|w' ws]; [reflexivity|].
  cbn [map] in *. rewrite !join_cons2, IH.
  unfold lower. now rewrite !map_app.
Qed.

(** A text made of words joined by one space has no white space at its
    ends. *)
Lemma join_words_ends (ws : list str) :
  Forall word ws -> ws <> [] ->
  (exists c r, join (lit " ") ws = c :: r /\ isspace c = false)
  /\ (exists c r, join (lit " ") ws = r ++ [c] /\ isspace c = false).
Proof.
  induction 1 as [|w ws Hw Hws IH]; [congruence|]. intros _.
  destruct Hw as [Hne Hw].
  assert (Hfirst : exists c r, w = c :: r /\ isspace c = false).
  { destruct w as [|c r]; [congruence|]. inversion Hw; eauto. }
  assert (Hlast : exists c r, w = r ++ [c] /\ isspace c = false).
  { destruct (exists_last Hne) as (r & c & ->). exists c, r. split; auto.
    apply Forall_app in Hw as [_ Hc]. now inversion Hc. }
  destruct ws as [|w' ws]; [now split|].
  rewrite join_cons2. split.
  - destruct Hfirst as (c & r & -> & Hc).
    now exists c, (r ++ lit " " ++ join (lit " ") (w' :: ws)).
  - destruct IH as [_ (c & r & E & Hc)]; [discriminate|].
    exists c, (w ++ lit " " ++ r). rewrite E. split; [|assumption].
    now rewrite <- !app_assoc.
Qed.

Lemma strip_join_words (ws : list str) :
  Forall word ws -> strip (join (lit " ") ws) = join (lit " ") ws.
Proof.
  intros Hws. destruct ws as [|w ws]; [reflexivity|].
  destruct (join_words_ends (w :: ws) Hws ltac:(discriminate))
    as [(c & r & E & Hc) (c' & r' & E' & Hc')].
  unfold strip, rstrip.
  assert (L : lstrip (join (lit " ") (w :: ws)) = join (lit " ") (w :: ws))
    by (rewrite E; cbn; now rewrite Hc).
  rewrite L, E', rev_app_distr. cbn [rev app lstrip]. rewrite Hc'.
  change (c' :: rev r') with (rev [c'] ++ rev r').
  now rewrite <- rev_app_distr, rev_involutive.
Qed.

(** A normalized text is the words of the unescaped text, in lower case,
    joined by one space. *)
Lemma normalize_text_join (s : str) :
  normalize_text s = join (lit " ") (map lower (split (unescape s)))
  /\ Forall word (map lower (split (unescape s))).
Proof.
  rewrite normalize_text_unescape, join_lower. split; [reflexivity|].
  apply Forall_forall. intros w Hw.
  apply in_map_iff in Hw as (v & <- & Hv). apply word_lower.
  revert v Hv. apply Forall_forall, split_is_words.
Qed.

Lemma normalize_text_form (s : str) :
  let n := normalize_text s in
  strip n = n /\ join (lit " ") (split n) = n /\ lower n = n.
Proof.
  cbn zeta. destruct (normalize_text_join s) as [E Hws].
  repeat split.
  - rewrite E. now apply strip_join_words.
  - rewrite E at 1. rewrite split_join by assumption. now symmetry.
  - rewrite normalize_text_unescape. apply lower_idem.
Qed.

(** The result of [_normalize_text], for every text: it has no white
    space at its ends, its words are separated by one space each, and it
    is in lower case; [strip], [' '.join(....split())] and [lower] leave
    it as it is. *)
Theorem normalize_text_canonical (s : str) :
  let n := normalize_text s in
  strip n = n /\ join (lit " ") (split n) = n /\ lower n = n.
Proof. apply normalize_text_form. Qed.

Section NoPattern.

Variables (a b : ascii) (new : str).

(** [replace] leaves a text without the first character of the pattern
    as it is. *)
Lemma replace_absent (s : str) :
  ~ In a s -> replace [a; b] new s = s.
Proof.
  induction s as [|c s IH]; intros H; [reflexivity|].
  rewrite rep_cons_fst by (intros ->; apply H; now left).
  rewrite IH; [reflexivity|]. intros Hs. apply H. now right.
Qed.

End NoPattern.

Lemma unescape_absent (s : str) : ~ In backslash s -> unescape s = s.
Proof.
  intros H. unfold unescape.
  change (lit "\,") with [backslash; ","%char].
  change (lit "\;") with [backslash; ";"%char].
  change (lit "\n") with [backslash; "n"%char].
  change (lit "\\") with [backslash; backslash].
  now rewrite !(replace_absent _ _ _ s H).
Qed.

(** The characters of the words of a text are characters of the text. *)
Lemma split_incl (s : str) (w : str) (c : ascii) :
  In w (split s) -> In c w -> In c s.
Proof.
  revert w. induction s as [|d s IH]; intros w Hw Hc; [destruct Hw|].
  destruct (isspace d) eqn:Hd.
  - rewrite split_space in Hw by assumption. right. eauto.
  - destruct s as [|e s].
    + cbn in Hw. rewrite Hd in Hw. destruct Hw as [<- | []]. exact Hc.
    + destruct (isspace e) eqn:He.
      * rewrite split_word_boundary in Hw by assumption.
        destruct Hw as [<- | Hw].
        -- destruct Hc as [<- | []]. now left.
        -- right. eauto.
      * destruct (split_word_cons d e s Hd He) as (v & vs & E & E').
        rewrite E' in Hw. rewrite E in IH.
        destruct Hw as [<- | Hw].
        -- destruct Hc as [<- | Hc]; [now left|].
           right. apply (IH v); [now left | assumption].
        -- right. apply (IH w); [now right | assumption].
Qed.

Lemma join_incl (ws : list str) (c : ascii) :
  In c (join (lit " ") ws) ->
  c = " "%char \/ exists w, In w ws /\ In c w.
Proof.
  induction ws as [|w ws IH]; [intros []|].
  destruct ws as [|w' ws].
  - intros H. right. exists w. split; [now left | exact H].
  - rewrite join_cons2, !in_app_iff. intros [H | [[<- | []] | H]].
    + right. exists w. split; [now left | exact H].
    + now left.
    + destruct (IH H) as [-> | (v & Hv & Hc)]; [now left|].
      right. exists v. split; [now right | exact Hc].
Qed.

(** A text without a backslash has a normalized text without one. *)
Lemma normalize_text_no_backslash (s : str) :
  ~ In backslash s -> ~ In backslash (normalize_text s).
Proof.
  intros H Hn. rewrite normalize_text_unescape in Hn.
  rewrite unescape_absent in Hn by assumption.
  unfold lower in Hn. apply in_map_iff in Hn as (c & Hc & Hin).
  apply lower_char_backslash in Hc. subst c.
  apply join_incl in Hin as [Hsp | (w & Hw & Hc)].
  - revert Hsp. vm_compute. congruence.
  - apply H. eapply split_incl; eassumption.
Qed.

(** [_normalize_text] is idempotent on the texts that hold no
    backslash: normalizing a normalized title changes nothing. *)
Theorem normalize_text_idempotent (s : str) :
  ~ In backslash s ->
  normalize_text (normalize_text s) = normalize_text s.
Proof.
  intros H.
  destruct (normalize_text_form s) as (_ & Hj & Hl).
  rewrite (normalize_text_unescape (normalize_text s)).
  rewrite unescape_absent by now apply normalize_text_no_backslash.
  now rewrite Hj, Hl.
Qed.

Lemma normalize_text_idempotent_witness :
  normalize_text (normalize_text (lit "  Team   Standup,  ROOM 4 "))
  = normalize_text (lit "  Team   Standup,  ROOM 4 ").
Proof.
  apply normalize_text_idempotent.
  vm_compute. intuition congruence.
Defined.

(* ================================================================== *)
(** ** Events that cannot be converted for Google *)
(* ================================================================== *)

Section ConversionFacts.

Variable pytz_timezone : str -> option zone.
Variable config : Config.
Variable backend : list Call -> Call -> option str.

Local Abbreviation convert_to_google_format :=
  (Engine.convert_to_google_format pytz_timezone config).
Local Abbreviation create_event_in_target :=
  (Engine.create_event_in_target pytz_timezone config backend).
Local Abbreviation update_event_in_target :=
  (Engine.update_event_in_target pytz_timezone config backend).
Local Abbreviation perform := (Engine.perform pytz_timezone config backend).
Local Abbreviation classify := (Engine.classify pytz_timezone config).
Local Abbreviation sync_event :=
  (Engine.sync_event pytz_timezone config backend).
Local Abbreviation sync_events :=
  (Engine.sync_events pytz_timezone config backend).
Local Abbreviation tally := (Engine.tally pytz_timezone config).

Lemma convert_raises_without_times (ev : Event) :
  start ev = None \/ end_ ev = None ->
  exists e, convert_to_google_format ev = Raise e.
Proof.
  unfold Engine.convert_to_google_format, attr_of, Engine.local_tz.
  intros [-> | ->].
  - destruct (all_day ev); cbn; eauto.
  - destruct (all_day ev), (start ev) as [s|]; cbn; eauto.
    destruct (tzinfo s) eqn:Hs; cbn; eauto.
    destruct (pytz_timezone (timezone config)) as [tz|]; cbn; eauto.
    unfold localize. rewrite Hs. destruct (tz s); cbn; eauto.
Qed.

(** [_convert_to_google_format] raises on an event without a start or
    without an end, all-day or not. *)
Theorem convert_to_google_format_needs_times (ev : Event) :
  start ev = None \/ end_ ev = None ->
  exists e, convert_to_google_format ev = Raise e.
Proof. apply convert_raises_without_times. Qed.

(** A value that [_convert_to_google_format] returns for an event that
    is not all-day carries the wall clock of the start and of the end of
    the event; its start is aware, and it is the start of the event when
    that one is aware: nothing is converted to UTC. *)
Theorem convert_to_google_format_keeps_clock
    (ev : Event) (data : GoogleData) :
  all_day ev = false ->
  convert_to_google_format ev = Ok data ->
  exists s e s' e',
    start ev = Some s /\ end_ ev = Some e
    /\ g_start data = GDateTime s' /\ g_end data = GDateTime e'
    /\ replace_tzinfo s' None = replace_tzinfo s None
    /\ replace_tzinfo e' None = replace_tzinfo e None
    /\ tzinfo s' <> None
    /\ (tzinfo s <> None -> s' = s /\ e' = e).
Proof.
  unfold Engine.convert_to_google_format, attr_of, Engine.local_tz.
  intros ->. destruct (start ev) as [s|]; [|discriminate]. cbn [rbind].
  destruct (tzinfo s) as [off|] eqn:Hs; cbn [is_none].
  - destruct (end_ ev) as [e|]; [|discriminate]. cbn.
    intros [= <-]. exists s, e, s, e. cbn. rewrite Hs.
    repeat split; auto; discriminate.
  - destruct (pytz_timezone (timezone config)) as [tz|]; [|discriminate].
    cbn [rbind]. unfold localize at 1. rewrite Hs.
    destruct (tz s) as [off|]; [|discriminate]. cbn [rbind].
    destruct (end_ ev) as [e|]; [|discriminate]. cbn [rbind].
    unfold localize. destruct (tzinfo e) eqn:He; [discriminate|].
    destruct (tz e) as [off'|]; [|discriminate]. cbn.
    intros [= <-]. eexists s, e, _, _. cbn.
    repeat split; auto; try discriminate; congruence.
Qed.

Lemma perform_without_times (dry_run : bool) (ev : Event) (d : Decision)
    (w : World) :
  start ev = None \/ end_ ev = None ->
  exists w',
    perform icloud_to_google dry_run ev d w = (Ok tt, w')
    /\ calls w' = calls w.
Proof.
  intros H.
  destruct (convert_raises_without_times ev H) as [e He].
  destruct d; cbn [Engine.perform]; unfold bind, print, when_, ret;
    destruct dry_run; cbn [negb];
    rewrite ?update_event_in_target_icloud_to_google,
      ?create_event_in_target_icloud_to_google, ?He;
    eexists; split; reflexivity.
Qed.

(** A pass towards Google whose source events all lack a start or an
    end sends nothing to Google, dry run or not, and still returns the
    counters of its decisions: each event is counted as created, updated
    or skipped. *)
Theorem pass_without_times_sends_nothing
    (source_events target_events : list Event)
    (dry_run avoid_conflicts : bool) (w : World) :
  Forall (fun ev => start ev = None \/ end_ ev = None) source_events ->
  exists w',
    sync_events source_events target_events icloud_to_google dry_run
      avoid_conflicts w
    = (Ok (tally source_events target_events avoid_conflicts), w')
    /\ calls w' = calls w.
Proof.
  intros Hall.
  destruct (sync_events_ok pytz_timezone config backend source_events
              target_events icloud_to_google dry_run avoid_conflicts w)
    as (w' & E & _). exists w'. split; [exact E|].
  apply (f_equal snd) in E. cbn [snd] in E. subst w'.
  unfold Engine.sync_events.
  generalize {| created := 0; updated := 0; skipped := 0 |}.
  generalize (build_target_lookup target_events) as target_lookup.
  intros target_lookup stats. revert stats w.
  induction Hall as [|ev evs Hev _ IH]; intros stats w; cbn [for_each];
    [reflexivity|].
  unfold bind. rewrite sync_event_classify. cbn zeta. unfold bind.
  destruct (perform_without_times dry_run ev
              (classify target_lookup target_events avoid_conflicts ev)
              w Hev) as (w1 & -> & H1).
  cbn [ret]. specialize (IH (count (classify target_lookup target_events
                                      avoid_conflicts ev) stats) w1).
  destruct (for_each _ evs _ w1) as [r w2]. cbn [snd] in *.
  destruct r; cbn [snd]; congruence.
Qed.

(** An update towards Google whose target has no identifier, or an empty
    one, makes no call and prints nothing; the caller has counted it as
    updated. *)
Theorem update_without_id_is_not_sent
    (source_event target_event : Event) (data : GoogleData) (w : World) :
  convert_to_google_format source_event = Ok data ->
  id_ target_event = None \/ id_ target_event = Some [] ->
  update_event_in_target source_event target_event icloud_to_google w
  = (Ok tt, w).
Proof.
  intros Hc Hid. rewrite update_event_in_target_icloud_to_google, Hc.
  now destruct Hid as [-> | ->].
Qed.

End ConversionFacts.

Lemma convert_to_google_format_needs_times_witness :
  exists e,
    Engine.convert_to_google_format sample_pytz sample_config
      standup_no_times = Raise e.
Proof.
  apply (convert_to_google_format_needs_times sample_pytz sample_config).
  now left.
Defined.

Lemma convert_to_google_format_keeps_clock_witness :
  exists s e s' e',
    start standup_a = Some s /\ end_ standup_a = Some e
    /\ g_start (Build_GoogleData (summary standup_a)
                  (description standup_a) (location standup_a)
                  (GDateTime t_0900) (GDateTime t_0930)) = GDateTime s'
    /\ g_end (Build_GoogleData (summary standup_a)
                (description standup_a) (location standup_a)
                (GDateTime t_0900) (GDateTime t_0930)) = GDateTime e'
    /\ replace_tzinfo s' None = replace_tzinfo s None
    /\ replace_tzinfo e' None = replace_tzinfo e None
    /\ tzinfo s' <> None
    /\ (tzinfo s <> None -> s' = s /\ e' = e).
Proof.
  apply (convert_to_google_format_keeps_clock sample_pytz sample_config);
    reflexivity.
Defined.

Lemma pass_without_times_sends_nothing_witness :
  exists w',
    Engine.sync_events sample_pytz sample_config reliable_backend
      [standup_no_times] [] icloud_to_google false false empty_world
    = (Ok (Engine.tally sample_pytz sample_config [standup_no_times] []
             false), w')
    /\ calls w' = calls empty_world.
Proof.
  apply (pass_without_times_sends_nothing sample_pytz sample_config
           reliable_backend).
  constructor; [now left | constructor].
Defined.

(* ================================================================== *)
(** ** Times in two zones *)
(* ================================================================== *)

Section ZoneFacts.

Variable pytz_timezone : str -> option zone.
Variable config : Config.

Local Abbreviation times_match := (Engine.times_match pytz_timezone config).
Local Abbreviation instant_of := (Engine.instant_of pytz_timezone config).
Local Abbreviation classify := (Engine.classify pytz_timezone config).

(** Two valid datetimes that denote the same instant, one of them at
    least with an offset, match: the zone a calendar writes a time in
    does not matter to [_times_match]. *)
Theorem same_instant_times_match (a b : datetime) (u : Z) :
  valid a = true -> valid b = true ->
  tzinfo a <> None \/ tzinfo b <> None ->
  instant_of a = Some u -> instant_of b = Some u ->
  times_match (Some a) (Some b) = true.
Proof.
  intros Va Vb Haware Ha Hb.
  rewrite (times_match_char pytz_timezone config a b Va Vb).
  unfold Engine.match_gap, Engine.common_line. rewrite Ha, Hb.
  destruct (tzinfo a), (tzinfo b); try (apply Z.leb_le; lia).
  destruct Haware; congruence.
Qed.

(** A target with the title of the source event and matching times, but
    another fingerprint, is skipped as similar whatever the two
    descriptions are: a change of description on an event that moved by
    a minute or less, or that the other calendar writes in another zone,
    is not propagated. *)
Theorem similar_target_hides_description
    (s t : Event) (avoid_conflicts : bool) :
  normalize_text (summary s) = normalize_text (summary t) ->
  normalize_text (summary s) <> [] ->
  times_match (start s) (start t) = true ->
  times_match (end_ s) (end_ t) = true ->
  calculate_event_hash s <> calculate_event_hash t ->
  classify (build_target_lookup [t]) [t] avoid_conflicts s = SimilarSkip.
Proof.
  intros Hsum Hne Hstart Hend Hh.
  unfold Engine.classify. rewrite build_target_lookup_single.
  destruct (decide _); [congruence|].
  assert (G : is_empty (normalize_text (summary s)) || is_none (start s)
              || is_none (end_ s) = false).
  { destruct (normalize_text (summary s)); [congruence|].
    destruct (start s); [|discriminate].
    destruct (end_ s); [reflexivity|discriminate]. }
  unfold Engine.find_rescheduled_event, Engine.find_similar_event.
  rewrite G, !find_single.
  unfold Engine.is_reschedule_of, Engine.is_similar_to.
  rewrite Hstart, Hend, Hsum, str_eqb_refl. cbn [andb negb].
  now rewrite ?andb_false_r.
Qed.

End ZoneFacts.

(* ================================================================== *)
(** ** The properties on sample data *)
(* ================================================================== *)

Lemma same_instant_times_match_witness :
  Engine.times_match sample_pytz sample_config
    (Some t_0900) (Some t_0400_west) = true.
Proof.
  apply (same_instant_times_match sample_pytz sample_config
           t_0900 t_0400_west (wall t_0900));
    try reflexivity.
  left. discriminate.
Defined.

Lemma similar_target_hides_description_witness :
  Engine.classify sample_pytz sample_config
    (build_target_lookup [standup "room B" (Some t_0400_west)
                            (Some t_0430_west)])
    [standup "room B" (Some t_0400_west) (Some t_0430_west)] false
    standup_a
  = SimilarSkip.
Proof.
  apply similar_target_hides_description;
    try reflexivity; vm_compute; congruence.
Defined.

Lemma reschedule_is_not_similar_witness :
  Engine.is_similar_to sample_pytz sample_config standup_later
    standup_early = false.
Proof.
  apply reschedule_is_not_similar. reflexivity.
Defined.

Lemma find_rescheduled_event_sound_witness :
  (exists before after,
      [standup_a; standup_early] = before ++ standup_early :: after
      /\ Forall (fun x => Engine.is_reschedule_of sample_pytz sample_config
                            standup_later x = false) before)
  /\ normalize_text (summary standup_later) <> []
  /\ normalize_text (summary standup_later)
     = normalize_text (summary standup_early)
  /\ normalize_text (description standup_later)
     = normalize_text (description standup_early)
  /\ Engine.has_significant_time_difference sample_pytz sample_config
       (start standup_later) (start standup_early)
       (end_ standup_later) (end_ standup_early) = true
  /\ (Engine.times_match sample_pytz sample_config
        (start standup_later) (start standup_early) = false
      \/ Engine.times_match sample_pytz sample_config
           (end_ standup_later) (end_ standup_early) = false).
Proof.
  apply find_rescheduled_event_sound. reflexivity.
Defined.

Lemma find_similar_event_sound_witness :
  (exists before after,
      [standup_later; standup_b] = before ++ standup_b :: after
      /\ Forall (fun x => Engine.is_similar_to sample_pytz sample_config
                            standup_a x = false) before)
  /\ normalize_text (summary standup_a) <> []
  /\ normalize_text (summary standup_a) = normalize_text (summary standup_b)
  /\ Engine.times_match sample_pytz sample_config
       (start standup_a) (start standup_b) = true
  /\ Engine.times_match sample_pytz sample_config
       (end_ standup_a) (end_ standup_b) = true.
Proof.
  apply find_similar_event_sound. reflexivity.
Defined.

Lemma searches_need_title_and_times_witness :
  Engine.find_rescheduled_event sample_pytz sample_config
    (untitled (Some t_1000) (Some t_1030)) [standup_early] = None
  /\ Engine.find_similar_event sample_pytz sample_config
       (untitled (Some t_1000) (Some t_1030)) [standup_early] = None.
Proof.
  apply searches_need_title_and_times. left. reflexivity.
Defined.

Lemma significant_difference_implies_no_match_witness :
  Engine.times_match sample_pytz sample_config (Some t_1000) (Some t_0900)
  && Engine.times_match sample_pytz sample_config
       (Some t_0930) (Some t_0930) = false.
Proof.
  apply significant_difference_implies_no_match;
    try reflexivity; left; discriminate.
Defined.

Lemma conflict_deferral_witness :
  fst (Engine.sync_bidirectional sample_pytz sample_config reliable_backend
         [standup_later] [standup_early] false empty_world)
  = Ok {| events_processed := 2; events_created := 0; events_updated := 1;
          events_deleted := 0; events_skipped := 1 |}.
Proof.
  apply conflict_deferral; [reflexivity | vm_compute; congruence].
Defined.

Lemma update_without_id_is_not_sent_witness :
  Engine.update_event_in_target sample_pytz sample_config reliable_backend
    standup_a standup_unsaved icloud_to_google empty_world
  = (Ok tt, empty_world).
Proof.
  apply (update_without_id_is_not_sent sample_pytz sample_config
           reliable_backend standup_a standup_unsaved
           (Build_GoogleData (summary standup_a) (description standup_a)
              (location standup_a) (GDateTime t_0900) (GDateTime t_0930)));
    [reflexivity | now left].
Defined.

Lemma needs_update_self_witness :
  Engine.needs_update sample_pytz sample_config standup_a standup_a = false.
Proof.
  apply needs_update_self. split; discriminate.
Defined.

(* ================================================================== *)
(** ** [sync]: the fetch, the dispatch and the wrapper *)
(* ================================================================== *)

Section SyncFacts.

Variable pytz_timezone : str -> option zone.
Variable config : Config.
Variable backend : list Call -> Call -> option str.
Variable GoogleItem : Type.
Variable google_get_events : datetime -> datetime -> M (list GoogleItem).
Variable icloud_get_events :
  datetime -> datetime -> M (list (option Event)).
Variable format_event_for_sync : GoogleItem -> result Event.

Local Abbreviation sync :=
  (Engine.sync pytz_timezone config backend GoogleItem google_get_events
     icloud_get_events format_event_for_sync).
Local Abbreviation tally := (Engine.tally pytz_timezone config).

(** The part of [sync] after the fetch and the formatting, on a
    configuration with one of the three directions: it returns, and its
    counters add up. *)
Lemma dispatch_totals
    (google_formatted icloud_formatted : list Event) (dry_run : bool)
    (w : World) :
  member (sync_direction config)
    [lit "both"; lit "google_to_icloud"; lit "icloud_to_google"] = true ->
  let result0 :=
    {| events_processed := len google_formatted + len icloud_formatted;
       events_created := 0; events_updated := 0; events_deleted := 0;
       events_skipped := 0 |} in
  let add (sync_stats : Stats) :=
    {| events_processed := events_processed result0;
       events_created := events_created result0 + created sync_stats;
       events_updated := events_updated result0 + updated sync_stats;
       events_deleted := events_deleted result0;
       events_skipped := events_skipped result0 + skipped sync_stats |} in
  exists result w',
    (if str_eqb (sync_direction config) (lit "both") then
       Engine.sync_bidirectional pytz_timezone config backend
         google_formatted icloud_formatted dry_run
     else if str_eqb (sync_direction config) (lit "google_to_icloud") then
       (sync_stats <- Engine.sync_events pytz_timezone config backend
                        google_formatted icloud_formatted google_to_icloud
                        dry_run false ;;
        ret (add sync_stats))
     else if str_eqb (sync_direction config) (lit "icloud_to_google") then
       (sync_stats <- Engine.sync_events pytz_timezone config backend
                        icloud_formatted google_formatted icloud_to_google
                        dry_run false ;;
        ret (add sync_stats))
     else ret result0)%M w
    = (Ok result, w')
    /\ events_processed result
       = len google_formatted + len icloud_formatted
    /\ events_deleted result = 0
    /\ events_created result + events_updated result
       + events_skipped result
       = (if str_eqb (sync_direction config) (lit "both")
          then len google_formatted + len icloud_formatted
          else if str_eqb (sync_direction config) (lit "google_to_icloud")
               then len google_formatted
               else len icloud_formatted)
    /\ (dry_run = true -> calls w' = calls w).
Proof.
  unfold member. cbn [existsb]. intros Hdir. cbn zeta.
  destruct (str_eqb (sync_direction config) (lit "both")).
  - destruct (sync_bidirectional_ok pytz_timezone config backend
                google_formatted icloud_formatted dry_run w)
      as (w' & -> & Hd).
    eexists _, w'. split; [reflexivity|]. cbn.
    repeat split; auto.
    pose proof (tally_total pytz_timezone config google_formatted
                  icloud_formatted) as T1.
    pose proof (tally_total pytz_timezone config icloud_formatted
                  google_formatted) as T2.
    cbn zeta in T1, T2.
    match goal with
    | |- context [tally google_formatted icloud_formatted ?b] =>
        specialize (T1 b)
    end.
    match goal with
    | |- context [tally icloud_formatted google_formatted ?b] =>
        specialize (T2 b)
    end.
    lia.
  - destruct (str_eqb (sync_direction config) (lit "google_to_icloud")).
    + unfold bind, ret.
      destruct (sync_events_ok pytz_timezone config backend
                  google_formatted icloud_formatted google_to_icloud
                  dry_run false w) as (w' & -> & _ & _ & Hd).
      eexists _, w'. split; [reflexivity|]. cbn.
      repeat split; auto.
      pose proof (tally_total pytz_timezone config google_formatted
                    icloud_formatted false) as T. cbn zeta in T. lia.
    + destruct (str_eqb (sync_direction config) (lit "icloud_to_google"));
        [|discriminate].
      unfold bind, ret.
      destruct (sync_events_ok pytz_timezone config backend
                  icloud_formatted google_formatted icloud_to_google
                  dry_run false w) as (w' & -> & _ & _ & Hd).
      eexists _, w'. split; [reflexivity|]. cbn.
      repeat split; auto.
      pose proof (tally_total pytz_timezone config icloud_formatted
                    google_formatted false) as T. cbn zeta in T. lia.
Qed.

(** The part of [sync] after the fetch and the formatting returns, on
    every configuration: the passes catch what their calls raise. *)
Lemma dispatch_returns
    (google_formatted icloud_formatted : list Event) (dry_run : bool)
    (result0 : SyncResult) (add : Stats -> SyncResult) (w : World) :
  exists result w',
    (if str_eqb (sync_direction config) (lit "both") then
       Engine.sync_bidirectional pytz_timezone config backend
         google_formatted icloud_formatted dry_run
     else if str_eqb (sync_direction config) (lit "google_to_icloud") then
       (sync_stats <- Engine.sync_events pytz_timezone config backend
                        google_formatted icloud_formatted google_to_icloud
                        dry_run false ;;
        ret (add sync_stats))
     else if str_eqb (sync_direction config) (lit "icloud_to_google") then
       (sync_stats <- Engine.sync_events pytz_timezone config backend
                        icloud_formatted google_formatted icloud_to_google
                        dry_run false ;;
        ret (add sync_stats))
     else ret result0)%M w
    = (Ok result, w').
Proof.
  destruct (str_eqb (sync_direction config) (lit "both")).
  - destruct (sync_bidirectional_ok pytz_timezone config backend
                google_formatted icloud_formatted dry_run w)
      as (w' & -> & _). eauto.
  - destruct (str_eqb (sync_direction config) (lit "google_to_icloud")).
    + unfold bind, ret.
      destruct (sync_events_ok pytz_timezone config backend
                  google_formatted icloud_formatted google_to_icloud
                  dry_run false w) as (w' & -> & _). eauto.
    + destruct (str_eqb (sync_direction config) (lit "icloud_to_google")).
      * unfold bind, ret.
        destruct (sync_events_ok pytz_timezone config backend
                    icloud_formatted google_formatted icloud_to_google
                    dry_run false w) as (w' & -> & _). eauto.
      * unfold ret. eauto.
Qed.

(** [sync] with a configuration accepted by [validate_config], when both
    clients return their events and the Google events can be formatted:
    it returns, every formatted event is counted as processed, the
    [None] entries of the iCloud list apart, nothing is deleted, each
    source event of the configured direction is counted once as created,
    updated or skipped, and a dry run leaves the calls as the fetch left
    them. *)
Theorem sync_totals
    (icloud_username icloud_password : option str)
    (start_date end_date : datetime) (dry_run : bool)
    (google_events : list GoogleItem) (icloud_events : list (option Event))
    (google_formatted : list Event) (w w1 w2 : World) :
  validate_config icloud_username icloud_password config = Ok tt ->
  google_get_events start_date end_date w = (Ok google_events, w1) ->
  icloud_get_events start_date end_date w1 = (Ok icloud_events, w2) ->
  map_result format_event_for_sync google_events = Ok google_formatted ->
  let icloud_formatted := omap id icloud_events in
  exists result w',
    sync start_date end_date dry_run w = (Ok result, w')
    /\ events_processed result
       = len google_formatted + len icloud_formatted
    /\ events_deleted result = 0
    /\ events_created result + events_updated result
       + events_skipped result
       = (if str_eqb (sync_direction config) (lit "both")
          then len google_formatted + len icloud_formatted
          else if str_eqb (sync_direction config) (lit "google_to_icloud")
               then len google_formatted
               else len icloud_formatted)
    /\ (dry_run = true -> calls w' = calls w2).
Proof.
  intros Hv Hg Hi Hf. cbn zeta.
  assert (Hdir : member (sync_direction config)
                   [lit "both"; lit "google_to_icloud";
                    lit "icloud_to_google"] = true).
  { unfold validate_config in Hv.
    destruct (unset icloud_username); [discriminate|].
    destruct (unset icloud_password); [discriminate|].
    now destruct (member _ _). }
  destruct (dispatch_totals google_formatted (omap id icloud_events)
              dry_run w2 Hdir)
    as (result & w' & E & H).
  exists result, w'. split; [|exact H].
  unfold Engine.sync, try_except, bind at 1. rewrite Hg.
  unfold bind at 1. rewrite Hi.
  unfold bind at 1, lift at 1. rewrite Hf.
  cbn zeta in E. cbn [events_created events_updated events_deleted
    events_skipped events_processed] in *.
  now rewrite E.
Qed.

(** [sync] with a direction that [validate_config] would refuse, when
    both clients return their events and the Google events can be
    formatted: after the fetch it does nothing; it returns the number of
    formatted events and zero counters, and leaves the world as the
    fetch left it. *)
Theorem sync_unknown_direction
    (start_date end_date : datetime) (dry_run : bool)
    (google_events : list GoogleItem) (icloud_events : list (option Event))
    (google_formatted : list Event) (w w1 w2 : World) :
  member (sync_direction config)
    [lit "both"; lit "google_to_icloud"; lit "icloud_to_google"] = false ->
  google_get_events start_date end_date w = (Ok google_events, w1) ->
  icloud_get_events start_date end_date w1 = (Ok icloud_events, w2) ->
  map_result format_event_for_sync google_events = Ok google_formatted ->
  sync start_date end_date dry_run w
  = (Ok {| events_processed :=
             len google_formatted + len (omap id icloud_events);
           events_created := 0; events_updated := 0; events_deleted := 0;
           events_skipped := 0 |}, w2).
Proof.
  unfold member. cbn [existsb]. intros Hdir Hg Hi Hf.
  unfold Engine.sync, try_except, bind at 1. rewrite Hg.
  unfold bind at 1. rewrite Hi.
  unfold bind at 1, lift at 1. rewrite Hf.
  destruct (str_eqb (sync_direction config) (lit "both")); [discriminate|].
  destruct (str_eqb (sync_direction config) (lit "google_to_icloud"));
    [discriminate|].
  destruct (str_eqb (sync_direction config) (lit "icloud_to_google"));
    [discriminate|].
  reflexivity.
Qed.

(** [sync] raises exactly when a fetch or the formatting of a Google
    event raises, and then it raises [Sync failed] on that exception:
    after a failed Google fetch the iCloud client is not asked, and the
    world is left as the last fetch left it, no pass having run.  When
    the three succeed [sync] returns, whatever the configuration and
    the backend. *)
Theorem sync_fails_only_on_fetch
    (start_date end_date : datetime) (dry_run : bool) (w : World) :
  match google_get_events start_date end_date w with
  | (Raise e, w1) =>
      sync start_date end_date dry_run w = (Raise (SyncFailed e), w1)
  | (Ok google_events, w1) =>
      match icloud_get_events start_date end_date w1 with
      | (Raise e, w2) =>
          sync start_date end_date dry_run w = (Raise (SyncFailed e), w2)
      | (Ok icloud_events, w2) =>
          match map_result format_event_for_sync google_events with
          | Raise e =>
              sync start_date end_date dry_run w
              = (Raise (SyncFailed e), w2)
          | Ok google_formatted =>
              exists result w',
                sync start_date end_date dry_run w = (Ok result, w')
          end
      end
  end.
Proof.
  destruct (google_get_events start_date end_date w) as [[gs|e] w1] eqn:Hg.
  2:{ unfold Engine.sync, try_except, bind at 1. now rewrite Hg. }
  destruct (icloud_get_events start_date end_date w1) as [[cs|e] w2]
    eqn:Hi.
  2:{ unfold Engine.sync, try_except, bind at 1. rewrite Hg.
      unfold bind at 1. now rewrite Hi. }
  destruct (map_result format_event_for_sync gs) as [gf|e] eqn:Hf.
  2:{ unfold Engine.sync, try_except, bind at 1. rewrite Hg.
      unfold bind at 1. rewrite Hi.
      unfold bind at 1, lift at 1. now rewrite Hf. }
  destruct (dispatch_returns gf (omap id cs) dry_run
              {| events_processed := len gf + len (omap id cs);
                 events_created := 0; events_updated := 0;
                 events_deleted := 0; events_skipped := 0 |}
              (fun sync_stats =>
                 {| events_processed := len gf + len (omap id cs);
                    events_created := 0 + created sync_stats;
                    events_updated := 0 + updated sync_stats;
                    events_deleted := 0;
                    events_skipped := 0 + skipped sync_stats |}) w2)
    as (result & w' & E).
  exists result, w'.
  unfold Engine.sync, try_except, bind at 1. rewrite Hg.
  unfold bind at 1. rewrite Hi.
  unfold bind at 1, lift at 1. rewrite Hf.
  cbn [events_created events_updated events_deleted events_skipped
    events_processed]. now rewrite E.
Qed.

End SyncFacts.

Lemma sync_totals_witness :
  exists result w',
    Engine.sync sample_pytz one_way_config reliable_backend Event
      (fetched [standup_later; standup_a])
      (fetched [Some standup_early; None]) Ok t_0900 t_1000 false
      empty_world
    = (Ok result, w')
    /\ events_processed result
       = len [standup_later; standup_a]
         + len (omap id [Some standup_early; None])
    /\ events_deleted result = 0
    /\ events_created result + events_updated result
       + events_skipped result
       = (if str_eqb (sync_direction one_way_config) (lit "both")
          then len [standup_later; standup_a]
               + len (omap id [Some standup_early; None])
          else if str_eqb (sync_direction one_way_config)
                    (lit "google_to_icloud")
               then len [standup_later; standup_a]
               else len (omap id [Some standup_early; None]))
    /\ (false = true -> calls w' = calls empty_world).
Proof.
  apply (sync_totals sample_pytz one_way_config reliable_backend Event
           (fetched [standup_later; standup_a])
           (fetched [Some standup_early; None]) Ok
           (Some (lit "user@example.org")) (Some (lit "app-password"))
           t_0900 t_1000 false [standup_later; standup_a]
           [Some standup_early; None] [standup_later; standup_a]
           empty_world empty_world empty_world);
    reflexivity.
Defined.

Lemma sync_unknown_direction_witness :
  Engine.sync sample_pytz misspelt_config reliable_backend Event
    (fetched [standup_later]) (fetched [Some standup_early]) Ok
    t_0900 t_1000 false empty_world
  = (Ok {| events_processed :=
             len [standup_later] + len (omap id [Some standup_early]);
           events_created := 0; events_updated := 0; events_deleted := 0;
           events_skipped := 0 |}, empty_world).
Proof.
  apply (sync_unknown_direction sample_pytz misspelt_config
           reliable_backend Event (fetched [standup_later])
           (fetched [Some standup_early]) Ok t_0900 t_1000 false
           [standup_later] [Some standup_early] [standup_later]
           empty_world empty_world empty_world);
    reflexivity.
Defined.

(** A Google client that cannot fetch: [sync] raises [Sync failed], the
    iCloud client is not asked and no call is made. *)
Example failed_fetch_is_wrapped :
  Engine.sync sample_pytz sample_config reliable_backend Event
    (fetch_fails (lit "HttpError")) (fetched [Some standup_early]) Ok
    t_0900 t_1000 false empty_world
  = (Raise (SyncFailed (BackendError (lit "HttpError"))), empty_world).
Proof. reflexivity. Qed.
